(** * A shallow embedding of the forum backend [app.py]

    The development follows the source file top to bottom:

    - Python values as the handlers see them (request bodies decoded from
      JSON, rows fetched from a cursor, response bodies handed to [jsonify]);
    - the part of [datetime] the handlers call ([strptime], [+ timedelta],
      [strftime]);
    - the two stores behind [get_db_connection] and the statements the
      handlers issue against them;
    - a state-and-exception monad in which [get_db_connection], [init_db]
      and the request handlers are transcribed statement by statement;
    - the properties of the handlers.

    A text is kept as its UTF-8 encoding in a [string]; the operations
    of Python that count characters ([len], slices, the classes of a
    regular expression) work on the characters of that encoding. *)

From Stdlib Require Import ZArith List String Ascii Bool Lia.
From Stdlib Require Import Sorting.Sorted Sorting.Permutation.
From Stdlib Require Import DecimalString.
Import ListNotations.

Set Warnings "-register-all".

Local Open Scope Z_scope.

(* ================================================================== *)
(** * The calendar behind [datetime]                                    *)
(* ================================================================== *)

Module Calendar.

(** A naive [datetime.datetime] object. *)
Record datetime : Type := mkDatetime
  { year : Z; month : Z; day : Z;
    hour : Z; minute : Z; second : Z; microsecond : Z }.

Definition MINYEAR : Z := 1.
Definition MAXYEAR : Z := 9999.

Definition is_leap (y : Z) : bool :=
  (y mod 4 =? 0) && (negb (y mod 100 =? 0) || (y mod 400 =? 0)).

Definition days_in_month (y m : Z) : Z :=
  match m with
  | 1 => 31 | 2 => if is_leap y then 29 else 28 | 3 => 31 | 4 => 30
  | 5 => 31 | 6 => 30 | 7 => 31 | 8 => 31 | 9 => 30 | 10 => 31
  | 11 => 30 | 12 => 31
  | _ => 0
  end.

(** Number of days before January 1st of year [y]. *)
Definition days_before_year (y : Z) : Z :=
  let p := y - 1 in p * 365 + p / 4 - p / 100 + p / 400.

(** Number of days in year [y] before the first day of month [m]. *)
Definition days_before_month (y m : Z) : Z :=
  match m with
  | 1 => 0 | 2 => 31 | 3 => 59 | 4 => 90 | 5 => 120 | 6 => 151
  | 7 => 181 | 8 => 212 | 9 => 243 | 10 => 273 | 11 => 304 | 12 => 334
  | _ => 0
  end + (if (2 <? m) && is_leap y then 1 else 0).

(** [date.toordinal]: 0001-01-01 is day 1. *)
Definition toordinal (d : datetime) : Z :=
  days_before_year (year d) + days_before_month (year d) (month d) + day d.

(** Seconds elapsed since the midnight that precedes 0001-01-01. *)
Definition total_seconds (d : datetime) : Z :=
  toordinal d * 86400 + hour d * 3600 + minute d * 60 + second d.

Definition in_range (lo hi x : Z) : bool := (lo <=? x) && (x <=? hi).

(** The checks of the [datetime] constructor. *)
Definition valid (d : datetime) : bool :=
  in_range MINYEAR MAXYEAR (year d) &&
  in_range 1 12 (month d) &&
  in_range 1 (days_in_month (year d) (month d)) (day d) &&
  in_range 0 23 (hour d) &&
  in_range 0 59 (minute d) &&
  in_range 0 59 (second d) &&
  in_range 0 999999 (microsecond d).

(** The date one day later, [None] past 9999-12-31. *)
Definition next_day (d : datetime) : option datetime :=
  let (y, m) := (year d, month d) in
  if day d <? days_in_month y m then
    Some (mkDatetime y m (day d + 1)
            (hour d) (minute d) (second d) (microsecond d))
  else if m <? 12 then
    Some (mkDatetime y (m + 1) 1
            (hour d) (minute d) (second d) (microsecond d))
  else if y <? MAXYEAR then
    Some (mkDatetime (y + 1) 1 1
            (hour d) (minute d) (second d) (microsecond d))
  else None.

(** [d + timedelta(hours=8)]; [None] stands for [OverflowError]
    ("date value out of range"). *)
Definition add_8_hours (d : datetime) : option datetime :=
  if hour d + 8 <? 24 then
    Some (mkDatetime (year d) (month d) (day d)
            (hour d + 8) (minute d) (second d) (microsecond d))
  else
    match next_day d with
    | Some n =>
        Some (mkDatetime (year n) (month n) (day n)
                (hour d + 8 - 24) (minute d) (second d) (microsecond d))
    | None => None
    end.

End Calendar.

(* ================================================================== *)
(** * Texts and their characters                                        *)
(* ================================================================== *)

Module Text.

(** In UTF-8 a character is one byte that is not of the form
    [10xxxxxx], followed by up to three bytes that are.  A text with a
    lone surrogate has no such encoding and is not a text of the
    model. *)
Definition is_continuation (b : ascii) : bool :=
  match b with Ascii _ _ _ _ _ _ b6 b7 => b7 && negb b6 end.

Definition starts_inside (s : string) : bool :=
  match s with
  | String b _ => is_continuation b
  | EmptyString => false
  end.

(** The characters of a text, each with the bytes that encode it. *)
Fixpoint characters (s : string) : list string :=
  match s with
  | EmptyString => []
  | String b r =>
      match characters r with
      | c :: cs =>
          if starts_inside r then String b c :: cs
          else String b EmptyString :: c :: cs
      | [] => [String b EmptyString]
      end
  end.

Fixpoint flatten (l : list string) : string :=
  match l with
  | [] => EmptyString
  | c :: r => String.append c (flatten r)
  end.

(** [len(s)] *)
Definition length (s : string) : nat := List.length (characters s).

(** [s[:n]] *)
Definition take (n : nat) (s : string) : string :=
  flatten (firstn n (characters s)).

(** A character of one byte below 128. *)
Definition is_ascii (c : string) : bool :=
  match c with
  | String (Ascii _ _ _ _ _ _ _ false) EmptyString => true
  | _ => false
  end.

End Text.

(* ================================================================== *)
(** * [strftime] and [strptime] for ['%Y-%m-%d %H:%M:%S']              *)
(* ================================================================== *)

Module TimeFormat.
Import Calendar.

(** What the two functions take from the platform, and [app.py] cannot
    know: the Unicode tables of the interpreter, for the characters
    outside ASCII (the decimal value of a character of category [Nd],
    and whether a character is white space), and whether [%Y] comes
    out padded to four digits.  The C library of Linux does not pad
    it, and an interpreter that hands the field to that library shows
    the year 5 as [5]. *)
Class Library : Type :=
  { unicode_decimal : string -> option Z;
    unicode_space : string -> bool;
    year_padded : bool }.

Definition digit_char (n : Z) : ascii :=
  ascii_of_nat (48 + Z.to_nat n).

Definition is_digit (c : ascii) : bool :=
  let n := nat_of_ascii c in (48 <=? n)%nat && (n <=? 57)%nat.

Definition digit_value (c : ascii) : Z :=
  Z.of_nat (nat_of_ascii c) - 48.

(** Zero-padded decimal fields, written in front of [k]. *)
Definition pad2 (n : Z) (k : string) : string :=
  String (digit_char (n / 10)) (String (digit_char (n mod 10)) k).

Definition pad4 (n : Z) (k : string) : string :=
  String (digit_char (n / 1000))
    (String (digit_char (n / 100 mod 10))
       (String (digit_char (n / 10 mod 10))
          (String (digit_char (n mod 10)) k))).

(** [-%m-%d %H:%M:%S]; the microseconds are dropped. *)
Definition after_year (d : datetime) : string :=
  String "-" (pad2 (month d) (String "-" (pad2 (day d)
    (String " " (pad2 (hour d) (String ":" (pad2 (minute d)
      (String ":" (pad2 (second d) EmptyString))))))))).

(** The text [YYYY-MM-DD HH:MM:SS] of a datetime. *)
Definition timestamp_text (d : datetime) : string :=
  pad4 (year d) (after_year d).

(** [%Y] of a year from 1 to 9999: four digits, or as many as the
    year has. *)
Definition year_field {L : Library} (y : Z) (k : string) : string :=
  if (1000 <=? y) || year_padded then pad4 y k
  else if 100 <=? y then String (digit_char (y / 100)) (pad2 (y mod 100) k)
  else if 10 <=? y then pad2 y k
  else String (digit_char y) k.

(** [d.strftime('%Y-%m-%d %H:%M:%S')] *)
Definition strftime {L : Library} (d : datetime) : string :=
  year_field (year d) (after_year d).

(** ** Parsing

    [strptime] compiles the format into the regular expression
<<
 (\d\d\d\d)-(1[0-2]|0[1-9]|[1-9])-(3[0-1]|[1-2]\d|0[1-9]|[1-9]| [1-9])
 \s+(2[0-3]|[0-1]\d|\d):([0-5]\d|\d):(6[0-1]|[0-5]\d|\d)
>>
    matches it at the start of the text, and rejects the text when
    the match does not reach its end.  The classes [\d] and [\s] are
    those of Unicode; a class such as [[0-2]] holds ASCII digits only.
    A backtracking matcher is a parser that returns its successes in
    order of preference; it reads the text character by character. *)

Definition parser (A : Type) : Type := list string -> list (A * list string).

Definition pure {A} (a : A) : parser A := fun s => [(a, s)].

Definition bind {A B} (p : parser A) (f : A -> parser B) : parser B :=
  fun s => flat_map (fun '(a, r) => f a r) (p s).

Definition orelse {A} (p q : parser A) : parser A :=
  fun s => p s ++ q s.

Declare Scope parser_scope.
Delimit Scope parser_scope with parser.
Notation "x <- p ;; q" := (bind p (fun x => q))
  (at level 100, p at next level, right associativity) : parser_scope.
Notation "p ;; q" := (bind p (fun _ => q))
  (at level 100, right associativity) : parser_scope.
Infix "<|>" := orelse (at level 60, right associativity) : parser_scope.
Local Open Scope parser_scope.

Definition ascii_decimal (c : string) : option Z :=
  match c with
  | String b EmptyString =>
      if is_digit b then Some (digit_value b) else None
  | _ => None
  end.

(** The value of a character [\d] matches, as [int] reads it. *)
Definition decimal {L : Library} (c : string) : option Z :=
  if Text.is_ascii c then ascii_decimal c
  else
    match unicode_decimal c with
    | Some v => if in_range 0 9 v then Some v else None
    | None => None
    end.

(** [[lo-hi]] for two digits [lo] and [hi]. *)
Definition range (lo hi : Z) : parser Z :=
  fun s =>
    match s with
    | c :: r =>
        match ascii_decimal c with
        | Some v => if in_range lo hi v then [(v, r)] else []
        | None => []
        end
    | [] => []
    end.

(** [\d] *)
Definition digit {L : Library} : parser Z :=
  fun s =>
    match s with
    | c :: r =>
        match decimal c with
        | Some v => [(v, r)]
        | None => []
        end
    | [] => []
    end.

Definition lit (b : ascii) : parser unit :=
  fun s =>
    match s with
    | c :: r => if String.eqb c (String b EmptyString) then [(tt, r)] else []
    | [] => []
    end.

(** The white space of ASCII: tab to carriage return, the four
    separators and the space. *)
Definition ascii_space (b : ascii) : bool :=
  let n := nat_of_ascii b in
  (n =? 32)%nat || ((9 <=? n)%nat && (n <=? 13)%nat) ||
  ((28 <=? n)%nat && (n <=? 31)%nat).

Definition is_space {L : Library} (c : string) : bool :=
  if Text.is_ascii c then
    match c with
    | String b _ => ascii_space b
    | EmptyString => false
    end
  else unicode_space c.

(** [\s*], longest match first. *)
Fixpoint spaces_star {L : Library} (s : list string)
  : list (unit * list string) :=
  match s with
  | c :: r => if is_space c then spaces_star r ++ [(tt, s)] else [(tt, s)]
  | [] => [(tt, s)]
  end.

(** [\s+] *)
Definition spaces_plus {L : Library} : parser unit :=
  fun s =>
    match s with
    | c :: r => if is_space c then spaces_star r else []
    | [] => []
    end.

Definition two (p q : parser Z) : parser Z :=
  a <- p ;; b <- q ;; pure (10 * a + b).

Definition p_Y {L : Library} : parser Z :=
  a <- digit ;; b <- digit ;; c <- digit ;; d <- digit ;;
  pure (1000 * a + 100 * b + 10 * c + d).

Definition p_m : parser Z :=
  two (range 1 1) (range 0 2) <|> two (range 0 0) (range 1 9) <|> range 1 9.

Definition p_d {L : Library} : parser Z :=
  two (range 3 3) (range 0 1) <|> two (range 1 2) digit
  <|> two (range 0 0) (range 1 9) <|> range 1 9
  <|> (lit " " ;; range 1 9).

Definition p_H {L : Library} : parser Z :=
  two (range 2 2) (range 0 3) <|> two (range 0 1) digit <|> digit.

Definition p_M {L : Library} : parser Z :=
  two (range 0 5) digit <|> digit.

Definition p_S {L : Library} : parser Z :=
  two (range 6 6) (range 0 1) <|> two (range 0 5) digit <|> digit.

Definition p_format {L : Library} : parser datetime :=
  y <- p_Y ;; lit "-" ;; m <- p_m ;; lit "-" ;; d <- p_d ;;
  spaces_plus ;;
  H <- p_H ;; lit ":" ;; M <- p_M ;; lit ":" ;; S <- p_S ;;
  pure (mkDatetime y m d H M S 0).

(** [datetime.strptime(s, '%Y-%m-%d %H:%M:%S')]; [None] stands for
    [ValueError]: no match, unconverted data after the match, or
    fields the [datetime] constructor refuses. *)
Definition strptime {L : Library} (s : string) : option datetime :=
  match p_format (Text.characters s) with
  | (d, []) :: _ => if valid d then Some d else None
  | _ => None
  end.

End TimeFormat.

Local Open Scope string_scope.

(* ================================================================== *)
(** * Python values, exceptions and the operators the handlers use      *)
(* ================================================================== *)

Module Py.
Import Calendar.

(** What [request.get_json()] decodes, what a cursor hands back and
    what [jsonify] is given.  A fetched row and a tuple are [VList]s.
    Numbers with a fraction are left out. *)
Inductive value : Type :=
| VNone
| VBool (b : bool)
| VInt (n : Z)
| VStr (s : string)
| VList (l : list value)
| VDict (items : list (string * value))
| VDatetime (d : datetime).

Inductive exn : Type :=
| KeyError (key : string)
| IndexError
| TypeError
| ValueError
| OverflowError
| BadRequest           (* the request has no JSON document to decode *)
| OperationalError     (* the store refuses a statement or a connection *)
| IntegrityError       (* a constraint of the schema is violated *)
| DataError            (* a value the column cannot hold *)
| ProgrammingError     (* a statement the types do not allow *)
| InterfaceError.      (* a parameter that cannot be bound *)

(** [str(e)], the text the list and detail handlers put in a response.
    The text of a driver's exception is the driver's; the model has one
    text for each class. *)
Definition str_of_exn (e : exn) : string :=
  match e with
  | KeyError k => String.append "'" (String.append k "'")
  | IndexError => "list index out of range"
  | TypeError => "unsupported operand type"
  | ValueError => "time data does not match format"
  | OverflowError => "value out of range"
  | BadRequest => "400 Bad Request"
  | OperationalError => "operational error"
  | IntegrityError => "constraint failed"
  | DataError => "value refused by the column"
  | ProgrammingError => "type mismatch"
  | InterfaceError => "error binding parameter"
  end.

Inductive result (A : Type) : Type :=
| Ok (a : A)
| Raise (e : exn).
Arguments Ok {A} a.
Arguments Raise {A} e.

(** [bool(v)] *)
Definition truthy (v : value) : bool :=
  match v with
  | VNone => false
  | VBool b => b
  | VInt n => negb (n =? 0)%Z
  | VStr s => negb (s =? "")
  | VList l => match l with [] => false | _ => true end
  | VDict kv => match kv with [] => false | _ => true end
  | VDatetime _ => true
  end.

Fixpoint lookup (k : string) (kv : list (string * value)) : option value :=
  match kv with
  | [] => None
  | (k', v) :: rest => if k =? k' then Some v else lookup k rest
  end.

Definition has_key (k : string) (kv : list (string * value)) : bool :=
  match lookup k kv with Some _ => true | None => false end.

Definition is_substring (k s : string) : bool :=
  match index 0 k s with Some _ => true | None => false end.

(** [k in v] for a string [k]. *)
Definition contains (k : string) (v : value) : result bool :=
  match v with
  | VDict kv => Ok (has_key k kv)
  | VList l =>
      Ok (existsb (fun x => match x with VStr s => s =? k | _ => false end) l)
  | VStr s => Ok (is_substring k s)
  | _ => Raise TypeError
  end.

(** [v[k]] for a string [k]. *)
Definition getitem (v : value) (k : string) : result value :=
  match v with
  | VDict kv =>
      match lookup k kv with Some x => Ok x | None => Raise (KeyError k) end
  | _ => Raise TypeError
  end.

(** [v[i]] for a literal index [i]. *)
Definition getindex (v : value) (i : nat) : result value :=
  match v with
  | VList l =>
      match nth_error l i with Some x => Ok x | None => Raise IndexError end
  | VStr s =>
      match nth_error (Text.characters s) i with
      | Some c => Ok (VStr c)
      | None => Raise IndexError
      end
  | VDict _ => Raise (KeyError "")
  | _ => Raise TypeError
  end.

(** [len(v)]; the length of a text is the number of its characters. *)
Definition len (v : value) : result nat :=
  match v with
  | VStr s => Ok (Text.length s)
  | VList l => Ok (List.length l)
  | VDict kv => Ok (List.length kv)
  | _ => Raise TypeError
  end.

(** [v[:n]]; of a text, its first [n] characters. *)
Definition slice_to (n : nat) (v : value) : result value :=
  match v with
  | VStr s => Ok (VStr (Text.take n s))
  | VList l => Ok (VList (firstn n l))
  | _ => Raise TypeError
  end.

(** [v + s] for a string literal [s]. *)
Definition add_str (v : value) (s : string) : result value :=
  match v with
  | VStr a => Ok (VStr (String.append a s))
  | _ => Raise TypeError
  end.

(** [s.startswith(p)] and [s.endswith(p)]; two encodings begin or end
    alike exactly when the texts do. *)
Definition startswith (s p : string) : bool := prefix p s.

Definition endswith (s p : string) : bool :=
  (String.length p <=? String.length s)%nat &&
  (substring (String.length s - String.length p) (String.length p) s =? p).

End Py.

(* ================================================================== *)
(** * The two stores                                                    *)
(* ================================================================== *)

(** The tables are the ones [init_db] declares:
<<
   users (id, name UNIQUE NOT NULL, password NOT NULL)
   posts (id, title NOT NULL, content NOT NULL, author_id NOT NULL,
          created_at TIMESTAMP DEFAULT CURRENT_TIMESTAMP,
          FOREIGN KEY (author_id) REFERENCES users (id))
>>
    A [database] is a store in which both tables exist, each as the DDL
    of its own dialect declares it, so that the two
    [CREATE TABLE IF NOT EXISTS] statements leave it as it is.  (A file
    whose tables were first created after a fallback, by the primary
    DDL, has an [id] column the embedded engine does not fill; such a
    file is not a [database] of the model.)  What the engines do with a
    statement is not part of [app.py]; [run] keeps to these rules:
    - the embedded engine parses [?] placeholders and rejects [%s], the
      primary driver does the opposite;
    - the embedded engine accepts the DDL of both dialects (any type name
      is a type to it), the primary one rejects [AUTOINCREMENT];
    - [UNIQUE] and [NOT NULL] are enforced by both engines, the foreign
      key by the primary engine only (the connection never switches the
      embedded engine's enforcement on);
    - [name] and [password] are [VARCHAR(100)] in the primary store and
      [TEXT] in the embedded one; the integer columns have 32 bits in
      the primary store and 64 in the embedded one, and the embedded
      driver refuses a Python integer that does not fit 64 bits;
    - a text column takes a text, and an integer as its decimal text;
      an integer column takes an integer, and a text that writes one in
      decimal digits.  The engines have more conversions than these
      (of texts that write a number in another way, of lists); [run]
      refuses the parameters it has no rule for, and the properties of
      this file keep to parameters it has a rule for;
    - ids are drawn from a counter per table.  A refused insertion
      leaves the counter of the model as it was; a sequence of the
      primary engine keeps the number it drew for the refused row, so
      that the ids handed out after a refused insertion are greater
      there than here.  No property of this file is about those ids;
    - [CURRENT_TIMESTAMP] is the text [YYYY-MM-DD HH:MM:SS] in the embedded
      store and a timestamp in the primary one; the column itself may
      also hold NULL and, in the embedded store, an integer. *)

Module Store.
Import Calendar TimeFormat Py.

Record user : Type := mkUser
  { user_id : Z; user_name : string; user_password : string }.

Inductive stamp : Type :=
| StampNull
| StampInt (n : Z)
| StampText (s : string)
| StampTime (d : datetime).

Record post : Type := mkPost
  { post_id : Z; post_title : string; post_content : string;
    post_author_id : Z; post_created_at : stamp }.

Record database : Type := mkDatabase
  { users : list user; posts : list post;
    next_user_id : Z; next_post_id : Z }.

Inductive backend : Type := PostgreSQL | SQLite.

(** The two ways the source writes a statement: [%s], [SERIAL] and
    [RETURNING id], or [?], [AUTOINCREMENT] and [lastrowid]. *)
Inductive dialect : Type := Primary | Embedded.

Inductive statement : Type :=
| CreateUsers (d : dialect)
| CreatePosts (d : dialect)
| CountUsers
| InsertPost (d : dialect) (returning : bool) (title content author_id : value)
| SelectUserId (d : dialect) (name : value)
| InsertUser (d : dialect) (returning : bool) (name password : value)
| SelectUsers
| SelectPosts
| SelectPost (d : dialect) (id : value).

Record cursor : Type := mkCursor
  { rows : list value; lastrowid : value }.

Definition no_rows : cursor := mkCursor [] VNone.

(** [cursor.fetchone()] after an [execute]; [cursor.fetchall()]. *)
Definition fetchone (c : cursor) : value :=
  match rows c with
  | r :: _ => r
  | [] => VNone
  end.

Definition fetchall (c : cursor) : list value := rows c.

Definition native_dialect (b : backend) : dialect :=
  match b with PostgreSQL => Primary | SQLite => Embedded end.

Definition dialect_eqb (a b : dialect) : bool :=
  match a, b with
  | Primary, Primary | Embedded, Embedded => true
  | _, _ => false
  end.

Definition placeholders_ok (b : backend) (d : dialect) : bool :=
  dialect_eqb (native_dialect b) d.

Definition ddl_ok (b : backend) (d : dialect) : bool :=
  match b, d with
  | PostgreSQL, Embedded => false
  | _, _ => true
  end.

Declare Scope result_scope.
Delimit Scope result_scope with result.
Notation "'let?' x ':=' e 'in' k" :=
  (match e with Ok x => k | Raise err => Raise err end)
  (at level 10, x pattern, e at level 100, k at level 200) : result_scope.
Local Open Scope result_scope.

Definition check (ok : bool) (e : exn) : result unit :=
  if ok then Ok tt else Raise e.

(** ** Parameters *)

Definition fits_64 (n : Z) : bool :=
  in_range (-9223372036854775808) 9223372036854775807 n.

Definition fits_32 (n : Z) : bool :=
  in_range (-2147483648) 2147483647 n.

(** A Python integer handed to the driver: it reaches the embedded
    engine when it fits 64 bits, and the primary engine always, written
    into the statement. *)
Definition integer_param (b : backend) (n : Z) : result Z :=
  match b with
  | SQLite => if fits_64 n then Ok n else Raise OverflowError
  | PostgreSQL => Ok n
  end.

Definition decimal_text (n : Z) : string :=
  NilZero.string_of_int (Z.to_int n).

Definition integer_of_text (s : string) : option Z :=
  option_map Z.of_int (NilZero.int_of_string s).

Definition unbindable (b : backend) : exn :=
  match b with SQLite => InterfaceError | PostgreSQL => ProgrammingError end.

Definition has_nul (s : string) : bool :=
  match index 0 (String zero EmptyString) s with
  | Some _ => true
  | None => false
  end.

(** A text on its way to an engine; the primary driver refuses the
    character NUL. *)
Definition text_param (b : backend) (s : string) : result string :=
  match b with
  | SQLite => Ok s
  | PostgreSQL => if has_nul s then Raise ValueError else Ok s
  end.

(** [VARCHAR(n)]: what is longer is refused, unless all that exceeds
    is spaces, which are cut off. *)
Definition varchar (n : nat) (s : string) : result string :=
  if (Text.length s <=? n)%nat then Ok s
  else if forallb (String.eqb " ") (skipn n (Text.characters s))
       then Ok (Text.take n s)
       else Raise DataError.

(** The text a column [NOT NULL] of texts stores for a parameter;
    [limit] is the length the primary engine declares for it. *)
Definition text_for_column (b : backend) (limit : option nat) (v : value)
  : result string :=
  let? s :=
    (match v with
     | VStr s => text_param b s
     | VNone => Raise IntegrityError
     | VInt n => let? n := integer_param b n in Ok (decimal_text n)
     | VBool x =>
         Ok (match b with
             | SQLite => if x then "1" else "0"
             | PostgreSQL => if x then "true" else "false"
             end)
     | _ => Raise (unbindable b)
     end) in
  match b, limit with
  | PostgreSQL, Some n => varchar n s
  | _, _ => Ok s
  end.

(** The text a parameter stands for when it is compared with a column
    of texts; [None] is NULL, which equals nothing. *)
Definition text_to_compare (b : backend) (v : value)
  : result (option string) :=
  match v with
  | VNone => Ok None
  | VStr s => let? s := text_param b s in Ok (Some s)
  | VInt n =>
      match b with
      | SQLite => let? n := integer_param b n in Ok (Some (decimal_text n))
      | PostgreSQL => Raise ProgrammingError
      end
  | VBool x =>
      match b with
      | SQLite => Ok (Some (if x then "1" else "0"))
      | PostgreSQL => Raise ProgrammingError
      end
  | _ => Raise (unbindable b)
  end.

Definition column_range (b : backend) (n : Z) : result Z :=
  match b with
  | SQLite => if fits_64 n then Ok n else Raise DataError
  | PostgreSQL => if fits_32 n then Ok n else Raise DataError
  end.

(** The integer a column [NOT NULL] of integers stores for a
    parameter. *)
Definition integer_for_column (b : backend) (v : value) : result Z :=
  match v with
  | VInt n => let? n := integer_param b n in column_range b n
  | VBool x =>
      match b with
      | SQLite => Ok (if x then 1 else 0)%Z
      | PostgreSQL => Raise ProgrammingError
      end
  | VStr s =>
      let? s := text_param b s in
      match integer_of_text s with
      | Some n => column_range b n
      | None => Raise DataError
      end
  | VNone => Raise IntegrityError
  | _ => Raise (unbindable b)
  end.

(** The integer a parameter stands for when it is compared with the
    column [id]; the route of [get_post] hands over an integer. *)
Definition integer_to_compare (b : backend) (v : value)
  : result (option Z) :=
  match v with
  | VNone => Ok None
  | VInt n => let? n := integer_param b n in Ok (Some n)
  | _ => Raise (unbindable b)
  end.

(** ** Ordering *)

Fixpoint insert_by {A} (le : A -> A -> bool) (x : A) (l : list A) : list A :=
  match l with
  | [] => [x]
  | y :: r => if le x y then x :: l else y :: insert_by le x r
  end.

Definition sort_by {A} (le : A -> A -> bool) (l : list A) : list A :=
  fold_right (insert_by le) [] l.

Definition time_key (d : datetime) : Z :=
  total_seconds d * 1000000 + microsecond d.

(** The classes of values in ascending order: in the embedded store
    NULL, numbers, texts; in the primary store NULL comes last. *)
Definition stamp_rank (b : backend) (a : stamp) : Z :=
  match a with
  | StampNull => match b with SQLite => 0 | PostgreSQL => 4 end
  | StampInt _ => 1
  | StampText _ => 2
  | StampTime _ => 3
  end.

(** The order of [created_at]: integers by value, texts byte by byte,
    timestamps by time. *)
Definition stamp_leb (b : backend) (x y : stamp) : bool :=
  match x, y with
  | StampInt m, StampInt n => (m <=? n)%Z
  | StampText s, StampText t => String.leb s t
  | StampTime d, StampTime e => (time_key d <=? time_key e)%Z
  | _, _ => (stamp_rank b x <=? stamp_rank b y)%Z
  end.

Definition stamp_ltb (b : backend) (x y : stamp) : bool :=
  negb (stamp_leb b y x).

(** ** Rows *)

Definition value_of_stamp (t : stamp) : value :=
  match t with
  | StampNull => VNone
  | StampInt n => VInt n
  | StampText s => VStr s
  | StampTime d => VDatetime d
  end.

Definition user_row (u : user) : value :=
  VList [VInt (user_id u); VStr (user_name u); VStr (user_password u)].

(** [posts JOIN users ON posts.author_id = users.id] *)
Definition join (db : database) : list (post * user) :=
  flat_map
    (fun p => map (pair p)
                (filter (fun u => (post_author_id p =? user_id u)%Z) (users db)))
    (posts db).

(** The six columns the two post queries select. *)
Definition joined_row (pu : post * user) : value :=
  let (p, u) := pu in
  VList [VInt (post_id p); VStr (post_title p); VStr (post_content p);
         VInt (post_author_id p); VStr (user_name u);
         value_of_stamp (post_created_at p)].

Definition created_desc (b : backend) (x y : post * user) : bool :=
  stamp_leb b (post_created_at (fst y)) (post_created_at (fst x)).

Definition id_asc (a b : user) : bool := (user_id a <=? user_id b)%Z.

Definition current_timestamp (b : backend) (now : datetime) : stamp :=
  match b with
  | SQLite => StampText (timestamp_text now)
  | PostgreSQL => StampTime now
  end.

Definition name_taken (n : string) (db : database) : bool :=
  existsb (fun u => user_name u =? n) (users db).

Definition user_exists (i : Z) (db : database) : bool :=
  existsb (fun u => (user_id u =? i)%Z) (users db).

Definition generated (b : backend) (returning : bool) (i : Z) : cursor :=
  mkCursor (if returning then [VList [VInt i]] else [])
           (match b with SQLite => VInt i | PostgreSQL => VInt 0 end).

Definition name_limit (b : backend) : option nat :=
  match b with PostgreSQL => Some 100%nat | SQLite => None end.

(** One [cursor.execute] on engine [b] at time [now]. *)
Definition run (b : backend) (now : datetime) (st : statement)
           (db : database) : result (database * cursor) :=
  match st with
  | CreateUsers d | CreatePosts d =>
      let? _ := check (ddl_ok b d) OperationalError in
      Ok (db, no_rows)
  | CountUsers =>
      Ok (db, mkCursor [VList [VInt (Z.of_nat (List.length (users db)))]] VNone)
  | InsertPost d returning title content author_id =>
      let? _ := check (placeholders_ok b d) OperationalError in
      let? t := text_for_column b None title in
      let? c := text_for_column b None content in
      let? a := integer_for_column b author_id in
      let? _ := check (match b with
                       | PostgreSQL => user_exists a db
                       | SQLite => true
                       end) IntegrityError in
      let i := next_post_id db in
      let p := mkPost i t c a (current_timestamp b now) in
      Ok (mkDatabase (users db) (posts db ++ [p])
                     (next_user_id db) (i + 1),
          generated b returning i)
  | SelectUserId d name =>
      let? _ := check (placeholders_ok b d) OperationalError in
      let? n := text_to_compare b name in
      Ok (db, mkCursor
                (match n with
                 | Some n =>
                     map (fun u => VList [VInt (user_id u)])
                         (filter (fun u => user_name u =? n) (users db))
                 | None => []
                 end)
                VNone)
  | InsertUser d returning name password =>
      let? _ := check (placeholders_ok b d) OperationalError in
      let? n := text_for_column b (name_limit b) name in
      let? pw := text_for_column b (name_limit b) password in
      let? _ := check (negb (name_taken n db)) IntegrityError in
      let i := next_user_id db in
      Ok (mkDatabase (users db ++ [mkUser i n pw]) (posts db)
                     (i + 1) (next_post_id db),
          generated b returning i)
  | SelectUsers =>
      Ok (db, mkCursor (map user_row (sort_by id_asc (users db))) VNone)
  | SelectPosts =>
      Ok (db, mkCursor
                (map joined_row (sort_by (created_desc b) (join db))) VNone)
  | SelectPost d id =>
      let? _ := check (placeholders_ok b d) OperationalError in
      let? i := integer_to_compare b id in
      Ok (db, mkCursor
                (match i with
                 | Some i =>
                     map joined_row
                         (filter (fun pu => (post_id (fst pu) =? i)%Z)
                                 (join db))
                 | None => []
                 end)
                VNone)
  end.

End Store.

(* ================================================================== *)
(** * The process: environment, connections, state and exceptions       *)
(* ================================================================== *)

Module Runtime.
Import Calendar Py Store.

(** What the module reads from outside: the [DATABASE_URL] variable,
    whether [import psycopg2] succeeded, and the exception, if any,
    that connecting to the server behind a descriptor ends in. *)
Record Env : Type := mkEnv
  { DATABASE_URL : option string;
    POSTGRES_AVAILABLE : bool;
    connect_failure : string -> option exn }.

(** [os.environ.get('DATABASE_URL')] *)
Definition environ_DATABASE_URL (env : Env) : value :=
  match DATABASE_URL env with
  | Some url => VStr url
  | None => VNone
  end.

(** What the two drivers do, which [app.py] cannot know: the exception,
    if any, that [sqlite3.connect('database.db')] ends in (the file
    cannot be opened or created), and the answer of an engine to a
    statement. *)
Class Driver : Type :=
  { database_file_failure : option exn;
    engine : backend -> datetime -> statement -> database ->
             result (database * cursor) }.

(** A connection object: the store it talks to and its view of the
    data, which holds the changes it has not committed. *)
Record connection : Type := mkConnection
  { conn_id : nat; conn_backend : backend; conn_view : database }.

(** The state outside a handler call: the committed content of the
    file [database.db] and of the server, the wall clock, the
    connections that are open, and the statements issued so far with
    the store that received them. *)
Record world : Type := mkWorld
  { sqlite_file : database;
    pg_server : database;
    clock : datetime;
    next_conn_id : nat;
    open_connections : list nat;
    issued : list (backend * statement) }.

Definition committed (b : backend) (w : world) : database :=
  match b with
  | SQLite => sqlite_file w
  | PostgreSQL => pg_server w
  end.

Definition M (A : Type) : Type := world -> result A * world.

Definition ret {A} (a : A) : M A := fun w => (Ok a, w).

Definition bind {A B} (m : M A) (k : A -> M B) : M B :=
  fun w =>
    match m w with
    | (Ok a, w') => k a w'
    | (Raise e, w') => (Raise e, w')
    end.

Definition lift {A} (r : result A) : M A := fun w => (r, w).

(** [try: m  except Exception as e: h e] *)
Definition try_except {A} (m : M A) (h : exn -> M A) : M A :=
  fun w =>
    match m w with
    | (Ok a, w') => (Ok a, w')
    | (Raise e, w') => h e w'
    end.

(** [try: m  finally: f] *)
Definition try_finally {A} (m : M A) (f : M unit) : M A :=
  fun w =>
    match m w with
    | (r, w') =>
        match f w' with
        | (Ok _, w'') => (r, w'')
        | (Raise e, w'') => (Raise e, w'')
        end
    end.

Declare Scope py_scope.
Delimit Scope py_scope with py.
Notation "x <- m ;; k" := (bind m (fun x => k))
  (at level 100, m at next level, right associativity) : py_scope.
Notation "m ;; k" := (bind m (fun _ => k))
  (at level 100, right associativity) : py_scope.
Local Open Scope py_scope.

Definition open_connection (b : backend) : M connection :=
  fun w =>
    (Ok (mkConnection (next_conn_id w) b (committed b w)),
     mkWorld (sqlite_file w) (pg_server w) (clock w)
             (S (next_conn_id w))
             (next_conn_id w :: open_connections w)
             (issued w)).

(** [sqlite3.connect('database.db')] *)
Definition sqlite3_connect {D : Driver} : M connection :=
  match database_file_failure with
  | None => open_connection SQLite
  | Some e => lift (Raise e)
  end.

(** [psycopg2.connect(database_url, sslmode='require')] *)
Definition psycopg2_connect (env : Env) (database_url : string) : M connection :=
  match connect_failure env database_url with
  | None => open_connection PostgreSQL
  | Some e => lift (Raise e)
  end.

(** [cursor.execute(statement)] on the cursor of [conn]. *)
Definition execute {D : Driver} (conn : connection) (st : statement)
  : M (connection * cursor) :=
  fun w =>
    let w' := mkWorld (sqlite_file w) (pg_server w) (clock w)
                      (next_conn_id w) (open_connections w)
                      (issued w ++ [(conn_backend conn, st)]) in
    match engine (conn_backend conn) (clock w) st (conn_view conn) with
    | Ok (db, cur) =>
        (Ok (mkConnection (conn_id conn) (conn_backend conn) db, cur), w')
    | Raise e => (Raise e, w')
    end.

(** [conn.commit()] *)
Definition commit (conn : connection) : M unit :=
  fun w =>
    (Ok tt,
     match conn_backend conn with
     | SQLite =>
         mkWorld (conn_view conn) (pg_server w) (clock w)
                 (next_conn_id w) (open_connections w) (issued w)
     | PostgreSQL =>
         mkWorld (sqlite_file w) (conn_view conn) (clock w)
                 (next_conn_id w) (open_connections w) (issued w)
     end).

(** [conn.rollback()] *)
Definition rollback (conn : connection) : M connection :=
  fun w =>
    (Ok (mkConnection (conn_id conn) (conn_backend conn)
           (committed (conn_backend conn) w)), w).

(** [conn.close()]; what was not committed is lost with the view. *)
Definition close (conn : connection) : M unit :=
  fun w =>
    (Ok tt,
     mkWorld (sqlite_file w) (pg_server w) (clock w) (next_conn_id w)
             (filter (fun i => negb (Nat.eqb i (conn_id conn)))
                     (open_connections w))
             (issued w)).

End Runtime.

(* ================================================================== *)
(** * [app.py]                                                         *)
(* ================================================================== *)

Module App.
Import Calendar TimeFormat Py Store Runtime.
Local Open Scope py_scope.
Local Open Scope result_scope.

(** A Flask response: the body given to [jsonify] and the status. *)
Definition response : Type := (value * Z)%type.

(** The body of a POST request as [request.get_json()] finds it: a
    JSON document, already decoded, or nothing that can be decoded (no
    body, or a body that is not JSON). *)
Inductive request : Type :=
| Json (data : value)
| Undecodable.

Coercion Json : value >-> request.

(** [request.get_json()]; without a document to decode it raises (the
    exception is one of werkzeug's, a subclass of [Exception]). *)
Definition get_json (r : request) : result value :=
  match r with
  | Json data => Ok data
  | Undecodable => Raise BadRequest
  end.

Definition MSG_FIELDS_REQUIRED : string := "用户名和密码不能为空".
Definition MSG_NAME_EXISTS : string := "用户名已存在".
Definition MSG_REGISTERED : string := "注册成功".
Definition MSG_REGISTER_FAILED : string := "注册失败".
Definition MSG_POST_CREATED : string := "帖子发布成功".
Definition MSG_POST_FAILED : string := "帖子发布失败".
Definition MSG_POST_NOT_FOUND : string := "帖子未找到".
Definition MSG_HEALTHY : string := "后端服务运行正常".
Definition SEED_TITLE : string := "欢迎来到论坛！".
Definition SEED_CONTENT : string :=
  "这是一个欢迎帖子，欢迎大家一起交流！
我是论坛的作者，这个论坛是我一手操办的。
这里我就不多说了，愿大家使用快乐！
如发现有问题或建议，可当面通知，亦可通过关于页面的电子邮箱向我发送邮件。
愿大家常怀感恩之心，努力学习，报效祖国！
  作者致辞".

(** ** [get_db_connection] (lines 21-50) *)

Definition get_db_connection {D : Driver} (env : Env) : M connection :=
  let database_url := environ_DATABASE_URL env in
  made <-
    (if truthy database_url && POSTGRES_AVAILABLE env then
       try_except
         (match database_url with
          | VStr url =>
              if startswith url "{{" && endswith url "}}" then
                conn <- sqlite3_connect ;;
                ret (Some conn)
              else
                conn <- psycopg2_connect env url ;;
                ret (Some conn)
          | _ => lift (Raise TypeError)
          end)
         (fun _ => ret None)
     else ret None) ;;
  match made with
  | Some conn => ret conn
  | None => sqlite3_connect
  end.

(** The test [if os.environ.get('DATABASE_URL'):] that every
    dialect-dependent statement of the file is guarded by. *)
Definition sql_dialect (env : Env) : dialect :=
  if truthy (environ_DATABASE_URL env) then Primary else Embedded.

(** [v == n] for an integer literal [n]. *)
Definition eq_int (v : value) (n : Z) : bool :=
  match v with
  | VInt m => (m =? n)%Z
  | VBool b => ((if b then 1 else 0) =? n)%Z
  | _ => false
  end.

(** ** [init_db] (lines 52-124) *)

Definition init_db {D : Driver} (env : Env) : M unit :=
  conn <- get_db_connection env ;;
  try_finally
    (try_except
       (c <- (if truthy (environ_DATABASE_URL env) then
                c <- execute conn (CreateUsers Primary) ;;
                execute (fst c) (CreatePosts Primary)
              else
                c <- execute conn (CreateUsers Embedded) ;;
                execute (fst c) (CreatePosts Embedded)) ;;
        commit (fst c) ;;
        c <- execute (fst c) CountUsers ;;
        user_count <- lift (getindex (fetchone (snd c)) 0) ;;
        if eq_int user_count 0 then
          c <- (if truthy (environ_DATABASE_URL env) then
                  execute (fst c)
                    (InsertPost Primary false
                       (VStr SEED_TITLE) (VStr SEED_CONTENT) (VInt 1))
                else
                  execute (fst c)
                    (InsertPost Embedded false
                       (VStr SEED_TITLE) (VStr SEED_CONTENT) (VInt 1))) ;;
          commit (fst c)
        else ret tt)
       (fun _ => rollback conn ;; ret tt))
    (close conn).

(** ** [register] (lines 138-185) *)

(** [a or b] on conditions that may raise. *)
Definition or_else (a b : result bool) : result bool :=
  let? x := a in if x then Ok true else b.

Definition not_in (k : string) (v : value) : result bool :=
  let? c := contains k v in Ok (negb c).

Definition register {D : Driver} (env : Env) (request : request)
  : M response :=
  try_except
    (data <- lift (get_json request) ;;
     missing <- lift (or_else (Ok (negb (truthy data)))
                       (or_else (not_in "name" data)
                                (not_in "password" data))) ;;
     if missing then
       ret (VDict [("success", VBool false);
                   ("message", VStr MSG_FIELDS_REQUIRED)], 400)
     else
       name <- lift (getitem data "name") ;;
       password <- lift (getitem data "password") ;;
       conn <- get_db_connection env ;;
       c <- (if truthy (environ_DATABASE_URL env) then
               execute conn (SelectUserId Primary name)
             else
               execute conn (SelectUserId Embedded name)) ;;
       let existing_user := fetchone (snd c) in
       if truthy existing_user then
         close (fst c) ;;
         ret (VDict [("success", VBool false);
                     ("message", VStr MSG_NAME_EXISTS)], 400)
       else
         r <- (if truthy (environ_DATABASE_URL env) then
                 c <- execute (fst c) (InsertUser Primary true name password) ;;
                 user_id <- lift (getindex (fetchone (snd c)) 0) ;;
                 ret (fst c, user_id)
               else
                 c <- execute (fst c) (InsertUser Embedded false name password) ;;
                 ret (fst c, lastrowid (snd c))) ;;
         commit (fst r) ;;
         close (fst r) ;;
         ret (VDict [("success", VBool true);
                     ("message", VStr MSG_REGISTERED);
                     ("user_id", snd r)], 201))
    (fun _ =>
       ret (VDict [("success", VBool false);
                   ("message", VStr MSG_REGISTER_FAILED)], 500)).

(** ** [get_users] (lines 189-209) *)

Fixpoint users_list (users : list value) : result (list value) :=
  match users with
  | [] => Ok []
  | user :: rest =>
      let? id := getindex user 0 in
      let? name := getindex user 1 in
      let? password := getindex user 2 in
      let? tail := users_list rest in
      Ok (VDict [("id", id); ("name", name); ("password", password)] :: tail)
  end.

Definition get_users {D : Driver} (env : Env) : M response :=
  try_except
    (conn <- get_db_connection env ;;
     c <- execute conn SelectUsers ;;
     l <- lift (users_list (fetchall (snd c))) ;;
     close (fst c) ;;
     ret (VDict [("success", VBool true); ("data", VList l)], 200))
    (fun e =>
       ret (VDict [("success", VBool false);
                   ("error", VStr (str_of_exn e))], 500)).

(** ** [create_post] (lines 213-240) *)

Definition create_post {D : Driver} (env : Env) (request : request)
  : M response :=
  try_except
    (data <- lift (get_json request) ;;
     conn <- get_db_connection env ;;
     r <- (if truthy (environ_DATABASE_URL env) then
             title <- lift (getitem data "title") ;;
             content <- lift (getitem data "content") ;;
             author_id <- lift (getitem data "author_id") ;;
             c <- execute conn (InsertPost Primary true title content author_id) ;;
             post_id <- lift (getindex (fetchone (snd c)) 0) ;;
             ret (fst c, post_id)
           else
             title <- lift (getitem data "title") ;;
             content <- lift (getitem data "content") ;;
             author_id <- lift (getitem data "author_id") ;;
             c <- execute conn (InsertPost Embedded false title content author_id) ;;
             ret (fst c, lastrowid (snd c))) ;;
     commit (fst r) ;;
     close (fst r) ;;
     ret (VDict [("success", VBool true);
                 ("message", VStr MSG_POST_CREATED);
                 ("post_id", snd r)], 201))
    (fun _ =>
       ret (VDict [("success", VBool false);
                   ("message", VStr MSG_POST_FAILED)], 500)).

(** ** The time conversion of [get_posts] (lines 266-280) and
       [get_post] (lines 347-361), the same text in both *)

Definition raise_if_none {A} (o : option A) (e : exn) : result A :=
  match o with Some a => Ok a | None => Raise e end.

Definition format_created_at {L : Library} (created_at : value) : value :=
  let formatted_time := created_at in
  if truthy created_at then
    match
      (match created_at with
       | VStr s =>
           let? dt := raise_if_none (strptime s) ValueError in
           let? beijing_time := raise_if_none (add_8_hours dt) OverflowError in
           Ok (VStr (strftime beijing_time))
       | VDatetime d =>
           let? beijing_time := raise_if_none (add_8_hours d) OverflowError in
           Ok (VStr (strftime beijing_time))
       | _ => Ok formatted_time
       end)
    with
    | Ok formatted_time => formatted_time
    | Raise time_error => created_at
    end
  else formatted_time.

(** ** [get_posts] (lines 244-305) *)

(** The body of the loop [for post in posts]. *)
Definition post_item {L : Library} (post : value) : result value :=
  let? created_at := getindex post 5 in
  let formatted_time := format_created_at created_at in
  let? content_preview := getindex post 2 in
  let? n := len content_preview in
  let? content_preview :=
     (if (100 <? n)%nat then
        let? head := slice_to 100 content_preview in
        add_str head "..."
      else Ok content_preview) in
  let? id := getindex post 0 in
  let? title := getindex post 1 in
  let? content := getindex post 2 in
  let? author_id := getindex post 3 in
  let? author_name := getindex post 4 in
  Ok (VDict [("id", id); ("title", title);
             ("content_preview", content_preview);
             ("content", content);
             ("author_id", author_id);
             ("author_name", author_name);
             ("created_at", formatted_time)]).

Fixpoint posts_list {L : Library} (posts : list value)
  : result (list value) :=
  match posts with
  | [] => Ok []
  | post :: rest =>
      let? item := post_item post in
      let? tail := posts_list rest in
      Ok (item :: tail)
  end.

Definition get_posts {D : Driver} {L : Library} (env : Env) : M response :=
  try_except
    (conn <- get_db_connection env ;;
     c <- execute conn SelectPosts ;;
     l <- lift (posts_list (fetchall (snd c))) ;;
     close (fst c) ;;
     ret (VDict [("success", VBool true);
                 ("data", VList l);
                 ("count", VInt (Z.of_nat (List.length l)))], 200))
    (fun e =>
       ret (VDict [("success", VBool false);
                   ("error", VStr (str_of_exn e))], 500)).

(** ** [get_post] (lines 309-378) *)

Definition get_post {D : Driver} {L : Library} (env : Env) (post_id : Z)
  : M response :=
  try_except
    (conn <- get_db_connection env ;;
     c <- (if truthy (environ_DATABASE_URL env) then
             execute conn (SelectPost Primary (VInt post_id))
           else
             execute conn (SelectPost Embedded (VInt post_id))) ;;
     let post := fetchone (snd c) in
     close (fst c) ;;
     match post with
     | VNone =>
         ret (VDict [("success", VBool false);
                     ("message", VStr MSG_POST_NOT_FOUND)], 404)
     | _ =>
         created_at <- lift (getindex post 5) ;;
         let formatted_time := format_created_at created_at in
         id <- lift (getindex post 0) ;;
         title <- lift (getindex post 1) ;;
         content <- lift (getindex post 2) ;;
         author_id <- lift (getindex post 3) ;;
         author_name <- lift (getindex post 4) ;;
         let post_detail :=
           VDict [("id", id); ("title", title); ("content", content);
                  ("author_id", author_id); ("author_name", author_name);
                  ("created_at", formatted_time)] in
         ret (VDict [("success", VBool true); ("data", post_detail)], 200)
     end)
    (fun e =>
       ret (VDict [("success", VBool false);
                   ("error", VStr (str_of_exn e))], 500)).

(** ** [health_check] (lines 382-383) *)

Definition health_check : M response :=
  ret (VDict [("status", VStr "ok"); ("message", VStr MSG_HEALTHY)], 200).

End App.

(* ================================================================== *)
(** * The static routes of [app.py]                                     *)
(* ================================================================== *)

Module Static.
Import Py.
Local Open Scope Z_scope.
Local Open Scope string_scope.



(** ** [serve_index] (lines 127-129) *)


(** ** [serve_static] (lines 131-135) *)


End Static.

(* ================================================================== *)
(** * Notions used to state the properties                              *)
(* ================================================================== *)

Module Notions.
Import Calendar TimeFormat Py Store Runtime App.
Local Open Scope Z_scope.
Local Open Scope string_scope.

(** ** Text *)

Definition starts_with (p s : string) : Prop :=
  exists r, s = String.append p r.

Definition ends_with (p s : string) : Prop :=
  exists r, s = String.append r p.

(** The shape [YYYY-MM-DD HH:MM:SS]. *)
Definition is_timestamp_text (s : string) : bool :=
  match s with
  | String y1 (String y2 (String y3 (String y4 (String "-"
    (String m1 (String m2 (String "-"
    (String d1 (String d2 (String " "
    (String H1 (String H2 (String ":"
    (String M1 (String M2 (String ":"
    (String S1 (String S2 EmptyString)))))))))))))))))) =>
      forallb is_digit [y1; y2; y3; y4; m1; m2; d1; d2; H1; H2; M1; M2; S1; S2]
  | _ => false
  end.

(** A byte followed by continuation bytes. *)
Fixpoint continues (t : string) : bool :=
  match t with
  | EmptyString => true
  | String b r => Text.is_continuation b && continues r
  end.

Definition encoded (c : string) : Prop :=
  exists b t, c = String b t /\ continues t = true.

(** The characters of a text: each is encoded, and all but the first
    begin with a byte that is not a continuation byte. *)
Definition well_cut (cs : list string) : Prop :=
  match cs with
  | [] => True
  | c :: r =>
      encoded c /\
      Forall (fun c => encoded c /\ Text.starts_inside c = false) r
  end.

(** A text of bytes below 128 has one character for each byte. *)
Definition ascii_byte (b : ascii) : bool :=
  match b with Ascii _ _ _ _ _ _ _ b7 => negb b7 end.

Fixpoint all_ascii (s : string) : bool :=
  match s with
  | EmptyString => true
  | String b r => ascii_byte b && all_ascii r
  end.

Fixpoint bytes (s : string) : list string :=
  match s with
  | EmptyString => []
  | String b r => String b EmptyString :: bytes r
  end.

(** The characters of a number of two digits, in front of [k]. *)
Definition two_digits (n : Z) (k : list string) : list string :=
  String (digit_char (n / 10)) EmptyString ::
  String (digit_char (n mod 10)) EmptyString :: k.

(** A datetime without its microseconds. *)
Definition whole_seconds (d : datetime) : datetime :=
  mkDatetime (year d) (month d) (day d) (hour d) (minute d) (second d) 0.

(** Lexicographic composition of comparisons. *)
Definition then_compare (c : comparison) (rest : comparison) : comparison :=
  match c with Eq => rest | _ => c end.

(** The comparison of two datetimes field by field, the year first. *)
Definition compare_fields (a b : datetime) : comparison :=
  then_compare (year a ?= year b)%Z
    (then_compare (month a ?= month b)%Z
       (then_compare (day a ?= day b)%Z
          (then_compare (hour a ?= hour b)%Z
             (then_compare (minute a ?= minute b)%Z
                (second a ?= second b)%Z)))).

(** The preferred success of a parser. *)
Definition first {A} (p : parser A) (s : list string)
  : option (A * list string) :=
  hd_error (p s).

(** A value on which the conversion of [format_created_at] raises. *)
Definition conversion_fails {L : Library} (v : value) : Prop :=
  (exists s, v = VStr s /\
     (strptime s = None \/
      exists d, strptime s = Some d /\ add_8_hours d = None)) \/
  (exists d, v = VDatetime d /\ add_8_hours d = None).

(** The year of a datetime is written with four digits. *)
Definition four_digit_year {L : Library} (d : datetime) : Prop :=
  year_padded = true \/ 1000 <= year d.

(** ** Connections *)

Definition is_placeholder (url : string) : bool :=
  startswith url "{{" && endswith url "}}".

(** The store [get_db_connection] tries last. *)
Definition reaches (env : Env) : backend :=
  match DATABASE_URL env with
  | Some url =>
      if negb (url =? "") && POSTGRES_AVAILABLE env && negb (is_placeholder url)
      then match connect_failure env url with
           | None => PostgreSQL
           | Some _ => SQLite
           end
      else SQLite
  | None => SQLite
  end.

(** Connecting to a store: the primary one is tried by
    [get_db_connection] only where it answers. *)
Definition connection_to {D : Driver} (b : backend) : M connection :=
  match b with
  | PostgreSQL => open_connection PostgreSQL
  | SQLite => sqlite3_connect
  end.

(** [get_db_connection] attempts the primary connection and gets
    it. *)
Definition primary_available (env : Env) : Prop :=
  exists url,
    DATABASE_URL env = Some url /\ url <> "" /\
    POSTGRES_AVAILABLE env = true /\
    ~ (starts_with "{{" url /\ ends_with "}}" url) /\
    connect_failure env url = None.

(** The statements are written in the dialect of the store reached. *)
Definition matched (env : Env) : Prop :=
  native_dialect (reaches env) = sql_dialect env.

(** [DATABASE_URL] is set and the connection is an embedded one. *)
Definition fell_back {D : Driver} (env : Env) (w : world) : Prop :=
  truthy (environ_DATABASE_URL env) = true /\
  exists conn w',
    get_db_connection env w = (Ok conn, w') /\ conn_backend conn = SQLite.

(** The connection opened from [w] is not open any more in [w']. *)
Definition closed_again (w w' : world) : Prop :=
  open_connections w' =
  filter (fun i => negb (Nat.eqb i (next_conn_id w))) (open_connections w).

Definition fresh_ids (w : world) : Prop :=
  Forall (fun i => (i < next_conn_id w)%nat) (open_connections w).

(** The world when the clock shows [now]. *)
Definition at_time (now : datetime) (w : world) : world :=
  mkWorld (sqlite_file w) (pg_server w) now (next_conn_id w)
          (open_connections w) (issued w).

(** ** Statements *)

Definition stmt_dialect (st : statement) : option dialect :=
  match st with
  | CreateUsers d | CreatePosts d => Some d
  | InsertPost d _ _ _ _ => Some d
  | SelectUserId d _ => Some d
  | InsertUser d _ _ _ => Some d
  | SelectPost d _ => Some d
  | CountUsers | SelectUsers | SelectPosts => None
  end.

(** The statements issued between [w] and [w']. *)
Definition since (w w' : world) : list (backend * statement) :=
  skipn (List.length (issued w)) (issued w').

Definition speaks (d : dialect) (e : backend * statement) : Prop :=
  forall d', stmt_dialect (snd e) = Some d' -> d' = d.

(** Whatever [m] issues satisfies [P]. *)
Definition emits {A} (P : backend * statement -> Prop) (m : M A) : Prop :=
  forall w, exists new,
    issued (snd (m w)) = (issued w ++ new)%list /\ Forall P new.

(** How a dialect gets at the id of the row an insertion made:
    [RETURNING id] and the first column of the row fetched, or the
    cursor's [lastrowid]. *)
Definition returning (d : dialect) : bool :=
  match d with Primary => true | Embedded => false end.

Definition generated_id (d : dialect) (cur : cursor) : result value :=
  match d with
  | Primary => getindex (fetchone cur) 0
  | Embedded => Ok (lastrowid cur)
  end.

(** The statements of each entry point in a dialect, in the order of
    the source. *)
Definition init_db_script (d : dialect) : list statement :=
  [CreateUsers d; CreatePosts d; CountUsers;
   InsertPost d false (VStr SEED_TITLE) (VStr SEED_CONTENT) (VInt 1)].

Definition register_script (d : dialect) (name password : value)
  : list statement :=
  [SelectUserId d name; InsertUser d (returning d) name password].

Definition create_post_script (d : dialect) (title content author_id : value)
  : list statement :=
  [InsertPost d (returning d) title content author_id].

Definition get_post_script (d : dialect) (post_id : Z) : list statement :=
  [SelectPost d (VInt post_id)].

(** [trace] is made of the first statements of [script], one after
    the other, all sent to [b]. *)
Definition begins (script : list statement) (b : backend)
           (trace : list (backend * statement)) : Prop :=
  exists n, trace = map (pair b) (firstn n script).

(** ** Rows and what is shown of them *)

(** A boolean order read as a relation. *)
Definition holds {A} (le : A -> A -> bool) (a b : A) : Prop := le a b = true.

Definition count_name (n : string) (db : database) : nat :=
  List.length (filter (fun u => user_name u =? n) (users db)).

Definition matching (i : Z) (db : database) : list (post * user) :=
  filter (fun pu => (post_id (fst pu) =? i)%Z) (join db).

Definition listed (b : backend) (db : database) : list (post * user) :=
  sort_by (created_desc b) (join db).

Definition newer_first (b : backend) (x y : post * user) : Prop :=
  stamp_leb b (post_created_at (fst y)) (post_created_at (fst x)) = true.

Definition preview (content : string) : string :=
  if (100 <? Text.length content)%nat
  then String.append (Text.take 100 content) "..."
  else content.

Definition rendered_item {L : Library} (pu : post * user) : value :=
  let (p, u) := pu in
  VDict [("id", VInt (post_id p)); ("title", VStr (post_title p));
         ("content_preview", VStr (preview (post_content p)));
         ("content", VStr (post_content p));
         ("author_id", VInt (post_author_id p));
         ("author_name", VStr (user_name u));
         ("created_at",
          format_created_at (value_of_stamp (post_created_at p)))].

Definition detail {L : Library} (pu : post * user) : value :=
  let (p, u) := pu in
  VDict [("id", VInt (post_id p)); ("title", VStr (post_title p));
         ("content", VStr (post_content p));
         ("author_id", VInt (post_author_id p));
         ("author_name", VStr (user_name u));
         ("created_at",
          format_created_at (value_of_stamp (post_created_at p)))].

(** [item] is the response item of the joined row [pu]. *)
Definition shown_as {L : Library} (pu : post * user) (item : value) : Prop :=
  getitem item "id" = Ok (VInt (post_id (fst pu))) /\
  getitem item "content" = Ok (VStr (post_content (fst pu))) /\
  getitem item "created_at" =
    Ok (format_created_at (value_of_stamp (post_created_at (fst pu)))).

Definition seed_post (i : Z) (b : backend) (now : datetime) : post :=
  mkPost i SEED_TITLE SEED_CONTENT 1 (current_timestamp b now).

(** ** Responses *)

Definition validation_failure : response :=
  (VDict [("success", VBool false); ("message", VStr MSG_FIELDS_REQUIRED)], 400).

Definition conflict_failure : response :=
  (VDict [("success", VBool false); ("message", VStr MSG_NAME_EXISTS)], 400).

Definition register_failure : response :=
  (VDict [("success", VBool false); ("message", VStr MSG_REGISTER_FAILED)], 500).

Definition registered (user_id : Z) : response :=
  (VDict [("success", VBool true); ("message", VStr MSG_REGISTERED);
          ("user_id", VInt user_id)], 201).

Definition post_failure : response :=
  (VDict [("success", VBool false); ("message", VStr MSG_POST_FAILED)], 500).

Definition not_found : response :=
  (VDict [("success", VBool false); ("message", VStr MSG_POST_NOT_FOUND)], 404).

Definition found {L : Library} (pu : post * user) : response :=
  (VDict [("success", VBool true); ("data", detail pu)], 200).

Definition raw_failure (e : exn) : response :=
  (VDict [("success", VBool false); ("error", VStr (str_of_exn e))], 500).

(** The entry of the user list for the row [u]. *)
Definition user_item (u : user) : value :=
  VDict [("id", VInt (user_id u)); ("name", VStr (user_name u));
         ("password", VStr (user_password u))].

Definition users_response (items : list value) : response :=
  (VDict [("success", VBool true); ("data", VList items)], 200).


Definition list_response (items : list value) : response :=
  (VDict [("success", VBool true); ("data", VList items);
          ("count", VInt (Z.of_nat (List.length items)))], 200).

End Notions.

(* ================================================================== *)
(** * Concrete configurations                                           *)
(* ================================================================== *)

Module Scenarios.
Import Calendar TimeFormat Py Store Runtime App Notions.
Local Open Scope Z_scope.
Local Open Scope string_scope.

(** The drivers of a host on which [database.db] can be opened, with
    the engines of [Store].  A statement that names no driver is about
    this one. *)
#[global] Instance store : Driver :=
  {| database_file_failure := None; engine := run |}.

(** The same engines where the file cannot be opened (a directory
    that cannot be written to, say). *)
Definition no_file : Driver :=
  {| database_file_failure := Some OperationalError; engine := run |}.

(** An engine that takes every statement and answers an insertion with
    one row holding 7 and with [lastrowid] 9: it shows which of the two
    a handler reads. *)
Definition probe : Driver :=
  {| database_file_failure := None;
     engine := fun _ _ st db =>
       match st with
       | InsertUser _ _ _ _ | InsertPost _ _ _ _ _ =>
           Ok (db, mkCursor [VList [VInt 7]] (VInt 9))
       | _ => Ok (db, no_rows)
       end |}.

(** U+3000 and U+00A0 in UTF-8. *)
Definition IDEOGRAPHIC_SPACE : string :=
  String (ascii_of_nat 227) (String (ascii_of_nat 128)
    (String (ascii_of_nat 128) EmptyString)).

Definition NO_BREAK_SPACE : string :=
  String (ascii_of_nat 194) (String (ascii_of_nat 160) EmptyString).

(** A library of Linux: the year is not padded.  Of the tables of
    Unicode it has the full-width digits and two blanks, the
    ideographic space and the no-break space.  A statement that names
    no library is about this one. *)
#[global] Instance linux : Library :=
  {| unicode_decimal := fun c =>
       if c =? "０" then Some 0 else if c =? "１" then Some 1
       else if c =? "２" then Some 2 else if c =? "３" then Some 3
       else if c =? "４" then Some 4 else if c =? "５" then Some 5
       else if c =? "６" then Some 6 else if c =? "７" then Some 7
       else if c =? "８" then Some 8 else if c =? "９" then Some 9
       else None;
     unicode_space := fun c =>
       (c =? IDEOGRAPHIC_SPACE) || (c =? NO_BREAK_SPACE);
     year_padded := false |}.

(** The same tables with a C library that pads the year. *)
Definition padding : Library :=
  {| unicode_decimal := @unicode_decimal linux;
     unicode_space := @unicode_space linux;
     year_padded := true |}.

(** No [DATABASE_URL]: the embedded store with its own dialect. *)
Definition env_embedded : Env := mkEnv None true (fun _ => None).

(** A descriptor the server accepts. *)
Definition env_primary : Env :=
  mkEnv (Some "postgresql://forum@db.internal/forum") true (fun _ => None).

(** A variable reference that was never resolved. *)
Definition env_placeholder : Env :=
  mkEnv (Some "{{DATABASE_URL}}") true (fun _ => None).

(** A descriptor whose server refuses the connection. *)
Definition env_unreachable : Env :=
  mkEnv (Some "postgresql://forum@db.internal/forum") true
        (fun _ => Some OperationalError).

Definition new_year : datetime := mkDatetime 2024 1 1 0 0 0 0.

Definition empty_db : database := mkDatabase [] [] 1 1.

Definition alice : user := mkUser 1 "alice" "secret".

Definition first_post : post :=
  mkPost 1 "hello" "first" 1 (StampText "2024-01-01 00:00:00").

Definition second_post : post :=
  mkPost 2 "again" "second" 1 (StampText "2024-01-02 09:30:00").

(** One user and two posts by that user. *)
Definition forum_db : database :=
  mkDatabase [alice] [first_post; second_post] 2 3.

Definition fresh_world : world :=
  mkWorld empty_db empty_db new_year 0 [] [].

Definition forum_world : world :=
  mkWorld forum_db empty_db new_year 0 [] [].

(** One user and no post, in either store. *)
Definition alice_db : database := mkDatabase [alice] [] 2 1.

Definition alice_world : world :=
  mkWorld alice_db alice_db new_year 0 [] [].

(** Two instants of one second, half a second apart, and the next
    second. *)
Definition noon : datetime := mkDatetime 2024 1 1 12 0 0 0.

Definition half_past : datetime := mkDatetime 2024 1 1 12 0 0 500000.

Definition second_past : datetime := mkDatetime 2024 1 1 12 0 1 0.

(** The seed post once a user has the id 1. *)
Definition welcome_db : database :=
  mkDatabase [alice] [seed_post 1 SQLite new_year] 2 2.

Definition welcome_world : world :=
  mkWorld welcome_db empty_db new_year 0 [] [].

(** A post whose stamp lies in the year 5. *)
Definition early_post : post :=
  mkPost 1 "hello" "first" 1 (StampText "0005-01-01 00:00:00").

Definition early_db : database := mkDatabase [alice] [early_post] 2 2.

Definition early_world : world :=
  mkWorld early_db empty_db new_year 0 [] [].

(** Two posts the primary store stamped half a second apart. *)
Definition noon_post : post := mkPost 1 "hello" "first" 1 (StampTime noon).

Definition half_past_post : post :=
  mkPost 2 "again" "second" 1 (StampTime half_past).

Definition primary_db : database :=
  mkDatabase [alice] [noon_post; half_past_post] 2 3.

Definition primary_world : world :=
  mkWorld empty_db primary_db new_year 0 [] [].

Definition alice_body : value :=
  VDict [("name", VStr "alice"); ("password", VStr "secret")].

Definition post_body : value :=
  VDict [("title", VStr "hello"); ("content", VStr "first");
         ("author_id", VInt 1)].

Definition reply_body : value :=
  VDict [("title", VStr "again"); ("content", VStr "second");
         ("author_id", VInt 1)].

(** Two posts made on the embedded store within one second. *)
Definition after_first_post : world :=
  snd (create_post env_embedded post_body (at_time noon alice_world)).

Definition after_second_post : world :=
  snd (create_post env_embedded reply_body
         (at_time half_past after_first_post)).

End Scenarios.

(* ================================================================== *)
(** * Facts about the calendar                                          *)
(* ================================================================== *)

Module CalendarFacts.
Import Calendar.
Local Open Scope Z_scope.

Ltac euclid := Z.to_euclidean_division_equations; lia.

Lemma in_range_iff lo hi x : in_range lo hi x = true <-> lo <= x <= hi.
Proof. unfold in_range. rewrite andb_true_iff, !Z.leb_le. tauto. Qed.

Lemma valid_iff d :
  valid d = true <->
  1 <= year d <= 9999 /\ 1 <= month d <= 12 /\
  1 <= day d <= days_in_month (year d) (month d) /\
  0 <= hour d <= 23 /\ 0 <= minute d <= 59 /\ 0 <= second d <= 59 /\
  0 <= microsecond d <= 999999.
Proof.
  unfold valid, MINYEAR, MAXYEAR.
  rewrite !andb_true_iff, !in_range_iff. tauto.
Qed.

Lemma month_cases m : 1 <= m <= 12 ->
  m = 1 \/ m = 2 \/ m = 3 \/ m = 4 \/ m = 5 \/ m = 6 \/
  m = 7 \/ m = 8 \/ m = 9 \/ m = 10 \/ m = 11 \/ m = 12.
Proof. lia. Qed.

Lemma days_before_year_succ y :
  days_before_year (y + 1) =
  days_before_year y + 365 + (if is_leap y then 1 else 0).
Proof.
  unfold days_before_year, is_leap.
  replace (y + 1 - 1) with y by lia.
  destruct (Z.eqb_spec (y mod 4) 0), (Z.eqb_spec (y mod 100) 0),
    (Z.eqb_spec (y mod 400) 0); cbn [negb andb orb]; euclid.
Qed.

Lemma days_before_month_succ y m : 1 <= m < 12 ->
  days_before_month y (m + 1) = days_before_month y m + days_in_month y m.
Proof.
  intros Hm.
  assert (C : 1 <= m <= 12) by lia.
  apply month_cases in C.
  unfold days_before_month, days_in_month.
  destruct (is_leap y);
    repeat (destruct C as [C | C]; [subst m; reflexivity |]);
    subst m; lia.
Qed.

Lemma days_in_month_bounds y m :
  1 <= m <= 12 -> 28 <= days_in_month y m <= 31.
Proof.
  intros C. apply month_cases in C. unfold days_in_month.
  destruct (is_leap y);
    repeat (destruct C as [C | C]; [subst m; lia |]); subst m; lia.
Qed.

(** The day after a valid date is the next ordinal. *)
Lemma next_day_ordinal d n :
  valid d = true -> next_day d = Some n ->
  toordinal n = toordinal d + 1 /\ valid n = true.
Proof.
  intros V. apply valid_iff in V.
  destruct V as (Hy & Hm & Hd & Hh & Hmi & Hs & Hus).
  unfold next_day, MAXYEAR.
  destruct (Z.ltb_spec (day d) (days_in_month (year d) (month d))) as [L | L].
  - intros E; inversion E; subst n; clear E.
    split; [unfold toordinal; cbn; lia|].
    apply valid_iff; cbn. lia.
  - destruct (Z.ltb_spec (month d) 12) as [L2 | L2].
    + intros E; inversion E; subst n; clear E.
      split.
      * unfold toordinal; cbn. rewrite days_before_month_succ by lia. lia.
      * apply valid_iff; cbn.
        pose proof (days_in_month_bounds (year d) (month d + 1)). lia.
    + destruct (Z.ltb_spec (year d) 9999) as [L3 | L3]; [|discriminate].
      intros E; inversion E; subst n; clear E.
      assert (M12 : month d = 12) by lia.
      split.
      * unfold toordinal; cbn. rewrite days_before_year_succ.
        rewrite M12 in *. unfold days_before_month, days_in_month in *.
        cbn in *. destruct (is_leap (year d)); cbn; lia.
      * apply valid_iff; cbn. lia.
Qed.

(** Adding eight hours moves a valid datetime by 28800 seconds. *)
Lemma add_8_hours_seconds d d' :
  valid d = true -> add_8_hours d = Some d' ->
  total_seconds d' = total_seconds d + 8 * 3600 /\ valid d' = true /\
  microsecond d' = microsecond d.
Proof.
  intros V. pose proof V as V'. apply valid_iff in V.
  destruct V as (Hy & Hm & Hd & Hh & Hmi & Hs & Hus).
  unfold add_8_hours.
  destruct (Z.ltb_spec (hour d + 8) 24) as [L | L].
  - intros E; inversion E; subst d'; clear E.
    split; [unfold total_seconds, toordinal; cbn; lia|].
    split; [|reflexivity]. apply valid_iff; cbn. lia.
  - destruct (next_day d) as [n|] eqn:N; [|discriminate].
    intros E; inversion E; subst d'; clear E.
    destruct (next_day_ordinal d n V' N) as (O & Vn).
    apply valid_iff in Vn.
    split.
    + unfold total_seconds in *. unfold toordinal in *. cbn. lia.
    + split; [|reflexivity]. apply valid_iff; cbn. lia.
Qed.

(** It overflows in the last eight hours of the year 9999 only. *)
Lemma add_8_hours_overflow d :
  valid d = true ->
  (add_8_hours d = None <->
   year d = 9999 /\ month d = 12 /\ day d = 31 /\ 16 <= hour d).
Proof.
  intros V. apply valid_iff in V.
  destruct V as (Hy & Hm & Hd & Hh & Hmi & Hs & Hus).
  pose proof (days_in_month_bounds (year d) (month d) Hm) as B.
  assert (D12 : month d = 12 -> days_in_month (year d) (month d) = 31)
    by (intros ->; reflexivity).
  unfold add_8_hours, next_day, MAXYEAR.
  destruct (Z.ltb_spec (hour d + 8) 24);
    [split; [discriminate|lia]|].
  destruct (Z.ltb_spec (day d) (days_in_month (year d) (month d)));
    [split; [discriminate|lia]|].
  destruct (Z.ltb_spec (month d) 12); [split; [discriminate|lia]|].
  destruct (Z.ltb_spec (year d) 9999); [split; [discriminate|lia]|].
  split; [lia|reflexivity].
Qed.

End CalendarFacts.

(* ================================================================== *)
(** * Facts about text and ordering                                     *)
(* ================================================================== *)

Module TextFacts.
Import Py Notions.
Local Open Scope nat_scope.

Lemma prefix_append p r : prefix p (String.append p r) = true.
Proof.
  induction p as [|c p IH]; cbn; [destruct r; reflexivity|].
  destruct (ascii_dec c c); [exact IH|congruence].
Qed.

Lemma prefix_inv p : forall s,
  prefix p s = true -> exists r, s = String.append p r.
Proof.
  induction p as [|c p IH]; intros s H; cbn in *.
  - exists s. reflexivity.
  - destruct s as [|c' s]; cbn in H; [discriminate|].
    destruct (ascii_dec c c'); [|discriminate]. subst c'.
    destruct (IH s H) as [r ->]. exists r. reflexivity.
Qed.

Lemma startswith_iff s p : startswith s p = true <-> starts_with p s.
Proof.
  unfold startswith, starts_with. split.
  - apply prefix_inv.
  - intros [r ->]. apply prefix_append.
Qed.

Lemma length_append a b :
  String.length (String.append a b) = String.length a + String.length b.
Proof. induction a; cbn; congruence. Qed.

Lemma substring_append_tail a : forall b,
  substring (String.length a) (String.length b) (String.append a b) = b.
Proof.
  induction a as [|c a IH]; intros b; cbn.
  - induction b as [|c b IHb]; cbn; [reflexivity|]. f_equal. exact IHb.
  - apply IH.
Qed.

Lemma substring_split n : forall s,
  n <= String.length s ->
  exists r, String.length r = n /\
            s = String.append r (substring n (String.length s - n) s).
Proof.
  induction n as [|n IH]; intros s H.
  - exists EmptyString. split; [reflexivity|]. cbn. rewrite Nat.sub_0_r.
    clear H. induction s as [|c s IHs]; cbn; [reflexivity|].
    f_equal. exact IHs.
  - destruct s as [|c s]; cbn in H; [lia|].
    destruct (IH s) as (r & L & E); [lia|].
    exists (String c r). split; [cbn; congruence|].
    cbn. f_equal. exact E.
Qed.

Lemma endswith_iff s p : endswith s p = true <-> ends_with p s.
Proof.
  unfold endswith, ends_with.
  rewrite andb_true_iff, Nat.leb_le, String.eqb_eq.
  split.
  - intros [L E].
    destruct (substring_split (String.length s - String.length p) s)
      as (r & Lr & Es); [lia|].
    exists r.
    replace (String.length s - (String.length s - String.length p))
      with (String.length p) in Es by lia.
    rewrite E in Es. exact Es.
  - intros [r ->]. rewrite length_append. split; [lia|].
    replace (String.length r + String.length p - String.length p)
      with (String.length r) by lia.
    apply substring_append_tail.
Qed.

(** The first [n] characters of a text that has as many. *)
Lemma substring_prefix n : forall s,
  n <= String.length s ->
  String.length (substring 0 n s) = n /\
  exists tail, s = String.append (substring 0 n s) tail.
Proof.
  induction n as [|n IH]; intros s H.
  - destruct s; cbn; (split; [reflexivity|]); eexists; reflexivity.
  - destruct s as [|c s]; cbn in H; [lia|].
    destruct (IH s) as (L & tail & E); [lia|].
    cbn. split; [congruence|]. exists tail. congruence.
Qed.

(** ** The byte order of texts is a total preorder *)

Lemma ascii_compare_lt_trans a b c :
  Ascii.compare a b = Lt -> Ascii.compare b c = Lt -> Ascii.compare a c = Lt.
Proof.
  unfold Ascii.compare. rewrite !N.compare_lt_iff. lia.
Qed.

Lemma string_compare_refl s : String.compare s s = Eq.
Proof.
  induction s as [|a s IH]; cbn; [reflexivity|].
  unfold Ascii.compare. rewrite N.compare_refl. exact IH.
Qed.

Lemma string_compare_lt_trans s1 : forall s2 s3,
  String.compare s1 s2 = Lt -> String.compare s2 s3 = Lt ->
  String.compare s1 s3 = Lt.
Proof.
  induction s1 as [|a s1 IH]; intros [|b s2] [|c s3]; cbn; try congruence.
  destruct (Ascii.compare a b) eqn:AB; try discriminate.
  - apply Ascii.compare_eq_iff in AB. subst b.
    destruct (Ascii.compare a c) eqn:AC; try congruence. apply IH.
  - destruct (Ascii.compare b c) eqn:BC; try discriminate.
    + apply Ascii.compare_eq_iff in BC. subst c. rewrite AB. reflexivity.
    + rewrite (ascii_compare_lt_trans a b c AB BC). reflexivity.
Qed.

Lemma string_leb_trans s1 s2 s3 :
  String.leb s1 s2 = true -> String.leb s2 s3 = true ->
  String.leb s1 s3 = true.
Proof.
  unfold String.leb.
  destruct (String.compare s1 s2) eqn:E12; try discriminate;
    destruct (String.compare s2 s3) eqn:E23; try discriminate; intros _ _.
  - apply String.compare_eq_iff in E12, E23. subst.
    rewrite string_compare_refl. reflexivity.
  - apply String.compare_eq_iff in E12. subst. rewrite E23. reflexivity.
  - apply String.compare_eq_iff in E23. subst. rewrite E12. reflexivity.
  - rewrite (string_compare_lt_trans _ _ _ E12 E23). reflexivity.
Qed.

(** ** Characters *)

Lemma append_nil s : String.append s EmptyString = s.
Proof. induction s as [|c s IH]; cbn; congruence. Qed.

Lemma append_assoc a b c :
  String.append (String.append a b) c = String.append a (String.append b c).
Proof. induction a as [|x a IH]; cbn; congruence. Qed.

(** The first character begins with the first byte. *)
Lemma characters_head b r :
  exists t cs, Text.characters (String b r) = String b t :: cs.
Proof.
  cbn. destruct (Text.characters r) as [|c cs]; [eauto|].
  destruct (Text.starts_inside r); eauto.
Qed.

Lemma characters_nil s : Text.characters s = [] -> s = EmptyString.
Proof.
  destruct s as [|b r]; [reflexivity|].
  destruct (characters_head b r) as (t & cs & E). congruence.
Qed.

Lemma flatten_characters s : Text.flatten (Text.characters s) = s.
Proof.
  induction s as [|b r IH]; [reflexivity|]. cbn.
  destruct (Text.characters r) as [|c cs] eqn:E.
  - apply characters_nil in E. subst r. reflexivity.
  - destruct (Text.starts_inside r); cbn in *; congruence.
Qed.

Lemma flatten_app a b :
  Text.flatten (a ++ b) = String.append (Text.flatten a) (Text.flatten b).
Proof.
  induction a as [|c a IH]; cbn; [reflexivity|].
  rewrite IH, append_assoc. reflexivity.
Qed.

(** A text is its first [n] characters followed by the others. *)
Lemma take_split n s :
  s = String.append (Text.take n s)
        (Text.flatten (skipn n (Text.characters s))).
Proof.
  unfold Text.take. rewrite <- flatten_app, firstn_skipn.
  symmetry. apply flatten_characters.
Qed.

Lemma characters_well_cut s : well_cut (Text.characters s).
Proof.
  induction s as [|b r IH]; [exact I|].
  cbn [Text.characters].
  destruct (Text.characters r) as [|c cs] eqn:E.
  - split; [exists b, EmptyString; auto|constructor].
  - destruct IH as [Hc Hcs].
    assert (H : exists t, c = String (match r with
                                     | String x _ => x
                                     | EmptyString => b
                                     end) t).
    { destruct r as [|x r']; [discriminate|].
      destruct (characters_head x r') as (t & cs' & E'). rewrite E' in E.
      inversion E. eauto. }
    destruct (Text.starts_inside r) eqn:S.
    + split; [|exact Hcs]. destruct Hc as (b1 & t1 & -> & C).
      exists b, (String b1 t1). split; [reflexivity|]. cbn.
      destruct r as [|x r']; [discriminate|].
      destruct H as [t H]. inversion H; subst. cbn in S. rewrite S. exact C.
    + split; [exists b, EmptyString; auto|].
      constructor; [|exact Hcs]. split; [exact Hc|].
      destruct r as [|x r']; [discriminate|].
      destruct H as [t ->]. exact S.
Qed.

Lemma characters_step b r :
  Text.characters (String b r) =
  match Text.characters r with
  | c :: cs =>
      if Text.starts_inside r then String b c :: cs
      else String b EmptyString :: c :: cs
  | [] => [String b EmptyString]
  end.
Proof. reflexivity. Qed.

Lemma characters_encoded b t x :
  continues t = true -> Text.starts_inside x = false ->
  Text.characters (String b (String.append t x)) =
  String b t :: Text.characters x.
Proof.
  revert b. induction t as [|b' t IH]; intros b C S.
  - cbn. rewrite S. destruct (Text.characters x); reflexivity.
  - cbn in C. apply andb_true_iff in C. destruct C as [C1 C2].
    cbn [String.append]. rewrite characters_step, (IH b' C2 S).
    cbn [Text.starts_inside]. rewrite C1. reflexivity.
Qed.

Lemma characters_flatten cs :
  well_cut cs -> Text.characters (Text.flatten cs) = cs.
Proof.
  assert (T : forall r,
             Forall (fun c => encoded c /\ Text.starts_inside c = false) r ->
             Text.starts_inside (Text.flatten r) = false /\
             Text.characters (Text.flatten r) = r).
  { induction r as [|c r IH]; intros F; [auto|].
    inversion F as [|? ? [(b & t & -> & C) S] F']; subst.
    destruct (IH F') as [S' E']. cbn [Text.flatten]. split; [exact S|].
    cbn [String.append]. rewrite characters_encoded by assumption.
    rewrite E'. reflexivity. }
  destruct cs as [|c r]; [reflexivity|]. intros [(b & t & -> & C) F].
  destruct (T r F) as [S E]. cbn [Text.flatten String.append].
  rewrite characters_encoded by assumption. rewrite E. reflexivity.
Qed.

Lemma well_cut_firstn n cs : well_cut cs -> well_cut (firstn n cs).
Proof.
  destruct cs as [|c r]; [destruct n; auto|].
  destruct n as [|n]; [intros; exact I|]. intros [E F]. cbn. split; [exact E|].
  clear E. revert n. induction F as [|x l H F IH]; intros [|n]; cbn;
    constructor; auto.
Qed.

(** The first [n] characters of a text are a text of those
    characters. *)
Lemma characters_take n s :
  Text.characters (Text.take n s) = firstn n (Text.characters s).
Proof.
  apply characters_flatten, well_cut_firstn, characters_well_cut.
Qed.

Lemma length_take n s :
  n <= Text.length s -> Text.length (Text.take n s) = n.
Proof.
  unfold Text.length. intros H. rewrite characters_take.
  apply firstn_length_le, H.
Qed.

Lemma characters_ascii b r :
  Text.starts_inside r = false ->
  Text.characters (String b r) = String b EmptyString :: Text.characters r.
Proof.
  intros S. cbn. rewrite S. destruct (Text.characters r); reflexivity.
Qed.

End TextFacts.

(* ================================================================== *)
(** * Facts about the time format                                       *)
(* ================================================================== *)

Module TimeFormatFacts.
Import Calendar TimeFormat Notions CalendarFacts TextFacts.
Local Open Scope Z_scope.

Lemma digit_cases k : 0 <= k <= 9 ->
  k = 0 \/ k = 1 \/ k = 2 \/ k = 3 \/ k = 4 \/ k = 5 \/ k = 6 \/ k = 7 \/
  k = 8 \/ k = 9.
Proof. lia. Qed.

Ltac each_digit k H :=
  apply digit_cases in H;
  repeat (destruct H as [H | H]; [subst k | ]); [ .. | subst k].

Lemma digit_char_is_digit k : 0 <= k <= 9 -> is_digit (digit_char k) = true.
Proof. intros H. each_digit k H; reflexivity. Qed.

Lemma digit_char_value k : 0 <= k <= 9 -> digit_value (digit_char k) = k.
Proof. intros H. each_digit k H; reflexivity. Qed.

Lemma digit_char_ascii k : 0 <= k <= 9 -> ascii_byte (digit_char k) = true.
Proof. intros H. each_digit k H; reflexivity. Qed.

Lemma digit_char_is_ascii k : 0 <= k <= 9 ->
  Text.is_ascii (String (digit_char k) EmptyString) = true.
Proof. intros H. each_digit k H; reflexivity. Qed.

Lemma digit_char_not_space k : 0 <= k <= 9 ->
  ascii_space (digit_char k) = false.
Proof. intros H. each_digit k H; reflexivity. Qed.

(** ** The characters of a text of ASCII *)

Lemma ascii_not_continuation b :
  ascii_byte b = true -> Text.is_continuation b = false.
Proof. destruct b as [? ? ? ? ? ? ? []]; [discriminate|reflexivity]. Qed.

Lemma characters_bytes s :
  all_ascii s = true -> Text.characters s = bytes s.
Proof.
  induction s as [|b r IH]; [reflexivity|]. cbn [all_ascii bytes].
  intros H. apply andb_true_iff in H. destruct H as [_ H].
  rewrite characters_ascii, (IH H); [reflexivity|].
  destruct r as [|b' r']; [reflexivity|]. cbn in H |- *.
  apply andb_true_iff in H. apply ascii_not_continuation, H.
Qed.

Lemma all_ascii_pad2 n k : 0 <= n <= 99 ->
  all_ascii (pad2 n k) = all_ascii k.
Proof.
  intros H. unfold pad2. cbn [all_ascii].
  rewrite !digit_char_ascii by euclid. reflexivity.
Qed.

Lemma all_ascii_pad4 n k : 0 <= n <= 9999 ->
  all_ascii (pad4 n k) = all_ascii k.
Proof.
  intros H. unfold pad4. cbn [all_ascii].
  assert (0 <= n / 1000 <= 9) by euclid.
  rewrite !digit_char_ascii by euclid. reflexivity.
Qed.

Lemma bytes_pad2 n k : bytes (pad2 n k) = two_digits n (bytes k).
Proof. reflexivity. Qed.

Lemma pad4_pad2 y k : pad4 y k = pad2 (y / 100) (pad2 (y mod 100) k).
Proof.
  unfold pad4, pad2.
  assert (E1 : y / 1000 = y / 100 / 10)
    by (rewrite Z.div_div by lia; reflexivity).
  assert (E2 : y / 10 mod 10 = y mod 100 / 10) by euclid.
  assert (E3 : y mod 10 = y mod 100 mod 10) by euclid.
  assert (E4 : y / 100 mod 10 = y / 100 mod 10) by reflexivity.
  rewrite E1, E2, <- E3. reflexivity.
Qed.

Section Parsing.
Context {L : Library}.

Lemma decimal_digit_char k : 0 <= k <= 9 ->
  decimal (String (digit_char k) EmptyString) = Some k.
Proof.
  intros H. unfold decimal, ascii_decimal.
  rewrite digit_char_is_ascii, digit_char_is_digit, digit_char_value
    by assumption.
  reflexivity.
Qed.

Lemma range_digit_char lo hi k r : 0 <= k <= 9 ->
  range lo hi (String (digit_char k) EmptyString :: r) =
  if in_range lo hi k then [(k, r)] else [].
Proof.
  intros H. unfold range, ascii_decimal.
  rewrite digit_char_is_digit, digit_char_value by assumption. reflexivity.
Qed.

Lemma digit_digit_char k r : 0 <= k <= 9 ->
  digit (String (digit_char k) EmptyString :: r) = [(k, r)].
Proof.
  intros H. unfold digit. rewrite decimal_digit_char by assumption.
  reflexivity.
Qed.

Lemma two_ranges a b c d n r : 0 <= n <= 99 ->
  two (range a b) (range c d) (two_digits n r) =
  if in_range a b (n / 10) && in_range c d (n mod 10) then [(n, r)] else [].
Proof.
  intros H. unfold two, bind, two_digits.
  rewrite range_digit_char by euclid.
  destruct (in_range a b (n / 10)); cbn [flat_map andb]; [|reflexivity].
  rewrite range_digit_char by euclid.
  destruct (in_range c d (n mod 10)); cbn [flat_map app]; [|reflexivity].
  unfold pure. cbn [app]. do 2 f_equal. euclid.
Qed.

Lemma two_range_digit a b n r : 0 <= n <= 99 ->
  two (range a b) digit (two_digits n r) =
  if in_range a b (n / 10) then [(n, r)] else [].
Proof.
  intros H. unfold two, bind, two_digits.
  rewrite range_digit_char by euclid.
  destruct (in_range a b (n / 10)); cbn [flat_map andb]; [|reflexivity].
  rewrite digit_digit_char by euclid.
  cbn [flat_map app]. unfold pure. cbn [app]. do 2 f_equal. euclid.
Qed.

(** ** The preferred match of a composed parser *)

Lemma first_pure {A} (a : A) s : first (pure a) s = Some (a, s).
Proof. reflexivity. Qed.

Lemma first_bind {A B} (p : parser A) (f : A -> parser B) s a r x :
  first p s = Some (a, r) -> first (f a) r = Some x ->
  first (bind p f) s = Some x.
Proof.
  unfold first, bind. destruct (p s) as [|[a' r'] tl]; [discriminate|].
  cbn. intros E; inversion E; subst. destruct (f a r); [discriminate|].
  cbn. auto.
Qed.

Lemma first_orelse_l {A} (p q : parser A) s x :
  first p s = Some x -> first (orelse p q) s = Some x.
Proof.
  unfold first, orelse. destruct (p s); [discriminate|]. cbn. auto.
Qed.

Lemma first_orelse_r {A} (p q : parser A) s :
  p s = [] -> first (orelse p q) s = first q s.
Proof. unfold first, orelse. intros ->. reflexivity. Qed.

Lemma first_two_ranges a b c d n r : 0 <= n <= 99 ->
  a <= n / 10 <= b -> c <= n mod 10 <= d ->
  first (two (range a b) (range c d)) (two_digits n r) = Some (n, r).
Proof.
  intros H H1 H2. unfold first. rewrite two_ranges by assumption.
  apply in_range_iff in H1, H2. rewrite H1, H2. reflexivity.
Qed.

Lemma first_two_digit a b n r : 0 <= n <= 99 -> a <= n / 10 <= b ->
  first (two (range a b) digit) (two_digits n r) = Some (n, r).
Proof.
  intros H H1. unfold first. rewrite two_range_digit by assumption.
  apply in_range_iff in H1. rewrite H1. reflexivity.
Qed.

Lemma two_fails a b q n r : 0 <= n <= 99 ->
  ~ (a <= n / 10 <= b) -> two (range a b) q (two_digits n r) = [].
Proof.
  intros H H1. unfold two, bind, two_digits.
  rewrite range_digit_char by euclid.
  destruct (in_range a b (n / 10)) eqn:E; [|reflexivity].
  apply in_range_iff in E. contradiction.
Qed.

Lemma first_p_Y y r : 0 <= y <= 9999 ->
  first p_Y (two_digits (y / 100) (two_digits (y mod 100) r)) = Some (y, r).
Proof.
  intros H.
  assert (Ha : 0 <= y / 100 <= 99) by euclid.
  assert (Hb : 0 <= y mod 100 <= 99) by euclid.
  assert (E : y = 100 * (y / 100) + y mod 100) by euclid.
  revert Ha Hb E. generalize (y / 100) (y mod 100). intros a b Ha Hb E.
  unfold first, p_Y, bind, two_digits.
  rewrite digit_digit_char by euclid. cbn [flat_map app].
  rewrite digit_digit_char by euclid. cbn [flat_map app].
  rewrite digit_digit_char by euclid. cbn [flat_map app].
  rewrite digit_digit_char by euclid. cbn [flat_map app].
  unfold pure. cbn [hd_error app]. do 2 f_equal. euclid.
Qed.

Lemma first_p_m n r : 1 <= n <= 12 ->
  first p_m (two_digits n r) = Some (n, r).
Proof.
  intros H. unfold p_m.
  destruct (Z.eq_dec (n / 10) 1) as [E | E].
  - apply first_orelse_l, first_two_ranges; euclid.
  - rewrite first_orelse_r by (apply two_fails; euclid).
    apply first_orelse_l, first_two_ranges; euclid.
Qed.

Lemma first_p_d n r : 1 <= n <= 31 ->
  first p_d (two_digits n r) = Some (n, r).
Proof.
  intros H. unfold p_d.
  destruct (Z.eq_dec (n / 10) 3) as [E | E].
  - apply first_orelse_l, first_two_ranges; euclid.
  - rewrite first_orelse_r by (apply two_fails; euclid).
    destruct (Z.eq_dec (n / 10) 0) as [E0 | E0].
    + rewrite first_orelse_r by (apply two_fails; euclid).
      apply first_orelse_l, first_two_ranges; euclid.
    + apply first_orelse_l, first_two_digit; euclid.
Qed.

Lemma first_p_H n r : 0 <= n <= 23 ->
  first p_H (two_digits n r) = Some (n, r).
Proof.
  intros H. unfold p_H.
  destruct (Z.eq_dec (n / 10) 2) as [E | E].
  - apply first_orelse_l, first_two_ranges; euclid.
  - rewrite first_orelse_r by (apply two_fails; euclid).
    apply first_orelse_l, first_two_digit; euclid.
Qed.

Lemma first_p_M n r : 0 <= n <= 59 ->
  first p_M (two_digits n r) = Some (n, r).
Proof.
  intros H. unfold p_M. apply first_orelse_l, first_two_digit; euclid.
Qed.

Lemma first_p_S n r : 0 <= n <= 59 ->
  first p_S (two_digits n r) = Some (n, r).
Proof.
  intros H. unfold p_S.
  rewrite first_orelse_r by (apply two_fails; euclid).
  apply first_orelse_l, first_two_digit; euclid.
Qed.

Lemma first_lit b r :
  first (lit b) (String b EmptyString :: r) = Some (tt, r).
Proof. unfold first, lit. rewrite String.eqb_refl. reflexivity. Qed.

Lemma first_spaces n r : 0 <= n <= 99 ->
  first spaces_plus (String " " EmptyString :: two_digits n r) =
  Some (tt, two_digits n r).
Proof.
  intros H. unfold first, spaces_plus.
  change (is_space (String " " EmptyString)) with true. cbn iota.
  unfold two_digits. cbn [spaces_star]. unfold is_space.
  rewrite digit_char_is_ascii, digit_char_not_space by euclid. reflexivity.
Qed.

(** ** Printing then parsing *)

Lemma all_ascii_timestamp_text d :
  valid d = true -> all_ascii (timestamp_text d) = true.
Proof.
  intros V. apply valid_iff in V.
  destruct V as (Hy & Hm & Hd & Hh & Hmi & Hs & Hus).
  pose proof (days_in_month_bounds (year d) (month d) Hm) as Hdim.
  unfold timestamp_text, after_year.
  rewrite all_ascii_pad4 by lia. cbn [all_ascii ascii_byte negb andb].
  rewrite all_ascii_pad2 by lia. cbn [all_ascii ascii_byte negb andb].
  rewrite all_ascii_pad2 by lia. cbn [all_ascii ascii_byte negb andb].
  rewrite all_ascii_pad2 by lia. cbn [all_ascii ascii_byte negb andb].
  rewrite all_ascii_pad2 by lia. cbn [all_ascii ascii_byte negb andb].
  rewrite all_ascii_pad2 by lia. reflexivity.
Qed.

(** Every text [YYYY-MM-DD HH:MM:SS] of a datetime parses, to that
    datetime without its microseconds, whatever the tables of
    Unicode. *)
Lemma strptime_timestamp_text d :
  valid d = true -> strptime (timestamp_text d) = Some (whole_seconds d).
Proof.
  intros V. pose proof (all_ascii_timestamp_text d V) as A.
  apply valid_iff in V.
  destruct V as (Hy & Hm & Hd & Hh & Hmi & Hs & Hus).
  pose proof (days_in_month_bounds (year d) (month d) Hm) as Hdim.
  unfold strptime. rewrite (characters_bytes _ A).
  assert (F : first p_format (bytes (timestamp_text d)) =
              Some (whole_seconds d, [])).
  { unfold p_format, timestamp_text, after_year. rewrite pad4_pad2.
    cbn [bytes]. rewrite !bytes_pad2. cbn [bytes].
    repeat first
      [ apply first_pure
      | eapply first_bind;
        [ first [ apply first_p_Y; lia
                | apply first_lit
                | apply first_p_m; lia
                | apply first_p_d; lia
                | apply first_spaces; lia
                | apply first_p_H; lia
                | apply first_p_M; lia
                | apply first_p_S; lia ] | ] ]. }
  unfold first in F.
  destruct (p_format (bytes (timestamp_text d))) as [|[d0 r0] tl];
    [discriminate|].
  cbn in F. inversion F; subst.
  replace (valid (whole_seconds d)) with true; [reflexivity|].
  symmetry. apply valid_iff. cbn. lia.
Qed.

Lemma strptime_valid s d : strptime s = Some d -> valid d = true.
Proof.
  unfold strptime.
  destruct (p_format (Text.characters s)) as [|[d0 [|c r]] tl];
    try discriminate.
  destruct (valid d0) eqn:V; [|discriminate].
  intros E; inversion E; subst. exact V.
Qed.

Lemma strptime_nonempty s d : strptime s = Some d -> s <> EmptyString.
Proof. destruct s; [discriminate|congruence]. Qed.

(** With a year of four digits [strftime] writes the text
    [YYYY-MM-DD HH:MM:SS]. *)
Lemma strftime_timestamp_text d :
  four_digit_year d -> strftime d = timestamp_text d.
Proof.
  unfold four_digit_year, strftime, year_field, timestamp_text.
  intros [-> | H]; [rewrite orb_true_r; reflexivity|].
  apply Z.leb_le in H. rewrite H. reflexivity.
Qed.

End Parsing.

Lemma timestamp_text_shape d :
  valid d = true -> is_timestamp_text (timestamp_text d) = true.
Proof.
  intros V. apply valid_iff in V.
  destruct V as (Hy & Hm & Hd & Hh & Hmi & Hs & Hus).
  pose proof (days_in_month_bounds (year d) (month d) Hm).
  unfold timestamp_text, after_year, pad4, pad2, is_timestamp_text.
  cbn [forallb].
  assert (0 <= year d / 1000 <= 9) by euclid.
  rewrite !digit_char_is_digit; try reflexivity; try euclid.
Qed.

(** Below the year 1000 a library that does not pad writes a shorter
    text. *)
Lemma strftime_short_year {L : Library} d :
  valid d = true -> year_padded = false -> year d < 1000 ->
  (String.length (strftime d) < 19)%nat.
Proof.
  intros V P Y. apply valid_iff in V.
  unfold strftime, year_field. rewrite P.
  destruct (Z.leb_spec 1000 (year d)); [lia|]. cbn [orb].
  destruct (100 <=? year d); [cbn; lia|].
  destruct (10 <=? year d); cbn; lia.
Qed.

End TimeFormatFacts.

(* ================================================================== *)
(** * Facts about the store                                             *)
(* ================================================================== *)

Module StoreFacts.
Import Calendar Py Store Notions TextFacts.
Local Open Scope Z_scope.

Lemma stamp_leb_total b x y :
  stamp_leb b x y = true \/ stamp_leb b y x = true.
Proof.
  destruct b, x, y; cbn; auto using String.leb_total;
    rewrite !Z.leb_le; lia.
Qed.

Lemma stamp_leb_trans b x y z :
  stamp_leb b x y = true -> stamp_leb b y z = true -> stamp_leb b x z = true.
Proof.
  destruct b, x, y, z; cbn; try congruence; auto;
    try apply string_leb_trans; rewrite !Z.leb_le; lia.
Qed.

Lemma created_desc_total b x y :
  created_desc b x y = true \/ created_desc b y x = true.
Proof. unfold created_desc. apply stamp_leb_total. Qed.

Lemma created_desc_trans b x y z :
  created_desc b x y = true -> created_desc b y z = true ->
  created_desc b x z = true.
Proof.
  unfold created_desc. intros H1 H2. eapply stamp_leb_trans; eassumption.
Qed.

(** ** Insertion sort *)

Section Sorting.
Context {A : Type} (le : A -> A -> bool).
Hypothesis le_total : forall a b, le a b = true \/ le b a = true.
Hypothesis le_trans :
  forall a b c, le a b = true -> le b c = true -> le a c = true.

Lemma insert_by_perm x l : Permutation (insert_by le x l) (x :: l).
Proof.
  induction l as [|y l IH]; cbn; [reflexivity|].
  destruct (le x y); [reflexivity|].
  rewrite IH. apply perm_swap.
Qed.

Lemma sort_by_perm l : Permutation (sort_by le l) l.
Proof.
  induction l as [|x l IH]; cbn; [reflexivity|].
  rewrite insert_by_perm. constructor. exact IH.
Qed.

Lemma insert_by_sorted x l :
  StronglySorted (holds le) l -> StronglySorted (holds le) (insert_by le x l).
Proof.
  induction 1 as [|y l S IH F]; cbn.
  - repeat constructor.
  - destruct (le x y) eqn:E.
    + constructor; [constructor; assumption|].
      constructor; [exact E|].
      eapply Forall_impl; [|exact F].
      intros z Hz. eapply le_trans; eassumption.
    + constructor; [exact IH|].
      assert (Ryx : le y x = true)
        by (destruct (le_total x y); [congruence|assumption]).
      eapply Permutation_Forall; [symmetry; apply insert_by_perm|].
      constructor; assumption.
Qed.

Lemma sort_by_sorted l : StronglySorted (holds le) (sort_by le l).
Proof.
  induction l as [|x l IH]; cbn; [constructor|].
  apply insert_by_sorted, IH.
Qed.

Lemma sorted_positions l : StronglySorted (holds le) l ->
  forall i j a b, nth_error l i = Some a -> nth_error l j = Some b ->
    (i < j)%nat -> le a b = true.
Proof.
  induction 1 as [|x l S IH F]; intros i j a b Hi Hj Lt.
  - destruct i; discriminate.
  - destruct j as [|j]; [lia|]. cbn in Hj.
    destruct i as [|i]; cbn in Hi.
    + inversion Hi; subst. rewrite Forall_forall in F.
      apply F. eapply nth_error_In; eassumption.
    + eapply IH; eauto. lia.
Qed.
End Sorting.

Lemma listed_sorted b db : StronglySorted (newer_first b) (listed b db).
Proof.
  apply (sort_by_sorted (created_desc b) (created_desc_total b)
           (created_desc_trans b)).
Qed.

Lemma listed_perm b db : Permutation (listed b db) (join db).
Proof. apply sort_by_perm. Qed.

(** Rows that the order does not tell apart stay in the order of the
    table. *)
Lemma insert_by_front {A} (le : A -> A -> bool) x y l :
  le x y = true -> insert_by le x (y :: l) = x :: y :: l.
Proof. cbn. intros ->. reflexivity. Qed.

(** ** Names *)

Lemma name_taken_rows n db :
  name_taken n db = true ->
  exists u rest, filter (fun u => user_name u =? n)%string (users db) = u :: rest.
Proof.
  unfold name_taken. induction (users db) as [|u l IH]; cbn; [discriminate|].
  destruct (user_name u =? n)%string; cbn; eauto.
Qed.

Lemma name_free_rows n db :
  name_taken n db = false ->
  filter (fun u => user_name u =? n)%string (users db) = [].
Proof.
  unfold name_taken. induction (users db) as [|u l IH]; cbn; [reflexivity|].
  destruct (user_name u =? n)%string; cbn; [discriminate|auto].
Qed.

Lemma count_name_taken n db :
  name_taken n db = negb (Nat.eqb (count_name n db) 0).
Proof.
  unfold name_taken, count_name.
  induction (users db) as [|u l IH]; cbn; [reflexivity|].
  destruct (user_name u =? n)%string; cbn; auto.
Qed.

(** ** Parameters the engines take as they are *)

Lemma text_to_compare_text b n :
  (b = PostgreSQL -> has_nul n = false) ->
  text_to_compare b (VStr n) = Ok (Some n).
Proof.
  intros H. unfold text_to_compare, text_param.
  destruct b; [rewrite (H eq_refl)|]; reflexivity.
Qed.

Lemma text_for_column_text b s :
  (b = PostgreSQL -> has_nul s = false) ->
  text_for_column b None (VStr s) = Ok s.
Proof.
  intros H. unfold text_for_column, text_param.
  destruct b; [rewrite (H eq_refl)|]; reflexivity.
Qed.

Lemma text_for_column_name b s :
  (b = PostgreSQL -> has_nul s = false /\ (Text.length s <= 100)%nat) ->
  text_for_column b (name_limit b) (VStr s) = Ok s.
Proof.
  intros H. destruct b; [|reflexivity].
  destruct (H eq_refl) as [Z Len].
  unfold text_for_column, text_param, name_limit, varchar. rewrite Z.
  apply Nat.leb_le in Len. rewrite Len. reflexivity.
Qed.

Lemma integer_for_column_int (b : backend) (n : Z) :
  match b with PostgreSQL => fits_32 n | SQLite => fits_64 n end = true ->
  integer_for_column b (VInt n) = Ok n.
Proof.
  intros H. unfold integer_for_column, integer_param, column_range.
  destruct b; cbv beta iota; repeat (rewrite H; cbv beta iota); reflexivity.
Qed.

Lemma placeholders_native b : placeholders_ok b (native_dialect b) = true.
Proof. destruct b; reflexivity. Qed.

Lemma run_select_user b now n db :
  (b = PostgreSQL -> has_nul n = false) ->
  run b now (SelectUserId (native_dialect b) (VStr n)) db =
    Ok (db, mkCursor
              (map (fun u => VList [VInt (user_id u)])
                   (filter (fun u => user_name u =? n)%string (users db)))
              VNone).
Proof.
  intros H. unfold run.
  rewrite placeholders_native, (text_to_compare_text b n H). reflexivity.
Qed.

Lemma run_insert_user b now r n pw db :
  (b = PostgreSQL -> has_nul n = false /\ (Text.length n <= 100)%nat) ->
  (b = PostgreSQL -> has_nul pw = false /\ (Text.length pw <= 100)%nat) ->
  name_taken n db = false ->
  run b now (InsertUser (native_dialect b) r (VStr n) (VStr pw)) db =
    Ok (mkDatabase (users db ++ [mkUser (next_user_id db) n pw]) (posts db)
                   (next_user_id db + 1) (next_post_id db),
        generated b r (next_user_id db)).
Proof.
  intros Hn Hp T. unfold run.
  rewrite placeholders_native, (text_for_column_name b n Hn),
    (text_for_column_name b pw Hp), T.
  reflexivity.
Qed.

Lemma run_insert_post (b : backend) now r t c a db :
  (b = PostgreSQL -> has_nul t = false) ->
  (b = PostgreSQL -> has_nul c = false) ->
  match b with
  | PostgreSQL => fits_32 a && user_exists a db
  | SQLite => fits_64 a
  end = true ->
  run b now (InsertPost (native_dialect b) r (VStr t) (VStr c) (VInt a)) db =
    Ok (mkDatabase (users db)
                   (posts db ++
                    [mkPost (next_post_id db) t c a (current_timestamp b now)])
                   (next_user_id db) (next_post_id db + 1),
        generated b r (next_post_id db)).
Proof.
  intros Ht Hc Ha. unfold run.
  rewrite placeholders_native, (text_for_column_text b t Ht),
    (text_for_column_text b c Hc).
  destruct b.
  - apply andb_true_iff in Ha. destruct Ha as [F E].
    rewrite (integer_for_column_int PostgreSQL a F), E. reflexivity.
  - rewrite (integer_for_column_int SQLite a Ha). reflexivity.
Qed.

Lemma run_select_post b now i db :
  (b = SQLite -> fits_64 i = true) ->
  run b now (SelectPost (native_dialect b) (VInt i)) db =
    Ok (db, mkCursor (map joined_row (matching i db)) VNone).
Proof.
  intros H. unfold run, matching, integer_to_compare, integer_param.
  rewrite placeholders_native.
  destruct b; [|rewrite (H eq_refl)]; reflexivity.
Qed.

End StoreFacts.

(* ================================================================== *)
(** * The order of the stamps is the order of time                      *)
(* ================================================================== *)

Module StampOrder.
Import Calendar TimeFormat Py Store Notions CalendarFacts TimeFormatFacts.
Local Open Scope Z_scope.

Lemma digit_char_compare a b : 0 <= a <= 9 -> 0 <= b <= 9 ->
  Ascii.compare (digit_char a) (digit_char b) = (a ?= b).
Proof.
  intros Ha Hb. each_digit a Ha; each_digit b Hb; reflexivity.
Qed.

Lemma compare_same c k1 k2 :
  String.compare (String c k1) (String c k2) = String.compare k1 k2.
Proof.
  cbn. unfold Ascii.compare. rewrite N.compare_refl. reflexivity.
Qed.

Lemma compare_digit a b k1 k2 : 0 <= a <= 9 -> 0 <= b <= 9 ->
  String.compare (String (digit_char a) k1) (String (digit_char b) k2) =
  then_compare (a ?= b) (String.compare k1 k2).
Proof.
  intros Ha Hb. cbn [String.compare]. rewrite digit_char_compare by assumption.
  destruct (a ?= b); reflexivity.
Qed.

(** Two digits compare as the number they write. *)
Lemma lexicographic_base q1 r1 q2 r2 a b base :
  a = base * q1 + r1 -> b = base * q2 + r2 ->
  0 <= r1 < base -> 0 <= r2 < base ->
  then_compare (q1 ?= q2) (r1 ?= r2) = (a ?= b).
Proof.
  intros -> -> H1 H2.
  destruct (Z.compare_spec q1 q2) as [E | L | L]; cbn [then_compare].
  - subst q2. destruct (Z.compare_spec r1 r2) as [E2 | L2 | L2]; symmetry.
    + apply Z.compare_eq_iff. lia.
    + apply Z.compare_lt_iff. lia.
    + apply Z.compare_gt_iff. lia.
  - symmetry. apply Z.compare_lt_iff. nia.
  - symmetry. apply Z.compare_gt_iff. nia.
Qed.

Lemma then_compare_assoc c1 c2 c3 :
  then_compare (then_compare c1 c2) c3 = then_compare c1 (then_compare c2 c3).
Proof. destruct c1; reflexivity. Qed.

Lemma compare_pad2 a b k1 k2 : 0 <= a <= 99 -> 0 <= b <= 99 ->
  String.compare (pad2 a k1) (pad2 b k2) =
  then_compare (a ?= b) (String.compare k1 k2).
Proof.
  intros Ha Hb. unfold pad2.
  rewrite !compare_digit by euclid.
  rewrite <- then_compare_assoc.
  rewrite (lexicographic_base (a / 10) (a mod 10) (b / 10) (b mod 10) a b 10)
    by euclid.
  reflexivity.
Qed.

Lemma compare_pad4 a b k1 k2 : 0 <= a <= 9999 -> 0 <= b <= 9999 ->
  String.compare (pad4 a k1) (pad4 b k2) =
  then_compare (a ?= b) (String.compare k1 k2).
Proof.
  intros Ha Hb. rewrite !pad4_pad2.
  rewrite compare_pad2 by euclid.
  rewrite compare_pad2 by euclid.
  rewrite <- then_compare_assoc.
  rewrite (lexicographic_base (a / 100) (a mod 100) (b / 100) (b mod 100)
             a b 100) by euclid.
  reflexivity.
Qed.

(** The texts [timestamp_text] writes compare as their fields do. *)
Lemma compare_timestamp_text a b : valid a = true -> valid b = true ->
  String.compare (timestamp_text a) (timestamp_text b) = compare_fields a b.
Proof.
  intros Va Vb. apply valid_iff in Va, Vb.
  destruct Va as (Hy & Hm & Hd & Hh & Hmi & Hs & Hus).
  destruct Vb as (Hy' & Hm' & Hd' & Hh' & Hmi' & Hs' & Hus').
  pose proof (days_in_month_bounds (year a) (month a) Hm).
  pose proof (days_in_month_bounds (year b) (month b) Hm').
  unfold timestamp_text, after_year, compare_fields.
  rewrite compare_pad4 by lia. rewrite compare_same.
  rewrite compare_pad2 by lia. rewrite compare_same.
  rewrite compare_pad2 by lia. rewrite compare_same.
  rewrite compare_pad2 by lia. rewrite compare_same.
  rewrite compare_pad2 by lia. rewrite compare_same.
  rewrite compare_pad2 by lia. cbn [String.compare].
  destruct (second a ?= second b); reflexivity.
Qed.

Lemma days_before_year_le y n : 0 <= n ->
  days_before_year y + 365 * n <= days_before_year (y + n).
Proof.
  intros Hn. pattern n. apply natlike_ind; [| |exact Hn].
  - replace (y + 0) with y by lia. lia.
  - intros k Hk IH. replace (y + Z.succ k) with (y + k + 1) by lia.
    rewrite days_before_year_succ. destruct (is_leap (y + k)); lia.
Qed.

Ltac months :=
  cbv [Z.ltb Z.compare Pos.compare Pos.compare_cont andb] in *.

Lemma day_of_year_bounds y m d :
  1 <= m <= 12 -> 1 <= d <= days_in_month y m ->
  1 <= days_before_month y m + d <= 365 + (if is_leap y then 1 else 0).
Proof.
  intros Hm Hd. apply month_cases in Hm. revert Hd.
  unfold days_before_month, days_in_month.
  destruct (is_leap y); intros Hd;
    repeat (destruct Hm as [Hm | Hm]; [subst m; months; lia|]);
    subst m; months; lia.
Qed.

Lemma days_before_month_lt y m m' d :
  1 <= m -> m < m' -> m' <= 12 -> d <= days_in_month y m ->
  days_before_month y m + d <= days_before_month y m'.
Proof.
  intros H1 H2 H3 Hd.
  assert (Hm : 1 <= m <= 12) by lia. assert (Hm' : 1 <= m' <= 12) by lia.
  apply month_cases in Hm, Hm'. revert Hd.
  unfold days_before_month, days_in_month.
  destruct (is_leap y); intros Hd;
    repeat (destruct Hm as [Hm | Hm]; [subst m|]); try subst m;
    repeat (destruct Hm' as [Hm' | Hm']; [subst m'|]); try subst m';
    months; lia.
Qed.

Lemma compare_fields_seconds a b : valid a = true -> valid b = true ->
  compare_fields a b = Lt -> total_seconds a < total_seconds b.
Proof.
  intros Va Vb. apply valid_iff in Va, Vb.
  destruct Va as (Hy & Hm & Hd & Hh & Hmi & Hs & Hus).
  destruct Vb as (Hy' & Hm' & Hd' & Hh' & Hmi' & Hs' & Hus').
  unfold compare_fields, total_seconds, toordinal.
  destruct (Z.compare_spec (year a) (year b)) as [Ey | Ly | Ly];
    cbn [then_compare]; [| |discriminate].
  - rewrite Ey in *.
    destruct (Z.compare_spec (month a) (month b)) as [Em | Lm | Lm];
      cbn [then_compare]; [| |discriminate].
    + rewrite Em in *.
      destruct (Z.compare_spec (day a) (day b)) as [Ed | Ld | Ld];
        cbn [then_compare]; [| |discriminate].
      * rewrite Ed.
        destruct (Z.compare_spec (hour a) (hour b)) as [Eh | Lh | Lh];
          cbn [then_compare]; [| |discriminate].
        -- destruct (Z.compare_spec (minute a) (minute b)) as [Ei | Li | Li];
             cbn [then_compare]; [| |discriminate].
           ++ rewrite Z.compare_lt_iff. lia.
           ++ intros _. lia.
        -- intros _. lia.
      * intros _. lia.
    + intros _.
      pose proof (days_before_month_lt (year b) (month a) (month b) (day a)).
      lia.
  - intros _.
    pose proof (day_of_year_bounds (year a) (month a) (day a) Hm Hd).
    pose proof (day_of_year_bounds (year b) (month b) (day b) Hm' Hd').
    pose proof (days_before_year_succ (year a)).
    pose proof (days_before_year_le (year a + 1) (year b - (year a + 1))).
    replace (year a + 1 + (year b - (year a + 1))) with (year b) in * by lia.
    destruct (is_leap (year a)); lia.
Qed.

Lemma compare_fields_antisym a b :
  compare_fields b a = CompOpp (compare_fields a b).
Proof.
  unfold compare_fields.
  rewrite (Z.compare_antisym (year a)), (Z.compare_antisym (month a)),
    (Z.compare_antisym (day a)), (Z.compare_antisym (hour a)),
    (Z.compare_antisym (minute a)), (Z.compare_antisym (second a)).
  destruct (year a ?= year b), (month a ?= month b), (day a ?= day b),
    (hour a ?= hour b), (minute a ?= minute b), (second a ?= second b);
    reflexivity.
Qed.

Lemma compare_fields_eq a b :
  compare_fields a b = Eq -> total_seconds a = total_seconds b.
Proof.
  unfold compare_fields, total_seconds, toordinal.
  destruct (Z.compare_spec (year a) (year b)); cbn; try discriminate.
  destruct (Z.compare_spec (month a) (month b)); cbn; try discriminate.
  destruct (Z.compare_spec (day a) (day b)); cbn; try discriminate.
  destruct (Z.compare_spec (hour a) (hour b)); cbn; try discriminate.
  destruct (Z.compare_spec (minute a) (minute b)); cbn; try discriminate.
  rewrite Z.compare_eq_iff. congruence.
Qed.

(** The byte order of two texts [timestamp_text] writes is the order of the
    instants they denote. *)
Lemma timestamp_text_order a b : valid a = true -> valid b = true ->
  (total_seconds a < total_seconds b <->
   String.compare (timestamp_text a) (timestamp_text b) = Lt).
Proof.
  intros Va Vb. rewrite compare_timestamp_text by assumption. split.
  - intros L. destruct (compare_fields a b) eqn:C; [| reflexivity |].
    + apply compare_fields_eq in C. lia.
    + assert (C' : compare_fields b a = Lt)
        by (rewrite compare_fields_antisym, C; reflexivity).
      apply compare_fields_seconds in C'; [lia | assumption | assumption].
  - apply compare_fields_seconds; assumption.
Qed.

(** A valid datetime is determined by its second and its microsecond:
    [add_8_hours] has one possible result. *)
Lemma total_seconds_injective a b : valid a = true -> valid b = true ->
  total_seconds a = total_seconds b -> microsecond a = microsecond b ->
  a = b.
Proof.
  intros Va Vb E Eus.
  assert (C : compare_fields a b = Eq).
  { destruct (compare_fields a b) eqn:C; [reflexivity| |].
    - apply compare_fields_seconds in C; [lia|assumption|assumption].
    - assert (C' : compare_fields b a = Lt)
        by (rewrite compare_fields_antisym, C; reflexivity).
      apply compare_fields_seconds in C'; [lia|assumption|assumption]. }
  unfold compare_fields in C.
  destruct a as [y m d H M S us], b as [y' m' d' H' M' S' us']. cbn in *.
  destruct (Z.compare_spec y y'); cbn in C; try discriminate.
  destruct (Z.compare_spec m m'); cbn in C; try discriminate.
  destruct (Z.compare_spec d d'); cbn in C; try discriminate.
  destruct (Z.compare_spec H H'); cbn in C; try discriminate.
  destruct (Z.compare_spec M M'); cbn in C; try discriminate.
  apply Z.compare_eq_iff in C. congruence.
Qed.

(** A post inserted later gets a greater stamp: on the primary store
    whenever the instants differ, on the embedded store when they
    differ in their seconds. *)
Lemma current_timestamp_order b t1 t2 :
  valid t1 = true -> valid t2 = true ->
  total_seconds t1 < total_seconds t2 \/
  (b = PostgreSQL /\ time_key t1 < time_key t2) ->
  stamp_ltb b (current_timestamp b t1) (current_timestamp b t2) = true.
Proof.
  intros V1 V2 L. unfold stamp_ltb. apply negb_true_iff.
  destruct b; cbn.
  - apply Z.leb_gt. unfold time_key in *.
    apply valid_iff in V1, V2. destruct L as [L | [_ L]]; lia.
  - destruct L as [L | [L _]]; [|discriminate].
    unfold String.leb.
    replace (String.compare (timestamp_text t2) (timestamp_text t1)) with Gt;
      [reflexivity|].
    rewrite String.compare_antisym.
    apply (timestamp_text_order t1 t2 V1 V2) in L. rewrite L. reflexivity.
Qed.

(** Within one second the embedded store writes one stamp. *)
Lemma current_timestamp_same_second t1 t2 :
  whole_seconds t1 = whole_seconds t2 ->
  current_timestamp SQLite t1 = current_timestamp SQLite t2.
Proof.
  unfold whole_seconds, current_timestamp, timestamp_text, after_year.
  intros E. inversion E as [[Ey Em Ed Eh Emi Es]].
  rewrite Ey, Em, Ed, Eh, Emi, Es. reflexivity.
Qed.

End StampOrder.

(* ================================================================== *)
(** * The connection                                                    *)
(* ================================================================== *)

Module Connector.
Import Calendar Py Store Runtime App Notions Scenarios TextFacts.
Local Open Scope Z_scope.
Local Open Scope string_scope.

Section Drivers.
Context {D : Driver}.

(** [get_db_connection] connects to the store [reaches] names; an
    exception of the primary attempt, or of the embedded attempt for a
    placeholder, ends in the embedded attempt of line 47. *)
Lemma get_db_connection_reaches env w :
  get_db_connection env w = connection_to (reaches env) w.
Proof.
  unfold get_db_connection, reaches, connection_to, environ_DATABASE_URL,
    is_placeholder.
  destruct (DATABASE_URL env) as [url|]; cbn [truthy andb]; [|reflexivity].
  destruct (negb (url =? "")); cbn [andb]; [|reflexivity].
  destruct (POSTGRES_AVAILABLE env); cbn [andb]; [|reflexivity].
  destruct (startswith url "{{" && endswith url "}}"); cbn [negb].
  - unfold Runtime.bind, try_except, sqlite3_connect.
    destruct database_file_failure; reflexivity.
  - unfold psycopg2_connect, Runtime.bind, try_except.
    destruct (connect_failure env url); reflexivity.
Qed.

Lemma sqlite3_connect_cases w :
  match database_file_failure with
  | None => sqlite3_connect w = open_connection SQLite w
  | Some e => sqlite3_connect w = (Raise e, w)
  end.
Proof. unfold sqlite3_connect. destruct database_file_failure; reflexivity. Qed.

Lemma fell_back_reaches env w :
  fell_back env w ->
  truthy (environ_DATABASE_URL env) = true /\ reaches env = SQLite.
Proof.
  intros (U & conn & w' & E & B). split; [exact U|].
  rewrite get_db_connection_reaches in E. unfold connection_to in E.
  destruct (reaches env); [|reflexivity].
  inversion E; subst. discriminate.
Qed.

End Drivers.

Lemma reaches_unset env :
  truthy (environ_DATABASE_URL env) = false -> reaches env = SQLite.
Proof.
  unfold reaches, environ_DATABASE_URL.
  destruct (DATABASE_URL env) as [url|]; [|reflexivity].
  cbn. intros ->. reflexivity.
Qed.

Lemma matched_cases env :
  matched env ->
  (truthy (environ_DATABASE_URL env) = true /\ reaches env = PostgreSQL) \/
  (truthy (environ_DATABASE_URL env) = false /\ reaches env = SQLite).
Proof.
  unfold matched, sql_dialect.
  destruct (truthy (environ_DATABASE_URL env)) eqn:T.
  - destruct (reaches env); [auto|discriminate].
  - intros _. right. split; [reflexivity|]. apply reaches_unset, T.
Qed.

Lemma unmatched_cases env :
  ~ matched env ->
  truthy (environ_DATABASE_URL env) = true /\ reaches env = SQLite.
Proof.
  unfold matched, sql_dialect. intros N.
  destruct (truthy (environ_DATABASE_URL env)) eqn:T.
  - destruct (reaches env); [contradiction N; reflexivity|auto].
  - contradiction N. rewrite (reaches_unset env T). reflexivity.
Qed.

Lemma matched_dec env : matched env \/ ~ matched env.
Proof.
  unfold matched.
  destruct (native_dialect (reaches env)), (sql_dialect env);
    auto; right; discriminate.
Qed.

Lemma closed_again_same w w' :
  fresh_ids w -> closed_again w w' ->
  open_connections w' = open_connections w.
Proof.
  unfold fresh_ids, closed_again. intros F ->.
  induction F as [|i l H F IH]; cbn; [reflexivity|].
  destruct (Nat.eqb_spec i (next_conn_id w)); [lia|]. cbn. f_equal. exact IH.
Qed.

(** On the drivers of [Scenarios] the connection is always made. *)
Lemma get_db_connection_opens env w :
  get_db_connection env w = open_connection (reaches env) w.
Proof.
  rewrite get_db_connection_reaches. destruct (reaches env); reflexivity.
Qed.

(** Where the descriptor is absent, or a placeholder, or the primary
    connection raises, the store reached is the embedded one. *)
Lemma falls_back_reaches env w :
  DATABASE_URL env = None \/
  (exists url, DATABASE_URL env = Some url /\
               starts_with "{{" url /\ ends_with "}}" url) \/
  (exists url e w', DATABASE_URL env = Some url /\
                    psycopg2_connect env url w = (Raise e, w')) ->
  reaches env = SQLite.
Proof.
  intros H. unfold reaches.
  destruct H as [H | [(url & H & S & E) | (url & e & w' & H & F)]];
    rewrite H; [reflexivity| |].
  - apply startswith_iff in S. apply endswith_iff in E.
    unfold is_placeholder. rewrite S, E. cbn.
    rewrite andb_false_r. reflexivity.
  - unfold psycopg2_connect in F.
    destruct (connect_failure env url); [|discriminate].
    destruct (_ && _); reflexivity.
Qed.

(** C3, as stated, fails where [database.db] cannot be opened: in each
    of the three cases the connector raises the exception of
    [sqlite3.connect], whose call in line 47 stands outside every
    [try]. *)
Lemma connector_raises_without_file :
  (DATABASE_URL env_embedded = None /\
   @get_db_connection no_file env_embedded fresh_world =
     (Raise OperationalError, fresh_world)) /\
  (DATABASE_URL env_placeholder = Some "{{DATABASE_URL}}" /\
   startswith "{{DATABASE_URL}}" "{{" = true /\
   endswith "{{DATABASE_URL}}" "}}" = true /\
   @get_db_connection no_file env_placeholder fresh_world =
     (Raise OperationalError, fresh_world)) /\
  (DATABASE_URL env_unreachable = Some "postgresql://forum@db.internal/forum" /\
   psycopg2_connect env_unreachable "postgresql://forum@db.internal/forum"
     fresh_world = (Raise OperationalError, fresh_world) /\
   @get_db_connection no_file env_unreachable fresh_world =
     (Raise OperationalError, fresh_world)).
Proof. repeat split. Qed.

(** C3, amended: whenever the connection descriptor is absent, or
    starts with the two opening braces and ends with the two closing
    braces, or opening the primary connection raises an exception,
    whichever it is, [get_db_connection] does what
    [sqlite3.connect('database.db')] does.  When the file can be opened
    it returns normally, with a connection to the embedded store that
    sees the content of the file and is open; the exception of the
    primary attempt never reaches the caller.  When the file cannot be
    opened it raises the exception of [sqlite3.connect], and no
    connection is open that was not. *)
Theorem connector_falls_back {D : Driver} (env : Env) (w : world) :
  DATABASE_URL env = None \/
  (exists url, DATABASE_URL env = Some url /\
               starts_with "{{" url /\ ends_with "}}" url) \/
  (exists url e w', DATABASE_URL env = Some url /\
                    psycopg2_connect env url w = (Raise e, w')) ->
  get_db_connection env w = sqlite3_connect w /\
  match database_file_failure with
  | None =>
      exists conn w',
        get_db_connection env w = (Ok conn, w') /\
        conn_backend conn = SQLite /\
        conn_view conn = sqlite_file w /\
        In (conn_id conn) (open_connections w')
  | Some e => get_db_connection env w = (Raise e, w)
  end.
Proof.
  intros H. pose proof (falls_back_reaches env w H) as R.
  rewrite get_db_connection_reaches, R. cbn [connection_to].
  split; [reflexivity|].
  pose proof (sqlite3_connect_cases w) as C.
  destruct database_file_failure as [e|]; [exact C|].
  rewrite C. eexists. eexists. split; [reflexivity|]. cbn. auto.
Qed.

Lemma connector_falls_back_witness :
  (exists conn w',
     get_db_connection env_embedded fresh_world = (Ok conn, w') /\
     conn_backend conn = SQLite /\
     conn_view conn = sqlite_file fresh_world /\
     In (conn_id conn) (open_connections w')) /\
  (exists conn w',
     get_db_connection env_placeholder fresh_world = (Ok conn, w') /\
     conn_backend conn = SQLite /\
     conn_view conn = sqlite_file fresh_world /\
     In (conn_id conn) (open_connections w')) /\
  (exists conn w',
     get_db_connection env_unreachable fresh_world = (Ok conn, w') /\
     conn_backend conn = SQLite /\
     conn_view conn = sqlite_file fresh_world /\
     In (conn_id conn) (open_connections w')) /\
  @get_db_connection no_file env_unreachable fresh_world =
    (Raise OperationalError, fresh_world).
Proof.
  assert (P : exists url, DATABASE_URL env_placeholder = Some url /\
                          starts_with "{{" url /\ ends_with "}}" url).
  { exists "{{DATABASE_URL}}". split; [reflexivity|].
    split; [exists "DATABASE_URL}}" | exists "{{DATABASE_URL"]; reflexivity. }
  assert (U : exists url e w',
             DATABASE_URL env_unreachable = Some url /\
             psycopg2_connect env_unreachable url fresh_world = (Raise e, w')).
  { exists "postgresql://forum@db.internal/forum", OperationalError,
      fresh_world. split; reflexivity. }
  split; [|split; [|split]].
  - apply (@connector_falls_back store env_embedded fresh_world).
    left. reflexivity.
  - apply (@connector_falls_back store env_placeholder fresh_world).
    right. left. exact P.
  - apply (@connector_falls_back store env_unreachable fresh_world).
    right. right. exact U.
  - apply (@connector_falls_back no_file env_unreachable fresh_world).
    right. right. exact U.
Defined.

End Connector.

(* ================================================================== *)
(** * The statements a handler issues                                   *)
(* ================================================================== *)

Module Statements.
Import Calendar TimeFormat Py Store Runtime App Notions Scenarios Connector.
Local Open Scope Z_scope.
Local Open Scope string_scope.

Section Emits.
Context {D : Driver} {L : Library} (P : backend * statement -> Prop).

Lemma emits_ret {A} (a : A) : emits P (ret a).
Proof. intros w. exists []. cbn. rewrite app_nil_r. auto. Qed.

Lemma emits_lift {A} (r : result A) : emits P (lift r).
Proof. intros w. exists []. cbn. rewrite app_nil_r. auto. Qed.

Lemma emits_bind {A B} (m : M A) (k : A -> M B) :
  emits P m -> (forall a, emits P (k a)) -> emits P (Runtime.bind m k).
Proof.
  intros Hm Hk w. unfold Runtime.bind.
  destruct (Hm w) as (n1 & E1 & F1).
  destruct (m w) as [[a|e] w1]; cbn in *.
  - destruct (Hk a w1) as (n2 & E2 & F2).
    exists (n1 ++ n2)%list. rewrite E2, E1, app_assoc.
    split; [reflexivity|]. apply Forall_app; auto.
  - exists n1. auto.
Qed.

Lemma emits_try_except {A} (m : M A) (h : exn -> M A) :
  emits P m -> (forall e, emits P (h e)) -> emits P (try_except m h).
Proof.
  intros Hm Hh w. unfold try_except.
  destruct (Hm w) as (n1 & E1 & F1).
  destruct (m w) as [[a|e] w1]; cbn in *.
  - exists n1. auto.
  - destruct (Hh e w1) as (n2 & E2 & F2).
    exists (n1 ++ n2)%list. rewrite E2, E1, app_assoc.
    split; [reflexivity|]. apply Forall_app; auto.
Qed.

Lemma emits_try_finally {A} (m : M A) (f : M unit) :
  emits P m -> emits P f -> emits P (try_finally m f).
Proof.
  intros Hm Hf w. unfold try_finally.
  destruct (Hm w) as (n1 & E1 & F1).
  destruct (m w) as [r w1]; cbn in *.
  destruct (Hf w1) as (n2 & E2 & F2).
  exists (n1 ++ n2)%list.
  destruct (f w1) as [[u|e] w2]; cbn in *;
    (rewrite E2, E1, app_assoc; split;
     [reflexivity|apply Forall_app; auto]).
Qed.

Lemma emits_execute conn st :
  P (conn_backend conn, st) -> emits P (execute conn st).
Proof.
  intros H w. exists [(conn_backend conn, st)]. unfold execute.
  destruct (engine _ _ _ _) as [[db cur]|e]; cbn; auto.
Qed.

Lemma emits_commit conn : emits P (commit conn).
Proof.
  intros w. exists []. unfold commit.
  destruct (conn_backend conn); cbn; rewrite app_nil_r; auto.
Qed.

Lemma emits_rollback conn : emits P (rollback conn).
Proof. intros w. exists []. cbn. rewrite app_nil_r. auto. Qed.

Lemma emits_close conn : emits P (close conn).
Proof. intros w. exists []. cbn. rewrite app_nil_r. auto. Qed.

Lemma emits_get_db_connection env : emits P (get_db_connection env).
Proof.
  intros w. rewrite get_db_connection_reaches. exists [].
  unfold connection_to, sqlite3_connect.
  destruct (reaches env); [|destruct database_file_failure]; cbn;
    rewrite app_nil_r; auto.
Qed.
End Emits.

Lemma since_emitted {A} P (m : M A) w :
  emits P m -> Forall P (since w (snd (m w))).
Proof.
  intros H. destruct (H w) as (new & E & F). unfold since. rewrite E.
  rewrite skipn_app, skipn_all, Nat.sub_diag. exact F.
Qed.

Lemma since_app w w' l : issued w' = (issued w ++ l)%list -> since w w' = l.
Proof.
  intros E. unfold since. rewrite E, skipn_app, skipn_all, Nat.sub_diag.
  reflexivity.
Qed.

Create HintDb emits discriminated.
#[local] Hint Resolve emits_ret emits_lift emits_commit emits_rollback
  emits_close emits_get_db_connection : emits.

(** One rule of the table above, or a case split on a test. *)
Ltac emits_step :=
  first
    [ solve [auto with emits]
    | apply emits_try_except; [|intros ?]
    | apply emits_try_finally
    | apply emits_bind; [|intros ?]
    | apply emits_execute; intros ? E; cbn in E; congruence
    | match goal with
      | |- emits _ (if ?b then _ else _) => destruct b eqn:?
      | |- emits _ (match ?v with _ => _ end) => destruct v eqn:?
      end ].

Lemma sql_dialect_set env :
  truthy (environ_DATABASE_URL env) = true -> sql_dialect env = Primary.
Proof. unfold sql_dialect. intros ->. reflexivity. Qed.

Lemma sql_dialect_unset env :
  truthy (environ_DATABASE_URL env) = false -> sql_dialect env = Embedded.
Proof. unfold sql_dialect. intros ->. reflexivity. Qed.

Ltac emits_handler env :=
  let U := fresh "U" in
  destruct (truthy (environ_DATABASE_URL env)) eqn:U;
  [ rewrite (sql_dialect_set env U) | rewrite (sql_dialect_unset env U) ];
  repeat emits_step.

Lemma init_db_emits {D : Driver} env : emits (speaks (sql_dialect env)) (init_db env).
Proof. unfold init_db. emits_handler env. Qed.

Lemma register_emits {D : Driver} env (data : request) :
  emits (speaks (sql_dialect env)) (register env data).
Proof. unfold register. emits_handler env. Qed.

Lemma get_users_emits {D : Driver} env : emits (speaks (sql_dialect env)) (get_users env).
Proof. unfold get_users. emits_handler env. Qed.

Lemma create_post_emits {D : Driver} env (data : request) :
  emits (speaks (sql_dialect env)) (create_post env data).
Proof. unfold create_post. emits_handler env. Qed.

Lemma get_posts_emits {D : Driver} {L : Library} env :
  emits (speaks (sql_dialect env)) (get_posts env).
Proof. unfold get_posts. emits_handler env. Qed.

Lemma get_post_emits {D : Driver} {L : Library} env i :
  emits (speaks (sql_dialect env)) (get_post env i).
Proof. unfold get_post. emits_handler env. Qed.

(** ** After a fallback *)

Ltac evaluate :=
  unfold try_finally, try_except, Runtime.bind, lift, ret,
    open_connection, execute, run, commit, close, rollback;
  cbn.

Lemma init_db_after_fallback env w :
  truthy (environ_DATABASE_URL env) = true -> reaches env = SQLite ->
  exists w',
    init_db env w = (Ok tt, w') /\
    sqlite_file w' = sqlite_file w /\ pg_server w' = pg_server w /\
    since w w' =
      ([(SQLite, CreateUsers Primary); (SQLite, CreatePosts Primary);
        (SQLite, CountUsers)] ++
       match users (sqlite_file w) with
       | [] => [(SQLite, InsertPost Primary false
                           (VStr SEED_TITLE) (VStr SEED_CONTENT) (VInt 1))]
       | _ :: _ => []
       end)%list.
Proof.
  intros U R. unfold init_db.
  unfold Runtime.bind at 1. rewrite get_db_connection_opens, U, R.
  evaluate.
  destruct (sqlite_file w) as [us ps nu np] eqn:E. cbn.
  destruct us as [|u us]; cbn;
    (eexists; split; [reflexivity|]; cbn;
     repeat split; try congruence;
     apply since_app; cbn; rewrite <- !app_assoc; reflexivity).
Qed.

Lemma register_after_fallback env w data name password :
  truthy (environ_DATABASE_URL env) = true -> reaches env = SQLite ->
  getitem data "name" = Ok name ->
  getitem data "password" = Ok password ->
  exists w',
    register env data w = (Ok register_failure, w') /\
    sqlite_file w' = sqlite_file w /\ pg_server w' = pg_server w /\
    In (next_conn_id w) (open_connections w') /\
    since w w' = [(SQLite, SelectUserId Primary name)].
Proof.
  intros U R Hn Hp.
  destruct data as [| | | | |kv|]; try discriminate.
  cbn in Hn, Hp.
  destruct (lookup "name" kv) as [n|] eqn:Ln; [|discriminate].
  destruct (lookup "password" kv) as [p|] eqn:Lp; [|discriminate].
  inversion Hn; inversion Hp; subst n p.
  unfold register, try_except, Runtime.bind, lift, or_else, not_in, contains,
    has_key.
  cbn [get_json]. rewrite Ln, Lp.
  assert (T : truthy (VDict kv) = true) by (destruct kv; [discriminate|reflexivity]).
  rewrite T. cbn [negb getitem]. rewrite Ln, Lp.
  rewrite get_db_connection_opens, U, R.
  unfold open_connection, execute, run. cbn.
  eexists. split; [reflexivity|]. cbn.
  repeat split; auto. apply since_app. reflexivity.
Qed.

Lemma create_post_after_fallback env w data title content author_id :
  truthy (environ_DATABASE_URL env) = true -> reaches env = SQLite ->
  getitem data "title" = Ok title ->
  getitem data "content" = Ok content ->
  getitem data "author_id" = Ok author_id ->
  exists w',
    create_post env data w = (Ok post_failure, w') /\
    sqlite_file w' = sqlite_file w /\ pg_server w' = pg_server w /\
    In (next_conn_id w) (open_connections w') /\
    since w w' = [(SQLite, InsertPost Primary true title content author_id)].
Proof.
  intros U R Ht Hc Ha.
  unfold create_post, try_except, Runtime.bind, lift. cbn [get_json].
  rewrite get_db_connection_opens, U, R, Ht, Hc, Ha.
  unfold open_connection, execute, run. cbn.
  eexists. split; [reflexivity|]. cbn.
  repeat split; auto. apply since_app. reflexivity.
Qed.

Lemma get_post_after_fallback {L : Library} env w i :
  truthy (environ_DATABASE_URL env) = true -> reaches env = SQLite ->
  exists w',
    get_post env i w = (Ok (raw_failure OperationalError), w') /\
    sqlite_file w' = sqlite_file w /\ pg_server w' = pg_server w /\
    In (next_conn_id w) (open_connections w') /\
    since w w' = [(SQLite, SelectPost Primary (VInt i))].
Proof.
  intros U R.
  unfold get_post, try_except, Runtime.bind, lift.
  rewrite get_db_connection_opens, U, R.
  unfold open_connection, execute, run. cbn.
  eexists. split; [reflexivity|]. cbn.
  repeat split; auto. apply since_app. reflexivity.
Qed.

End Statements.

(* ================================================================== *)
(** * The dialect of the statements                                     *)
(* ================================================================== *)

Module Dialects.
Import Calendar TimeFormat Py Store Runtime App Notions Scenarios.
Import Connector Statements.
Local Open Scope Z_scope.
Local Open Scope string_scope.

(** The scrutinees worth a case analysis: variables, tests, and the
    answers of the drivers. *)
Ltac small x :=
  first
    [ is_var x
    | lazymatch x with
      | lookup _ _ => idtac | has_key _ _ => idtac | truthy _ => idtac
      | negb _ => idtac | reaches _ => idtac
      | is_substring _ _ => idtac | existsb _ _ => idtac
      | eq_int _ _ => idtac | getindex _ _ => idtac | getitem _ _ => idtac
      | engine _ _ _ _ => idtac | database_file_failure => idtac
      | rows _ => idtac | posts_list _ => idtac | users_list _ => idtac
      | fetchone _ => idtac
      end ].

(** Runs an entry point symbolically, splitting on every test it makes
    and on every answer it gets. *)
Ltac explore :=
  repeat first
    [ rewrite get_db_connection_reaches;
      unfold connection_to, sqlite3_connect, open_connection
    | progress cbn [fst snd negb andb orb truthy getitem get_json fetchone
                    fetchall conn_backend conn_view conn_id committed
                    sqlite_file pg_server open_connections issued clock
                    next_conn_id]
    | match goal with
      | H : ?x = _ |- context [match ?x with _ => _ end] => rewrite H
      | |- context [match ?x with _ => _ end] => small x; destruct x eqn:?
      end ].

Ltac open_handler :=
  unfold try_finally, try_except, Runtime.bind, lift, ret, or_else, not_in,
    contains, close, commit, rollback, execute;
  unfold sql_dialect.

Ltac known := first [reflexivity | eassumption].

(** The trace of a branch is the first [n] statements of the script. *)
Ltac traced n :=
  exists n; apply since_app; cbn [issued firstn map snd];
  rewrite <- ?app_assoc, ?app_nil_r; reflexivity.

Ltac trace :=
  unfold begins, init_db_script, register_script, create_post_script,
    get_post_script, returning;
  first [ traced 0%nat | traced 1%nat | traced 2%nat | traced 3%nat
        | traced 4%nat ].

Section Entry.
Context {D : Driver} {L : Library}.

Lemma init_db_trace env w :
  begins (init_db_script (sql_dialect env)) (reaches env)
         (since w (snd (init_db env w))).
Proof.
  unfold init_db. open_handler. explore. all: trace.
Qed.

Lemma register_trace env (data : value) w :
  exists script,
    begins script (reaches env) (since w (snd (register env data w))) /\
    (script = [] \/
     exists name password,
       getitem data "name" = Ok name /\
       getitem data "password" = Ok password /\
       script = register_script (sql_dialect env) name password).
Proof.
  unfold register. open_handler. explore.
  all: first
    [ exists []; split; [exists 0%nat; apply since_app; cbn [issued firstn map snd];
                         rewrite ?app_nil_r; reflexivity|left; reflexivity]
    | eexists; split;
      [|right; do 2 eexists; split; [reflexivity|split; reflexivity]];
      trace ].
Qed.

Lemma create_post_trace env (data : value) w :
  exists script,
    begins script (reaches env) (since w (snd (create_post env data w))) /\
    (script = [] \/
     exists title content author_id,
       getitem data "title" = Ok title /\
       getitem data "content" = Ok content /\
       getitem data "author_id" = Ok author_id /\
       script = create_post_script (sql_dialect env) title content author_id).
Proof.
  unfold create_post. open_handler. explore.
  all: first
    [ exists []; split; [exists 0%nat; apply since_app; cbn [issued firstn map snd];
                         rewrite ?app_nil_r; reflexivity|left; reflexivity]
    | eexists; split;
      [|right; do 3 eexists; split; [known|split; [known|
          split; [known|reflexivity]]]];
      trace ].
Qed.

Lemma get_post_trace env i w :
  begins (get_post_script (sql_dialect env) i) (reaches env)
         (since w (snd (get_post env i w))).
Proof.
  unfold get_post. open_handler. explore. all: trace.
Qed.

Lemma get_users_trace env w :
  begins [SelectUsers] (reaches env) (since w (snd (get_users env w))).
Proof.
  unfold get_users. open_handler. explore. all: trace.
Qed.

Lemma get_posts_trace env w :
  begins [SelectPosts] (reaches env) (since w (snd (get_posts env w))).
Proof.
  unfold get_posts. open_handler. explore. all: trace.
Qed.

(** How the id of a new row is read. *)
Lemma register_reads env (data : value) w body w' :
  register env data w = (Ok (body, 201), w') ->
  exists name password db db' cur id,
    getitem data "name" = Ok name /\
    getitem data "password" = Ok password /\
    engine (reaches env) (clock w)
      (InsertUser (sql_dialect env) (returning (sql_dialect env))
         name password) db = Ok (db', cur) /\
    generated_id (sql_dialect env) cur = Ok id /\
    body = VDict [("success", VBool true); ("message", VStr MSG_REGISTERED);
                  ("user_id", id)].
Proof.
  unfold register. open_handler. explore.
  all: intros E; inversion E; subst; clear E.
  all: do 6 eexists; split; [reflexivity|]; split; [reflexivity|];
    split; [eassumption|]; split; [|reflexivity];
    unfold generated_id; cbn [fetchone]; try reflexivity;
    try (match goal with H : rows _ = _ |- _ => rewrite H end);
    assumption.
Qed.

Lemma create_post_reads env (data : value) w body w' :
  create_post env data w = (Ok (body, 201), w') ->
  exists title content author_id db db' cur id,
    getitem data "title" = Ok title /\
    getitem data "content" = Ok content /\
    getitem data "author_id" = Ok author_id /\
    engine (reaches env) (clock w)
      (InsertPost (sql_dialect env) (returning (sql_dialect env))
         title content author_id) db = Ok (db', cur) /\
    generated_id (sql_dialect env) cur = Ok id /\
    body = VDict [("success", VBool true); ("message", VStr MSG_POST_CREATED);
                  ("post_id", id)].
Proof.
  unfold create_post. open_handler. explore.
  all: intros E; inversion E; subst; clear E.
  all: do 7 eexists; split; [known|]; split; [known|];
    split; [known|];
    split; [eassumption|]; split; [|reflexivity];
    unfold generated_id; cbn [fetchone]; try reflexivity;
    try (match goal with H : rows _ = _ |- _ => rewrite H end);
    assumption.
Qed.

(** After a fallback the first statement of each entry point is the
    primary one, sent to the embedded connection, whatever the engine
    answers. *)
Ltac headed :=
  eexists; apply since_app; cbn [issued]; rewrite <- ?app_assoc;
  cbn [app]; reflexivity.

Lemma fell_back_file env w : fell_back env w -> database_file_failure = None.
Proof.
  intros F. destruct (fell_back_reaches env w F) as [U R].
  destruct F as (_ & conn & w' & E & _).
  rewrite get_db_connection_reaches, R in E. cbn [connection_to] in E.
  pose proof (sqlite3_connect_cases w) as C.
  destruct database_file_failure; [congruence|reflexivity].
Qed.

Lemma init_db_after_fallback_first env w :
  fell_back env w ->
  exists rest,
    since w (snd (init_db env w)) = (SQLite, CreateUsers Primary) :: rest.
Proof.
  intros F. destruct (fell_back_reaches env w F) as [U R].
  pose proof (fell_back_file env w F) as O.
  unfold init_db. open_handler. explore. all: headed.
Qed.

Lemma register_after_fallback_first env w (data : value) name password :
  fell_back env w ->
  getitem data "name" = Ok name ->
  getitem data "password" = Ok password ->
  exists rest,
    since w (snd (register env data w)) =
      (SQLite, SelectUserId Primary name) :: rest.
Proof.
  intros F Hn Hp. destruct (fell_back_reaches env w F) as [U R].
  pose proof (fell_back_file env w F) as O.
  destruct data as [| | | | |kv|]; try discriminate.
  cbn in Hn, Hp.
  destruct (lookup "name" kv) as [n|] eqn:Ln; [|discriminate].
  destruct (lookup "password" kv) as [p|] eqn:Lp; [|discriminate].
  inversion Hn; inversion Hp; subst n p.
  destruct kv as [|item kv]; [discriminate Ln|].
  unfold register. open_handler. unfold has_key. explore.
  all: try discriminate.
  all: headed.
Qed.

Lemma create_post_after_fallback_first
      env w (data : value) title content author_id :
  fell_back env w ->
  getitem data "title" = Ok title ->
  getitem data "content" = Ok content ->
  getitem data "author_id" = Ok author_id ->
  exists rest,
    since w (snd (create_post env data w)) =
      (SQLite, InsertPost Primary true title content author_id) :: rest.
Proof.
  intros F Ht Hc Ha. destruct (fell_back_reaches env w F) as [U R].
  pose proof (fell_back_file env w F) as O.
  unfold create_post. open_handler. explore. all: headed.
Qed.

Lemma get_post_after_fallback_first env w i :
  fell_back env w ->
  exists rest,
    since w (snd (get_post env i w)) =
      (SQLite, SelectPost Primary (VInt i)) :: rest.
Proof.
  intros F. destruct (fell_back_reaches env w F) as [U R].
  pose proof (fell_back_file env w F) as O.
  unfold get_post. open_handler. explore. all: headed.
Qed.

End Entry.

(** C4: the dialect used by schema initialization and by every
    handler is decided by [DATABASE_URL] alone (primary when it is set
    to a non-empty text, embedded otherwise), whichever store
    [get_db_connection] returned and whatever the engines answer.
    What [init_db], [register], [create_post] and [get_post] issue is a
    beginning of their script in that dialect (the DDL, the placeholder
    style and the [RETURNING id] clause of the insertions), sent to the
    store reached; the statements of [get_users] and [get_posts] are
    the same in both dialects; an answer with status 201 carries the id
    read the way of that dialect, from the row fetched or from
    [lastrowid].
    Consequently, after a fallback with the variable set, the embedded
    connection is sent the primary DDL, the [%s] statements and the
    [RETURNING id] insertion. *)
Theorem dialect_follows_DATABASE_URL {D : Driver} {L : Library}
    (env : Env) (w : world) (data : value) (post_id : Z) :
  sql_dialect env =
    match DATABASE_URL env with
    | Some (String _ _) => Primary
    | _ => Embedded
    end /\
  begins (init_db_script (sql_dialect env)) (reaches env)
         (since w (snd (init_db env w))) /\
  (exists script,
     begins script (reaches env) (since w (snd (register env data w))) /\
     (script = [] \/
      exists name password,
        getitem data "name" = Ok name /\
        getitem data "password" = Ok password /\
        script = register_script (sql_dialect env) name password)) /\
  (exists script,
     begins script (reaches env) (since w (snd (create_post env data w))) /\
     (script = [] \/
      exists title content author_id,
        getitem data "title" = Ok title /\
        getitem data "content" = Ok content /\
        getitem data "author_id" = Ok author_id /\
        script =
          create_post_script (sql_dialect env) title content author_id)) /\
  begins (get_post_script (sql_dialect env) post_id) (reaches env)
         (since w (snd (get_post env post_id w))) /\
  begins [SelectUsers] (reaches env) (since w (snd (get_users env w))) /\
  begins [SelectPosts] (reaches env) (since w (snd (get_posts env w))) /\
  (forall body w',
     register env data w = (Ok (body, 201), w') ->
     exists name password db db' cur id,
       getitem data "name" = Ok name /\
       getitem data "password" = Ok password /\
       engine (reaches env) (clock w)
         (InsertUser (sql_dialect env) (returning (sql_dialect env))
            name password) db = Ok (db', cur) /\
       generated_id (sql_dialect env) cur = Ok id /\
       body = VDict [("success", VBool true);
                     ("message", VStr MSG_REGISTERED); ("user_id", id)]) /\
  (forall body w',
     create_post env data w = (Ok (body, 201), w') ->
     exists title content author_id db db' cur id,
       getitem data "title" = Ok title /\
       getitem data "content" = Ok content /\
       getitem data "author_id" = Ok author_id /\
       engine (reaches env) (clock w)
         (InsertPost (sql_dialect env) (returning (sql_dialect env))
            title content author_id) db = Ok (db', cur) /\
       generated_id (sql_dialect env) cur = Ok id /\
       body = VDict [("success", VBool true);
                     ("message", VStr MSG_POST_CREATED); ("post_id", id)]) /\
  (fell_back env w ->
     sql_dialect env = Primary /\ reaches env = SQLite /\
     (exists rest,
        since w (snd (init_db env w)) =
          (SQLite, CreateUsers Primary) :: rest) /\
     (forall name password,
        getitem data "name" = Ok name ->
        getitem data "password" = Ok password ->
        exists rest,
          since w (snd (register env data w)) =
            (SQLite, SelectUserId Primary name) :: rest) /\
     (forall title content author_id,
        getitem data "title" = Ok title ->
        getitem data "content" = Ok content ->
        getitem data "author_id" = Ok author_id ->
        exists rest,
          since w (snd (create_post env data w)) =
            (SQLite, InsertPost Primary true title content author_id)
            :: rest) /\
     exists rest,
       since w (snd (get_post env post_id w)) =
         (SQLite, SelectPost Primary (VInt post_id)) :: rest).
Proof.
  split.
  { unfold sql_dialect, environ_DATABASE_URL.
    destruct (DATABASE_URL env) as [[|c url]|]; reflexivity. }
  split; [apply init_db_trace|].
  split; [apply register_trace|].
  split; [apply create_post_trace|].
  split; [apply get_post_trace|].
  split; [apply get_users_trace|].
  split; [apply get_posts_trace|].
  split; [apply register_reads|].
  split; [apply create_post_reads|].
  intros F. destruct (fell_back_reaches env w F) as [U R].
  split; [apply sql_dialect_set, U|].
  split; [exact R|].
  split; [apply init_db_after_fallback_first, F|].
  split; [intros name password; apply register_after_fallback_first, F|].
  split; [intros t c a; apply create_post_after_fallback_first, F|].
  apply get_post_after_fallback_first, F.
Qed.

Lemma dialect_follows_DATABASE_URL_witness :
  (fell_back env_placeholder forum_world /\
   (exists rest,
      since forum_world (snd (init_db env_placeholder forum_world)) =
        (SQLite, CreateUsers Primary) :: rest) /\
   (exists rest,
      since forum_world
            (snd (register env_placeholder alice_body forum_world)) =
        (SQLite, SelectUserId Primary (VStr "alice")) :: rest) /\
   (exists rest,
      since forum_world
            (snd (create_post env_placeholder post_body forum_world)) =
        (SQLite, InsertPost Primary true
                   (VStr "hello") (VStr "first") (VInt 1)) :: rest) /\
   (exists rest,
      since forum_world (snd (get_post env_placeholder 1 forum_world)) =
        (SQLite, SelectPost Primary (VInt 1)) :: rest)) /\
  (exists name password db db' cur,
     @register probe env_placeholder alice_body forum_world =
       (Ok (registered 7), snd (@register probe env_placeholder alice_body
                                  forum_world)) /\
     @engine probe SQLite new_year (InsertUser Primary true name password) db =
       Ok (db', cur) /\
     generated_id Primary cur = Ok (VInt 7) /\ lastrowid cur = VInt 9) /\
  (exists title content author_id db db' cur,
     fst (@create_post probe env_embedded post_body forum_world) =
       Ok (VDict [("success", VBool true); ("message", VStr MSG_POST_CREATED);
                  ("post_id", VInt 9)], 201) /\
     @engine probe SQLite new_year
       (InsertPost Embedded false title content author_id) db =
       Ok (db', cur) /\
     generated_id Embedded cur = Ok (VInt 9) /\
     fetchone cur = VList [VInt 7]).
Proof.
  assert (F : fell_back env_placeholder forum_world).
  { split; [reflexivity|]. eexists. eexists. split; reflexivity. }
  split; [|split].
  - destruct (@dialect_follows_DATABASE_URL store linux env_placeholder
                forum_world alice_body 1)
      as (_ & _ & _ & _ & _ & _ & _ & _ & _ & C).
    destruct (@dialect_follows_DATABASE_URL store linux env_placeholder
                forum_world post_body 1)
      as (_ & _ & _ & _ & _ & _ & _ & _ & _ & C').
    destruct (C F) as (_ & _ & I & Rg & _ & G).
    destruct (C' F) as (_ & _ & _ & _ & Cp & _).
    split; [exact F|]. split; [exact I|].
    split; [apply (Rg (VStr "alice") (VStr "secret")); reflexivity|].
    split; [apply (Cp (VStr "hello") (VStr "first") (VInt 1)); reflexivity|].
    exact G.
  - destruct (@dialect_follows_DATABASE_URL probe linux env_placeholder
                forum_world alice_body 1)
      as (_ & _ & _ & _ & _ & _ & _ & C & _).
    destruct (C _ _ eq_refl) as (n & p & db & db' & cur & id & _ & _ & E & G & B).
    exists n, p, db, db', cur.
    split; [reflexivity|]. split; [exact E|].
    inversion B; subst id. split; [exact G|].
    cbn in E. inversion E. reflexivity.
  - destruct (@dialect_follows_DATABASE_URL probe linux env_embedded
                forum_world post_body 1)
      as (_ & _ & _ & _ & _ & _ & _ & _ & C & _).
    destruct (C _ _ eq_refl)
      as (t & c & a & db & db' & cur & id & _ & _ & _ & E & G & B).
    exists t, c, a, db, db', cur.
    split; [reflexivity|]. split; [exact E|].
    inversion B; subst id. split; [exact G|].
    cbn in E. inversion E. reflexivity.
Defined.

End Dialects.

(* ================================================================== *)
(** * Registration                                                      *)
(* ================================================================== *)

Module Registration.
Import Calendar TimeFormat Py Store Runtime App Notions Scenarios.
Import StoreFacts Connector Statements.
Local Open Scope Z_scope.
Local Open Scope string_scope.

(** A body that is the JSON [null], or an object without the [name]
    field or without the [password] field, is answered by the
    validation failure, and nothing else changes: no row, no statement,
    no connection. *)
Lemma register_missing_fields {D : Driver} env w (data : value) :
  data = VNone \/
  (exists kv, data = VDict kv /\
              (has_key "name" kv = false \/ has_key "password" kv = false)) ->
  register env data w = (Ok validation_failure, w).
Proof.
  intros [-> | (kv & -> & H)]; [reflexivity|].
  unfold register, try_except, Runtime.bind, lift, or_else, not_in, contains.
  cbn [get_json truthy negb].
  destruct kv as [|kv0 kv]; [reflexivity|].
  destruct H as [H | H].
  - rewrite H. reflexivity.
  - rewrite H. destruct (has_key "name" (kv0 :: kv)); reflexivity.
Qed.

(** C8: a registration request without a body that can be decoded (no
    body at all, say) is answered by the generic failure with status
    500, where the specification promises the validation failure with
    status 400: [request.get_json()] raises inside the [try], before
    the test [if not data] that was written for this case, and the
    [except] clause answers.  Nothing else changes.  A body that is the
    JSON [null], or an object without [name] or without [password], is
    answered by the validation failure, as the specification says. *)
Theorem register_without_body_fails {D : Driver} (env : Env) (w : world) :
  get_json Undecodable = Raise BadRequest /\
  register env Undecodable w = (Ok register_failure, w) /\
  register_failure <> validation_failure /\
  snd register_failure = 500 /\ snd validation_failure = 400 /\
  register env VNone w = (Ok validation_failure, w) /\
  (forall kv,
     has_key "name" kv = false \/ has_key "password" kv = false ->
     register env (VDict kv) w = (Ok validation_failure, w)).
Proof.
  split; [reflexivity|]. split; [reflexivity|].
  split; [discriminate|]. split; [reflexivity|]. split; [reflexivity|].
  split.
  - apply register_missing_fields. left. reflexivity.
  - intros kv H. apply register_missing_fields. right. exists kv. auto.
Qed.

Lemma register_without_body_fails_witness :
  register env_embedded Undecodable forum_world =
    (Ok register_failure, forum_world) /\
  register env_primary (VDict [("name", VStr "bob")]) forum_world =
    (Ok validation_failure, forum_world) /\
  register env_placeholder (VDict [("password", VStr "secret")]) forum_world =
    (Ok validation_failure, forum_world).
Proof.
  split; [|split].
  - apply (@register_without_body_fails store env_embedded forum_world).
  - apply (@register_without_body_fails store env_primary forum_world).
    right. reflexivity.
  - apply (@register_without_body_fails store env_placeholder forum_world).
    left. reflexivity.
Defined.

(** Bodies that are not objects: a falsy one is refused like [null]; a
    text that contains both words passes the test and fails at the
    first subscript; a number makes the test itself raise. *)
Lemma register_other_bodies {D : Driver} env w :
  register env (VList []) w = (Ok validation_failure, w) /\
  register env (VStr "name and password") w = (Ok register_failure, w) /\
  register env (VInt 7) w = (Ok register_failure, w).
Proof. repeat split. Qed.

Lemma has_key_lookup k kv v : lookup k kv = Some v -> has_key k kv = true.
Proof. unfold has_key. intros ->. reflexivity. Qed.

Lemma lookup_nonempty k kv v : lookup k kv = Some v -> truthy (VDict kv) = true.
Proof. destruct kv; [discriminate|reflexivity]. Qed.

(** The steps of [register] up to the first statement. *)
Ltac to_first_statement Hn Hp :=
  unfold register, try_except, Runtime.bind, lift, or_else, not_in, contains;
  cbn [get_json];
  rewrite (lookup_nonempty _ _ _ Hn), (has_key_lookup _ _ _ Hn),
    (has_key_lookup _ _ _ Hp);
  cbn [negb getitem]; rewrite Hn, Hp;
  rewrite get_db_connection_opens.

Ltac closed :=
  unfold closed_again; cbn; rewrite Nat.eqb_refl; cbn; auto.

(** With the statements in the dialect of the store, a taken name is
    answered by the conflict failure; nothing is written and the
    connection is closed.  (The primary driver refuses a text with the
    character NUL.) *)
Lemma register_conflict env w kv n password :
  matched env ->
  lookup "name" kv = Some (VStr n) ->
  lookup "password" kv = Some password ->
  (reaches env = PostgreSQL -> has_nul n = false) ->
  name_taken n (committed (reaches env) w) = true ->
  exists w',
    register env (VDict kv) w = (Ok conflict_failure, w') /\
    sqlite_file w' = sqlite_file w /\ pg_server w' = pg_server w /\
    closed_again w w'.
Proof.
  intros M Hn Hp Z T. to_first_statement Hn Hp.
  destruct (name_taken_rows _ _ T) as (u & rest & F).
  destruct (matched_cases env M) as [[U R] | [U R]]; rewrite U, R in *;
    unfold open_connection, execute;
    cbn [engine store conn_backend conn_view committed];
    [ rewrite (run_select_user PostgreSQL) by exact Z
    | rewrite (run_select_user SQLite) by discriminate ];
    unfold fetchone; cbn [snd rows]; cbn [committed] in F; rewrite F;
    cbn [map truthy];
    eexists; (split; [reflexivity|]); closed.
Qed.

(** A free name is inserted, committed and answered with its id.  (In
    the primary store the two columns hold 100 characters.) *)
Lemma register_success env w kv n pw :
  matched env ->
  lookup "name" kv = Some (VStr n) ->
  lookup "password" kv = Some (VStr pw) ->
  (reaches env = PostgreSQL ->
   has_nul n = false /\ (Text.length n <= 100)%nat) ->
  (reaches env = PostgreSQL ->
   has_nul pw = false /\ (Text.length pw <= 100)%nat) ->
  name_taken n (committed (reaches env) w) = false ->
  let db := committed (reaches env) w in
  exists w',
    register env (VDict kv) w = (Ok (registered (next_user_id db)), w') /\
    committed (reaches env) w' =
      mkDatabase (users db ++ [mkUser (next_user_id db) n pw]) (posts db)
                 (next_user_id db + 1) (next_post_id db) /\
    closed_again w w'.
Proof.
  intros M Hn Hp Zn Zp T db. subst db. to_first_statement Hn Hp.
  pose proof (name_free_rows _ _ T) as F.
  destruct (matched_cases env M) as [[U R] | [U R]]; rewrite U, R in *;
    unfold open_connection, execute;
    cbn [engine store conn_backend conn_view committed fst snd];
    [ rewrite (run_select_user PostgreSQL) by (intros; apply Zn; assumption)
    | rewrite (run_select_user SQLite) by discriminate ];
    unfold fetchone; cbn [fst snd rows conn_backend conn_view];
    cbn [committed] in F, T; rewrite F;
    cbn [map truthy];
    [ rewrite (run_insert_user PostgreSQL _ true n pw) by assumption
    | rewrite (run_insert_user SQLite _ false n pw)
        by (discriminate || assumption) ];
    cbn; eexists; (split; [reflexivity|]); closed.
Qed.

(** Two registrations of one name leave one row of that name, and the
    second is the conflict failure. *)
Lemma register_twice env w kv n pw :
  matched env ->
  lookup "name" kv = Some (VStr n) ->
  lookup "password" kv = Some (VStr pw) ->
  (reaches env = PostgreSQL ->
   has_nul n = false /\ (Text.length n <= 100)%nat) ->
  (reaches env = PostgreSQL ->
   has_nul pw = false /\ (Text.length pw <= 100)%nat) ->
  (count_name n (committed (reaches env) w) <= 1)%nat ->
  let w1 := snd (register env (VDict kv) w) in
  let r2 := register env (VDict kv) w1 in
  fst r2 = Ok conflict_failure /\
  count_name n (committed (reaches env) (snd r2)) = 1%nat.
Proof.
  intros M Hn Hp Zn Zp C w1 r2. subst w1 r2.
  assert (Z : reaches env = PostgreSQL -> has_nul n = false)
    by (intros R; apply Zn, R).
  destruct (name_taken n (committed (reaches env) w)) eqn:T.
  - destruct (register_conflict env w kv n (VStr pw) M Hn Hp Z T)
      as (w1 & E1 & S1 & P1 & _).
    rewrite E1. cbn [snd].
    assert (D : committed (reaches env) w1 = committed (reaches env) w)
      by (destruct (reaches env); assumption).
    assert (T1 : name_taken n (committed (reaches env) w1) = true)
      by (rewrite D; exact T).
    destruct (register_conflict env w1 kv n (VStr pw) M Hn Hp Z T1)
      as (w2 & E2 & S2 & P2 & _).
    rewrite E2. cbn [fst snd]. split; [reflexivity|].
    assert (D2 : committed (reaches env) w2 = committed (reaches env) w)
      by (destruct (reaches env); cbn in *; congruence).
    rewrite D2. rewrite count_name_taken in T.
    destruct (count_name n (committed (reaches env) w)) as [|[|k]];
      cbn in T; [discriminate|reflexivity|lia].
  - destruct (register_success env w kv n pw M Hn Hp Zn Zp T)
      as (w1 & E1 & D1 & _).
    rewrite E1. cbn [snd].
    assert (C1 : count_name n (committed (reaches env) w1) = 1%nat).
    { rewrite D1. unfold count_name. cbn [users].
      rewrite filter_app, length_app. cbn. rewrite String.eqb_refl. cbn.
      rewrite count_name_taken in T. unfold count_name in T.
      destruct (List.length _); cbn in T; [reflexivity|discriminate]. }
    assert (T1 : name_taken n (committed (reaches env) w1) = true)
      by (rewrite count_name_taken, C1; reflexivity).
    destruct (register_conflict env w1 kv n (VStr pw) M Hn Hp Z T1)
      as (w2 & E2 & S2 & P2 & _).
    rewrite E2. cbn [fst snd]. split; [reflexivity|].
    assert (D2 : committed (reaches env) w2 = committed (reaches env) w1)
      by (destruct (reaches env); cbn in *; congruence).
    rewrite D2. exact C1.
Qed.

(** C1: with [DATABASE_URL] holding an unresolved variable reference,
    the connection is the embedded one while the statements are written
    with [%s]; registering the name of the user the store holds is then
    answered by the generic failure with status 500, where the
    specification promises the conflict failure.  The row count stays at
    one and the connection is left open.  The same happens when the name
    was registered on the primary store and the server refuses the
    connection of the second request. *)
Theorem register_duplicate_after_fallback :
  (name_taken "alice" (sqlite_file forum_world) = true /\
   fell_back env_placeholder forum_world /\
   exists w',
     register env_placeholder alice_body forum_world =
       (Ok register_failure, w') /\
     register_failure <> conflict_failure /\
     since forum_world w' = [(SQLite, SelectUserId Primary (VStr "alice"))] /\
     count_name "alice" (sqlite_file w') = 1%nat /\
     open_connections w' = [0%nat]) /\
  (exists w1 w2,
     register env_primary alice_body fresh_world = (Ok (registered 1), w1) /\
     name_taken "alice" (pg_server w1) = true /\
     fell_back env_unreachable w1 /\
     register env_unreachable alice_body w1 = (Ok register_failure, w2) /\
     since w1 w2 = [(SQLite, SelectUserId Primary (VStr "alice"))]).
Proof.
  split.
  - split; [reflexivity|]. split.
    { split; [reflexivity|]. eexists. eexists. split; reflexivity. }
    eexists. split; [reflexivity|].
    split; [discriminate|]. repeat split.
  - eexists. eexists. split; [reflexivity|]. split; [reflexivity|].
    split.
    { split; [reflexivity|]. eexists. eexists. split; reflexivity. }
    split; reflexivity.
Qed.

End Registration.

(* ================================================================== *)
(** * Creating a post                                                   *)
(* ================================================================== *)

Module Posting.
Import Calendar TimeFormat Py Store Runtime App Notions Scenarios.
Import StoreFacts Connector Statements.
Local Open Scope Z_scope.
Local Open Scope string_scope.

(** C9: a post request whose body has no [title] opens a connection,
    raises at [data['title']] and is answered with status 500 while the
    connection it opened is still open: the handler has no [finally],
    unlike [init_db].  This holds in every configuration. *)
Theorem create_post_leaves_connection_open (env : Env) (w : world) :
  exists w',
    create_post env (VDict []) w = (Ok post_failure, w') /\
    open_connections w' = next_conn_id w :: open_connections w /\
    issued w' = issued w /\
    sqlite_file w' = sqlite_file w /\ pg_server w' = pg_server w.
Proof.
  unfold create_post, try_except, Runtime.bind, lift. cbn [get_json].
  rewrite get_db_connection_opens.
  destruct (truthy (environ_DATABASE_URL env)); cbn;
    eexists; (split; [reflexivity|]); cbn; auto.
Qed.

(** The request that succeeds does close its connection.  (The primary
    driver refuses a text with the character NUL, and the primary
    engine an author that is no user or does not fit 32 bits.) *)
Lemma create_post_success env w kv t c a :
  matched env ->
  lookup "title" kv = Some (VStr t) ->
  lookup "content" kv = Some (VStr c) ->
  lookup "author_id" kv = Some (VInt a) ->
  (reaches env = PostgreSQL -> has_nul t = false /\ has_nul c = false) ->
  match reaches env with
  | PostgreSQL => fits_32 a && user_exists a (committed (reaches env) w)
  | SQLite => fits_64 a
  end = true ->
  let db := committed (reaches env) w in
  exists w',
    create_post env (VDict kv) w =
      (Ok (VDict [("success", VBool true); ("message", VStr MSG_POST_CREATED);
                  ("post_id", VInt (next_post_id db))], 201), w') /\
    posts (committed (reaches env) w') =
      (posts db ++
       [mkPost (next_post_id db) t c a
               (current_timestamp (reaches env) (clock w))])%list /\
    closed_again w w'.
Proof.
  intros M Ht Hc Ha Z FK db. subst db.
  unfold create_post, try_except, Runtime.bind, lift. cbn [get_json].
  rewrite get_db_connection_opens. cbn [getitem]. rewrite Ht, Hc, Ha.
  destruct (matched_cases env M) as [[U R] | [U R]]; rewrite U, R in *;
    unfold open_connection, execute;
    cbn [engine store conn_backend conn_view committed fst snd].
  - destruct (Z eq_refl) as [Zt Zc].
    rewrite (run_insert_post PostgreSQL _ true t c a)
      by (try exact FK; intros _; assumption).
    cbn. eexists. split; [reflexivity|]. cbn.
    unfold closed_again. cbn. rewrite Nat.eqb_refl. cbn. auto.
  - rewrite (run_insert_post SQLite _ false t c a)
      by (try exact FK; discriminate).
    cbn. eexists. split; [reflexivity|]. cbn.
    unfold closed_again. cbn. rewrite Nat.eqb_refl. cbn. auto.
Qed.

(** A session on the embedded store: the post is stored with the time
    of the clock, listed with its whole content and shown 8 hours later. *)
Example forum_session :
  fst (register env_embedded alice_body fresh_world) = Ok (registered 1) /\
  fst (create_post env_embedded post_body
         (snd (register env_embedded alice_body fresh_world))) =
    Ok (VDict [("success", VBool true); ("message", VStr MSG_POST_CREATED);
               ("post_id", VInt 1)], 201) /\
  posts (sqlite_file
           (snd (create_post env_embedded post_body
                   (snd (register env_embedded alice_body fresh_world))))) =
    [mkPost 1 "hello" "first" 1 (StampText "2024-01-01 00:00:00")] /\
  fst (get_posts env_embedded
         (snd (create_post env_embedded post_body
                 (snd (register env_embedded alice_body fresh_world))))) =
    Ok (list_response
          [VDict [("id", VInt 1); ("title", VStr "hello");
                  ("content_preview", VStr "first");
                  ("content", VStr "first");
                  ("author_id", VInt 1); ("author_name", VStr "alice");
                  ("created_at", VStr "2024-01-01 08:00:00")]]) /\
  fst (get_post env_embedded 2
         (snd (create_post env_embedded post_body
                 (snd (register env_embedded alice_body fresh_world))))) =
    Ok not_found.
Proof. repeat split. Qed.

End Posting.

(* ================================================================== *)
(** * Listing the posts                                                 *)
(* ================================================================== *)

Module Listing.
Import Calendar TimeFormat Py Store Runtime App Notions Scenarios.
Import TextFacts StoreFacts StampOrder Connector Statements.
Local Open Scope Z_scope.
Local Open Scope string_scope.

Lemma Forall2_map_r {A B} (R : A -> B -> Prop) (f : A -> B) l :
  (forall a, R a (f a)) -> Forall2 R l (map f l).
Proof. intros H. induction l; cbn; constructor; auto. Qed.

Section Items.
Context {L : Library}.

Lemma post_item_joined_row pu :
  post_item (joined_row pu) = Ok (rendered_item pu).
Proof.
  destruct pu as [p u]. unfold post_item, joined_row, rendered_item, preview.
  cbn [getindex nth_error len slice_to add_str].
  destruct (100 <? Text.length (post_content p))%nat; reflexivity.
Qed.

Lemma posts_list_joined l :
  posts_list (map joined_row l) = Ok (map rendered_item l).
Proof.
  induction l as [|pu l IH]; [reflexivity|].
  cbn [map posts_list]. rewrite post_item_joined_row, IH. reflexivity.
Qed.

(** In every configuration [get_posts] answers with the joined rows,
    newest first, writes nothing and closes its connection. *)
Lemma get_posts_returns env w :
  exists w',
    get_posts env w =
      (Ok (list_response
             (map rendered_item
                (listed (reaches env) (committed (reaches env) w)))), w') /\
    sqlite_file w' = sqlite_file w /\ pg_server w' = pg_server w /\
    closed_again w w'.
Proof.
  unfold get_posts, try_except, Runtime.bind, lift.
  rewrite get_db_connection_opens.
  unfold open_connection, execute, fetchall.
  cbn [engine store run conn_backend conn_view rows snd fst].
  rewrite posts_list_joined. unfold listed, list_response.
  eexists. split; [reflexivity|]. unfold closed_again. cbn.
  rewrite Nat.eqb_refl. cbn. auto.
Qed.

Lemma rendered_item_shown pu : shown_as pu (rendered_item pu).
Proof. destruct pu as [p u]. repeat split. Qed.

(** Of two listed rows, the one with the greater stamp stands first. *)
Lemma listed_order b db i j x y :
  nth_error (listed b db) i = Some x ->
  nth_error (listed b db) j = Some y ->
  stamp_ltb b (post_created_at (fst x)) (post_created_at (fst y)) = true ->
  (j < i)%nat.
Proof.
  intros Hi Hj Lt. pose proof (listed_sorted b db) as S.
  unfold stamp_ltb in Lt. apply negb_true_iff in Lt.
  destruct (Nat.lt_trichotomy i j) as [Lij | [Lij | Lij]];
    [| |exact Lij]; exfalso.
  - pose proof (sorted_positions (created_desc b) _ S i j x y Hi Hj Lij) as R.
    unfold created_desc in R. congruence.
  - subst j. rewrite Hi in Hj. inversion Hj; subst y.
    destruct (stamp_leb_total b (post_created_at (fst x))
                (post_created_at (fst x))); congruence.
Qed.

End Items.

(** C5: every item of the list [get_posts] returns carries the whole
    stored content in [content]; its [content_preview] is the first 100
    characters of that content followed by three dots when the content
    has more than 100 characters, and the content itself otherwise. *)
Theorem list_posts_preview {L : Library} (env : Env) (w : world) :
  exists rows items w',
    get_posts env w = (Ok (list_response items), w') /\
    Permutation rows (join (committed (reaches env) w)) /\
    Forall2
      (fun pu item =>
         let content := post_content (fst pu) in
         getitem item "id" = Ok (VInt (post_id (fst pu))) /\
         getitem item "content" = Ok (VStr content) /\
         exists shown,
           getitem item "content_preview" = Ok (VStr shown) /\
           ((100 < Text.length content)%nat ->
              exists head tail,
                content = String.append head tail /\
                Text.characters head = firstn 100 (Text.characters content) /\
                Text.length head = 100%nat /\
                shown = String.append head "...") /\
           ((Text.length content <= 100)%nat -> shown = content))
      rows items.
Proof.
  destruct (get_posts_returns env w) as (w' & E & _).
  exists (listed (reaches env) (committed (reaches env) w)),
    (map rendered_item (listed (reaches env) (committed (reaches env) w))), w'.
  split; [exact E|].
  split; [apply listed_perm|].
  apply Forall2_map_r. intros [p u]. cbn.
  split; [reflexivity|]. split; [reflexivity|].
  exists (preview (post_content p)).
  split; [reflexivity|]. unfold preview.
  destruct (Nat.ltb_spec 100 (Text.length (post_content p))) as [Len | Len].
  - split; [|lia]. intros _.
    exists (Text.take 100 (post_content p)),
      (Text.flatten (skipn 100 (Text.characters (post_content p)))).
    split; [apply take_split|].
    split; [apply characters_take|].
    split; [apply length_take; lia|reflexivity].
  - split; [lia|reflexivity].
Qed.

Lemma list_posts_preview_witness :
  (Text.length SEED_CONTENT = 122%nat /\
   exists item shown head tail w',
     get_posts env_embedded welcome_world =
       (Ok (list_response [item]), w') /\
     getitem item "content" = Ok (VStr SEED_CONTENT) /\
     getitem item "content_preview" = Ok (VStr shown) /\
     SEED_CONTENT = String.append head tail /\
     Text.length head = 100%nat /\
     shown = String.append head "...") /\
  (exists rows items w',
     get_posts env_embedded forum_world = (Ok (list_response items), w') /\
     Permutation rows (join forum_db) /\
     Forall2
       (fun pu item =>
          getitem item "content" = Ok (VStr (post_content (fst pu))) /\
          getitem item "content_preview" = Ok (VStr (post_content (fst pu))))
       rows items).
Proof.
  split.
  - split; [reflexivity|].
    destruct (@list_posts_preview linux env_embedded welcome_world)
      as (rows & items & w' & E & P & F).
    apply Permutation_sym, Permutation_length_1_inv in P. subst rows.
    inversion F as [|pu item rest items' (_ & C & shown & S & Long & _) F' E1 E2].
    inversion F'; subst. cbn [fst post_content seed_post] in *.
    assert (Len : (100 < Text.length SEED_CONTENT)%nat)
      by (apply Nat.ltb_lt; reflexivity).
    destruct (Long Len) as (head & tail & Eq & _ & Len' & Sh).
    exists item, shown, head, tail, w'. repeat split; assumption.
  - destruct (@list_posts_preview linux env_embedded forum_world)
      as (rows & items & w' & E & P & F).
    exists rows, items, w'. split; [exact E|]. split; [exact P|].
    assert (Short : forall pu, In pu rows ->
              (Text.length (post_content (fst pu)) <= 100)%nat).
    { intros pu I. apply (Permutation_in _ P) in I. cbn in I.
      destruct I as [<- | [<- | []]]; apply Nat.leb_le; reflexivity. }
    clear E P. induction F as [|pu item rows items H F IH]; constructor.
    + destruct H as (_ & C & shown & S & _ & Sh).
      split; [exact C|]. rewrite S, (Sh (Short pu (or_introl eq_refl))).
      reflexivity.
    + apply IH. intros pu' I. apply Short. right. exact I.
Defined.

(** C7, as stated, fails on the embedded store for two posts made
    within one second: the store stamps both with the text of that
    second, and the post made first is listed first. *)
Lemma same_second_posts_listed_older_first :
  valid noon = true /\ valid half_past = true /\
  time_key noon < time_key half_past /\
  fst (create_post env_embedded post_body (at_time noon alice_world)) =
    Ok (VDict [("success", VBool true); ("message", VStr MSG_POST_CREATED);
               ("post_id", VInt 1)], 201) /\
  fst (create_post env_embedded reply_body
         (at_time half_past after_first_post)) =
    Ok (VDict [("success", VBool true); ("message", VStr MSG_POST_CREATED);
               ("post_id", VInt 2)], 201) /\
  posts (sqlite_file after_second_post) =
    [mkPost 1 "hello" "first" 1 (current_timestamp SQLite noon);
     mkPost 2 "again" "second" 1 (current_timestamp SQLite half_past)] /\
  current_timestamp SQLite noon = StampText "2024-01-01 12:00:00" /\
  current_timestamp SQLite half_past = StampText "2024-01-01 12:00:00" /\
  exists older newer w',
    get_posts env_embedded after_second_post =
      (Ok (list_response [older; newer]), w') /\
    getitem older "id" = Ok (VInt 1) /\
    getitem newer "id" = Ok (VInt 2).
Proof.
  repeat (split; [reflexivity|]).
  eexists. eexists. eexists. repeat split.
Qed.

(** C7, amended: the list [get_posts] returns follows the joined rows
    sorted by [created_at], newest first: of two listed posts, the one
    with the later stamp stands before the other; in particular a post
    the store stamped at a time T2 stands before a post it stamped at
    an earlier time T1, provided that on the embedded store, whose
    stamps have no fractions of a second, the two times do not lie in
    the same second. *)
Theorem list_posts_newest_first {L : Library} (env : Env) (w : world) :
  exists rows items w',
    get_posts env w = (Ok (list_response items), w') /\
    Permutation rows (join (committed (reaches env) w)) /\
    Forall2 shown_as rows items /\
    StronglySorted (newer_first (reaches env)) rows /\
    (forall i j a b,
       nth_error rows i = Some a -> nth_error rows j = Some b ->
       stamp_ltb (reaches env)
         (post_created_at (fst a)) (post_created_at (fst b)) = true ->
       (j < i)%nat) /\
    (forall i j a b T1 T2,
       nth_error rows i = Some a -> nth_error rows j = Some b ->
       post_created_at (fst a) = current_timestamp (reaches env) T1 ->
       post_created_at (fst b) = current_timestamp (reaches env) T2 ->
       valid T1 = true -> valid T2 = true ->
       total_seconds T1 < total_seconds T2 \/
       (reaches env = PostgreSQL /\ time_key T1 < time_key T2) ->
       (j < i)%nat).
Proof.
  destruct (get_posts_returns env w) as (w' & E & _).
  exists (listed (reaches env) (committed (reaches env) w)),
    (map rendered_item (listed (reaches env) (committed (reaches env) w))), w'.
  split; [exact E|].
  split; [apply listed_perm|].
  split; [apply Forall2_map_r, rendered_item_shown|].
  split; [apply listed_sorted|].
  split; [intros i j a b; apply listed_order|].
  intros i j a b T1 T2 Hi Hj Ea Eb V1 V2 Lt.
  apply (listed_order _ _ i j a b Hi Hj). rewrite Ea, Eb.
  apply current_timestamp_order; assumption.
Qed.

Lemma list_posts_newest_first_witness :
  (exists rows items w' i j,
     get_posts env_embedded forum_world = (Ok (list_response items), w') /\
     Permutation rows (join forum_db) /\
     Forall2 shown_as rows items /\
     nth_error rows i = Some (first_post, alice) /\
     nth_error rows j = Some (second_post, alice) /\
     (j < i)%nat) /\
  (exists rows items w' i j,
     get_posts env_primary primary_world = (Ok (list_response items), w') /\
     Permutation rows (join primary_db) /\
     Forall2 shown_as rows items /\
     nth_error rows i = Some (noon_post, alice) /\
     nth_error rows j = Some (half_past_post, alice) /\
     (j < i)%nat).
Proof.
  split.
  - destruct (@list_posts_newest_first linux env_embedded forum_world)
      as (rows & items & w' & E & P & Sh & _ & _ & Order).
    assert (I1 : In (first_post, alice) rows).
    { apply (Permutation_in _ (Permutation_sym P)). cbn. auto. }
    assert (I2 : In (second_post, alice) rows).
    { apply (Permutation_in _ (Permutation_sym P)). cbn. auto. }
    destruct (In_nth_error _ _ I1) as [i Hi].
    destruct (In_nth_error _ _ I2) as [j Hj].
    exists rows, items, w', i, j.
    split; [exact E|]. split; [exact P|]. split; [exact Sh|].
    split; [exact Hi|]. split; [exact Hj|].
    apply (Order i j _ _ (mkDatetime 2024 1 1 0 0 0 0)
             (mkDatetime 2024 1 2 9 30 0 0) Hi Hj);
      try reflexivity.
    left. reflexivity.
  - destruct (@list_posts_newest_first linux env_primary primary_world)
      as (rows & items & w' & E & P & Sh & _ & _ & Order).
    assert (I1 : In (noon_post, alice) rows).
    { apply (Permutation_in _ (Permutation_sym P)). cbn. auto. }
    assert (I2 : In (half_past_post, alice) rows).
    { apply (Permutation_in _ (Permutation_sym P)). cbn. auto. }
    destruct (In_nth_error _ _ I1) as [i Hi].
    destruct (In_nth_error _ _ I2) as [j Hj].
    exists rows, items, w', i, j.
    split; [exact E|]. split; [exact P|]. split; [exact Sh|].
    split; [exact Hi|]. split; [exact Hj|].
    apply (Order i j _ _ noon half_past Hi Hj); try reflexivity.
    right. split; reflexivity.
Defined.

End Listing.

(* ================================================================== *)
(** * One post                                                          *)
(* ================================================================== *)

Module Detail.
Import Calendar TimeFormat Py Store Runtime App Notions Scenarios.
Import StoreFacts Connector Statements.
Local Open Scope Z_scope.
Local Open Scope string_scope.

Section Items.
Context {L : Library}.

(** With the statement in the dialect of the store, [get_post] answers
    404 when no joined row has the id, and the first such row, with its
    whole content, otherwise.  (The embedded driver takes an id of at
    most 64 bits.) *)
Lemma get_post_matched env w i :
  matched env ->
  (reaches env = SQLite -> fits_64 i = true) ->
  exists w',
    get_post env i w =
      (Ok (match matching i (committed (reaches env) w) with
           | [] => not_found
           | pu :: _ => found pu
           end), w') /\
    sqlite_file w' = sqlite_file w /\ pg_server w' = pg_server w /\
    closed_again w w'.
Proof.
  intros M F.
  unfold get_post, try_except, Runtime.bind, lift.
  rewrite get_db_connection_opens.
  destruct (matched_cases env M) as [[U R] | [U R]]; rewrite U, R in *;
    unfold open_connection, execute;
    cbn [engine store conn_backend conn_view committed fst snd];
    [ rewrite (run_select_post PostgreSQL) by discriminate
    | rewrite (run_select_post SQLite) by exact F ];
    unfold fetchone; cbn [fst snd rows];
    (destruct (matching i _) as [|[p u] rest]; cbn;
     eexists; (split; [reflexivity|]); unfold closed_again; cbn;
     rewrite Nat.eqb_refl; cbn; auto).
Qed.

(** An id the embedded driver cannot bind is answered with status
    500. *)
Lemma get_post_overflow env w i :
  matched env -> reaches env = SQLite -> fits_64 i = false ->
  fst (get_post env i w) = Ok (raw_failure OverflowError).
Proof.
  intros M R F.
  unfold get_post, try_except, Runtime.bind, lift.
  rewrite get_db_connection_opens.
  destruct (matched_cases env M) as [[U R'] | [U _]]; [congruence|].
  rewrite U, R.
  unfold open_connection, execute;
    cbn [engine store conn_backend conn_view committed fst snd].
  unfold run, integer_to_compare, integer_param.
  cbn [placeholders_ok native_dialect dialect_eqb check]. rewrite F.
  reflexivity.
Qed.

(** Whatever the configuration, a 200 answer of [get_post] is the
    detail of a joined row with the requested id. *)
Lemma get_post_200 env w i body w' :
  get_post env i w = (Ok (body, 200), w') ->
  exists pu,
    In pu (join (committed (reaches env) w)) /\
    post_id (fst pu) = i /\
    body = VDict [("success", VBool true); ("data", detail pu)].
Proof.
  intros E. destruct (matched_dec env) as [M | N].
  - assert (F : reaches env = SQLite -> fits_64 i = true).
    { intros R. destruct (fits_64 i) eqn:F; [reflexivity|].
      pose proof (get_post_overflow env w i M R F) as O.
      rewrite E in O. discriminate. }
    destruct (get_post_matched env w i M F) as (w1 & E1 & _).
    rewrite E1 in E. unfold matching in E.
    destruct (filter _ _) as [|pu rest] eqn:Fl; [discriminate|].
    assert (I : In pu (filter (fun pu => post_id (fst pu) =? i)%Z
                         (join (committed (reaches env) w))))
      by (rewrite Fl; left; reflexivity).
    apply filter_In in I. destruct I as [I Q]. apply Z.eqb_eq in Q.
    exists pu. split; [exact I|]. split; [exact Q|].
    unfold found in E. congruence.
  - destruct (unmatched_cases env N) as [U R].
    destruct (get_post_after_fallback env w i U R) as (w1 & E1 & _).
    rewrite E1 in E. discriminate.
Qed.

End Items.

(** C6: with [DATABASE_URL] holding an unresolved variable reference,
    the connection is the embedded one while the query is written with
    [%s]: [get_post] answers with status 500 both for an id no post has,
    where the specification promises 404, and for the id of a stored
    post whose author exists, where it promises the post. *)
Theorem get_post_after_fallback_fails :
  fell_back env_placeholder forum_world /\
  matching 99 forum_db = [] /\
  fst (get_post env_placeholder 99 forum_world) =
    Ok (raw_failure OperationalError) /\
  matching 1 forum_db = [(first_post, alice)] /\
  fst (get_post env_placeholder 1 forum_world) =
    Ok (raw_failure OperationalError) /\
  raw_failure OperationalError <> not_found /\
  raw_failure OperationalError <> found (first_post, alice) /\
  since forum_world (snd (get_post env_placeholder 1 forum_world)) =
    [(SQLite, SelectPost Primary (VInt 1))].
Proof.
  split.
  { split; [reflexivity|]. eexists. eexists. split; reflexivity. }
  repeat split; discriminate.
Qed.

End Detail.

(* ================================================================== *)
(** * The time shown                                                    *)
(* ================================================================== *)

Module Rendering.
Import Calendar TimeFormat Py Store Runtime App Notions Scenarios.
Import CalendarFacts TimeFormatFacts StoreFacts Connector Listing Detail.
Local Open Scope Z_scope.
Local Open Scope string_scope.

Section Conversion.
Context {L : Library}.

Lemma format_created_at_falsy v : truthy v = false -> format_created_at v = v.
Proof. unfold format_created_at. intros ->. reflexivity. Qed.

Lemma strptime_truthy s d : strptime s = Some d -> truthy (VStr s) = true.
Proof. destruct s; [discriminate|reflexivity]. Qed.

Lemma format_created_at_text s d d' :
  strptime s = Some d -> add_8_hours d = Some d' ->
  format_created_at (VStr s) = VStr (strftime d').
Proof.
  intros P A. unfold format_created_at.
  rewrite (strptime_truthy s d P), P. cbn. rewrite A. reflexivity.
Qed.

Lemma format_created_at_time d d' :
  add_8_hours d = Some d' ->
  format_created_at (VDatetime d) = VStr (strftime d').
Proof. intros A. unfold format_created_at. cbn. rewrite A. reflexivity. Qed.

Lemma format_created_at_failure v :
  conversion_fails v -> format_created_at v = v.
Proof.
  unfold format_created_at.
  intros [(s & -> & [P | (d & P & A)]) | (d & -> & A)].
  - rewrite P. destruct (truthy (VStr s)); reflexivity.
  - rewrite P. cbn [raise_if_none]. rewrite A.
    destruct (truthy (VStr s)); reflexivity.
  - cbn. rewrite A. reflexivity.
Qed.

(** A value that is neither a text nor a timestamp is shown as it is. *)
Lemma format_created_at_other v :
  match v with VStr _ | VDatetime _ => False | _ => True end ->
  format_created_at v = v.
Proof.
  unfold format_created_at.
  destruct v; intros H; try contradiction; destruct (truthy _); reflexivity.
Qed.

Lemma add_8_hours_whole d :
  add_8_hours (whole_seconds d) = option_map whole_seconds (add_8_hours d).
Proof.
  unfold add_8_hours, next_day, whole_seconds. cbn.
  destruct (hour d + 8 <? 24)%Z; [reflexivity|].
  destruct (day d <? days_in_month (year d) (month d))%Z; [reflexivity|].
  destruct (month d <? 12)%Z; [reflexivity|].
  destruct (year d <? MAXYEAR)%Z; reflexivity.
Qed.

(** With a year of four digits the text is of the shape
    [YYYY-MM-DD HH:MM:SS]. *)
Lemma strftime_shape d :
  valid d = true -> four_digit_year d ->
  strftime d = timestamp_text d /\ is_timestamp_text (strftime d) = true.
Proof.
  intros V Y. rewrite (strftime_timestamp_text d Y).
  split; [reflexivity|apply timestamp_text_shape, V].
Qed.

(** What either store stamped at the instant [now] is shown as the
    instant 8 hours later. *)
Lemma stored_stamp_rendering b now later :
  valid now = true -> add_8_hours now = Some later ->
  format_created_at (value_of_stamp (current_timestamp b now)) =
    VStr (strftime later).
Proof.
  intros V A. destruct b; cbn [current_timestamp value_of_stamp].
  - apply format_created_at_time, A.
  - apply (format_created_at_text _ (whole_seconds now) (whole_seconds later)).
    + apply strptime_timestamp_text, V.
    + rewrite add_8_hours_whole, A. reflexivity.
Qed.

End Conversion.

(** C2, as stated, fails for a stamp in the first centuries where the
    C library writes a year as it is: the stored text
    [0005-01-01 00:00:00] parses, the instant 8 hours later is in the
    year 5, and both handlers show it as [5-01-01 08:00:00], which is
    not of the shape [YYYY-MM-DD HH:MM:SS]. *)
Lemma created_at_of_year_5 :
  post_created_at early_post = StampText "0005-01-01 00:00:00" /\
  strptime "0005-01-01 00:00:00" = Some (mkDatetime 5 1 1 0 0 0 0) /\
  add_8_hours (mkDatetime 5 1 1 0 0 0 0) = Some (mkDatetime 5 1 1 8 0 0 0) /\
  format_created_at (VStr "0005-01-01 00:00:00") = VStr "5-01-01 08:00:00" /\
  is_timestamp_text "5-01-01 08:00:00" = false /\
  (exists item w',
     get_posts env_embedded early_world = (Ok (list_response [item]), w') /\
     getitem item "created_at" = Ok (VStr "5-01-01 08:00:00")) /\
  (exists data w',
     get_post env_embedded 1 early_world =
       (Ok (VDict [("success", VBool true); ("data", data)], 200), w') /\
     getitem data "created_at" = Ok (VStr "5-01-01 08:00:00")).
Proof.
  repeat (split; [reflexivity|]).
  split; eexists; eexists; split; reflexivity.
Qed.

(** C2, amended: [format_created_at], the conversion [get_posts] and
    [get_post] apply to [created_at], leaves an empty or absent value
    as it is; turns a text that parses, or a timestamp, into the text
    [strftime] writes for the instant 8 hours (28800 seconds) later,
    which is of the shape [YYYY-MM-DD HH:MM:SS] when the year of that
    instant is written with four digits (it is from the year 1000 on,
    and always where the library pads the year); parses every text the
    embedded store writes, so that what either store stamped at some
    instant is shown 8 hours later; turns "2024-01-01 00:00:00" into
    "2024-01-01 08:00:00"; returns the value unchanged when parsing or
    the addition fails, and also when the value is neither a text nor
    a timestamp.  The conversion is a function: no exception leaves
    it.  The list handler answers normally with each item's
    [created_at] so converted; the detail handler, when its query is in
    the dialect of the store and the driver can bind the id, answers
    404 or the post, and each of its 200 answers carries the converted
    value. *)
Theorem created_at_rendering {L : Library} :
  (forall v, truthy v = false -> format_created_at v = v) /\
  (forall s d d',
     strptime s = Some d -> add_8_hours d = Some d' ->
     format_created_at (VStr s) = VStr (strftime d') /\
     total_seconds d' = total_seconds d + 8 * 3600 /\
     (four_digit_year d' ->
      strftime d' = timestamp_text d' /\
      is_timestamp_text (strftime d') = true)) /\
  (forall d d',
     valid d = true -> add_8_hours d = Some d' ->
     format_created_at (VDatetime d) = VStr (strftime d') /\
     total_seconds d' = total_seconds d + 8 * 3600 /\
     (four_digit_year d' ->
      strftime d' = timestamp_text d' /\
      is_timestamp_text (strftime d') = true)) /\
  (forall d, valid d = true ->
     strptime (timestamp_text d) = Some (whole_seconds d)) /\
  (forall b now later,
     valid now = true -> add_8_hours now = Some later ->
     format_created_at (value_of_stamp (current_timestamp b now)) =
       VStr (strftime later)) /\
  format_created_at (VStr "2024-01-01 00:00:00") =
    VStr "2024-01-01 08:00:00" /\
  (forall v, conversion_fails v -> format_created_at v = v) /\
  (forall v,
     match v with VStr _ | VDatetime _ => False | _ => True end ->
     format_created_at v = v) /\
  (forall env w,
     exists rows items w',
       get_posts env w = (Ok (list_response items), w') /\
       Permutation rows (join (committed (reaches env) w)) /\
       Forall2
         (fun pu item =>
            getitem item "created_at" =
              Ok (format_created_at
                    (value_of_stamp (post_created_at (fst pu)))))
         rows items) /\
  (forall env w i,
     matched env -> (reaches env = SQLite -> fits_64 i = true) ->
     exists w',
       get_post env i w =
         (Ok (match matching i (committed (reaches env) w) with
              | [] => not_found
              | pu :: _ => found pu
              end), w')) /\
  (forall env w i body w',
     get_post env i w = (Ok (body, 200), w') ->
     exists pu data,
       In pu (join (committed (reaches env) w)) /\
       post_id (fst pu) = i /\
       getitem body "data" = Ok data /\
       getitem data "created_at" =
         Ok (format_created_at
               (value_of_stamp (post_created_at (fst pu))))).
Proof.
  split; [exact format_created_at_falsy|].
  split.
  { intros s d d' P A.
    destruct (add_8_hours_seconds d d' (strptime_valid s d P) A)
      as (S & V & _).
    split; [exact (format_created_at_text s d d' P A)|].
    split; [exact S|apply strftime_shape, V]. }
  split.
  { intros d d' V A.
    destruct (add_8_hours_seconds d d' V A) as (S & V' & _).
    split; [exact (format_created_at_time d d' A)|].
    split; [exact S|apply strftime_shape, V']. }
  split; [exact strptime_timestamp_text|].
  split; [exact stored_stamp_rendering|].
  split; [reflexivity|].
  split; [exact format_created_at_failure|].
  split; [exact format_created_at_other|].
  split.
  { intros env w. destruct (get_posts_returns env w) as (w' & E & _).
    exists (listed (reaches env) (committed (reaches env) w)),
      (map rendered_item (listed (reaches env) (committed (reaches env) w))),
      w'.
    split; [exact E|]. split; [apply listed_perm|].
    apply Forall2_map_r. intros [p u]. reflexivity. }
  split.
  { intros env w i M F.
    destruct (get_post_matched env w i M F) as (w' & E & _).
    exists w'. exact E. }
  intros env w i body w' E.
  destruct (get_post_200 env w i body w' E) as ([p u] & I & Q & ->).
  exists (p, u), (detail (p, u)). repeat split; assumption.
Qed.

Lemma created_at_rendering_witness :
  format_created_at VNone = VNone /\
  format_created_at (VStr "") = VStr "" /\
  (format_created_at (VStr "2023-02-28 16:30:00") =
     VStr "2023-03-01 00:30:00" /\
   total_seconds (mkDatetime 2023 3 1 0 30 0 0) =
     total_seconds (mkDatetime 2023 2 28 16 30 0 0) + 8 * 3600 /\
   is_timestamp_text "2023-03-01 00:30:00" = true) /\
  (format_created_at (VDatetime (mkDatetime 2024 12 31 23 59 59 250000)) =
     VStr "2025-01-01 07:59:59" /\
   total_seconds (mkDatetime 2025 1 1 7 59 59 250000) =
     total_seconds (mkDatetime 2024 12 31 23 59 59 250000) + 8 * 3600 /\
   is_timestamp_text "2025-01-01 07:59:59" = true) /\
  (@format_created_at padding (VStr "0005-01-01 00:00:00") =
     VStr "0005-01-01 08:00:00" /\
   is_timestamp_text "0005-01-01 08:00:00" = true) /\
  format_created_at (VStr "２０２４-01-01 00:00:00") =
    VStr "2024-01-01 08:00:00" /\
  strptime (timestamp_text (mkDatetime 2024 2 29 12 0 0 0)) =
    Some (mkDatetime 2024 2 29 12 0 0 0) /\
  format_created_at
    (value_of_stamp (current_timestamp SQLite (mkDatetime 2024 2 29 20 0 0 7))) =
    VStr "2024-03-01 04:00:00" /\
  format_created_at (VStr "yesterday") = VStr "yesterday" /\
  format_created_at (VStr "9999-12-31 20:00:00") =
    VStr "9999-12-31 20:00:00" /\
  format_created_at (VInt 1704067200) = VInt 1704067200 /\
  (exists rows items w',
     get_posts env_embedded forum_world = (Ok (list_response items), w') /\
     Permutation rows (join forum_db) /\
     Forall2
       (fun pu item =>
          getitem item "created_at" =
            Ok (format_created_at
                  (value_of_stamp (post_created_at (fst pu)))))
       rows items) /\
  (exists w',
     get_post env_embedded 1 forum_world =
       (Ok (found (first_post, alice)), w')) /\
  (exists pu data,
     In pu (join forum_db) /\ post_id (fst pu) = 1 /\
     getitem (fst (found (first_post, alice))) "data" = Ok data /\
     getitem data "created_at" =
       Ok (format_created_at (value_of_stamp (post_created_at (fst pu))))).
Proof.
  destruct (@created_at_rendering linux)
    as (P1 & P2 & P3 & P4 & P5 & _ & P7 & P8 & P9 & P10 & P11).
  destruct (@created_at_rendering padding) as (_ & Q2 & _).
  split; [apply P1; reflexivity|].
  split; [apply P1; reflexivity|].
  split.
  { destruct (P2 "2023-02-28 16:30:00" (mkDatetime 2023 2 28 16 30 0 0)
                (mkDatetime 2023 3 1 0 30 0 0) eq_refl eq_refl)
      as (F & S & Sh).
    split; [exact F|]. split; [exact S|].
    apply Sh. right. cbn. lia. }
  split.
  { destruct (P3 (mkDatetime 2024 12 31 23 59 59 250000)
                (mkDatetime 2025 1 1 7 59 59 250000) eq_refl eq_refl)
      as (F & S & Sh).
    split; [exact F|]. split; [exact S|].
    apply Sh. right. cbn. lia. }
  split.
  { destruct (Q2 "0005-01-01 00:00:00" (mkDatetime 5 1 1 0 0 0 0)
                (mkDatetime 5 1 1 8 0 0 0) eq_refl eq_refl)
      as (F & _ & Sh).
    split; [exact F|]. apply Sh. left. reflexivity. }
  split.
  { apply (P2 "２０２４-01-01 00:00:00" (mkDatetime 2024 1 1 0 0 0 0)
             (mkDatetime 2024 1 1 8 0 0 0)); reflexivity. }
  split.
  { apply (P4 (mkDatetime 2024 2 29 12 0 0 0)). reflexivity. }
  split.
  { apply (P5 SQLite (mkDatetime 2024 2 29 20 0 0 7)
             (mkDatetime 2024 3 1 4 0 0 7)); reflexivity. }
  split.
  { apply P7. left. exists "yesterday". split; [reflexivity|].
    left. reflexivity. }
  split.
  { apply P7. left. exists "9999-12-31 20:00:00". split; [reflexivity|].
    right. exists (mkDatetime 9999 12 31 20 0 0 0). split; reflexivity. }
  split; [apply P8; exact I|].
  split; [apply P9|].
  split.
  { apply (P10 env_embedded forum_world 1); [reflexivity|].
    intros _. reflexivity. }
  apply (P11 env_embedded forum_world 1 _
           (snd (get_post env_embedded 1 forum_world))).
  reflexivity.
Defined.

End Rendering.

(* ================================================================== *)
(** * Schema initialization                                             *)
(* ================================================================== *)

Module Initialisation.
Import Calendar TimeFormat Py Store Runtime App Notions Scenarios.
Import StoreFacts Connector Statements.
Local Open Scope Z_scope.
Local Open Scope string_scope.

(** Without [DATABASE_URL], [init_db] appends the seed post to the file
    when it holds no user, and closes its connection. *)
Lemma init_db_embedded env w :
  truthy (environ_DATABASE_URL env) = false ->
  let db := sqlite_file w in
  exists w',
    init_db env w = (Ok tt, w') /\
    sqlite_file w' =
      (match users db with
       | [] => mkDatabase (users db)
                 (posts db ++ [seed_post (next_post_id db) SQLite (clock w)])
                 (next_user_id db) (next_post_id db + 1)
       | _ :: _ => db
       end) /\
    pg_server w' = pg_server w /\ clock w' = clock w /\
    closed_again w w'.
Proof.
  intros U db. subst db.
  unfold init_db, try_finally, try_except, Runtime.bind, lift.
  rewrite get_db_connection_opens, U, (reaches_unset env U).
  unfold open_connection, execute, run. cbn.
  destruct (sqlite_file w) as [us ps nu np] eqn:E. cbn.
  destruct us as [|u us]; cbn;
    (eexists; (split; [reflexivity|]); unfold closed_again; cbn;
     rewrite Nat.eqb_refl; cbn; auto).
Qed.

(** On the primary store the foreign key refuses the seed post while
    there is no user: the insertion is rolled back. *)
Lemma init_db_primary env w :
  truthy (environ_DATABASE_URL env) = true ->
  reaches env = PostgreSQL ->
  users (pg_server w) = [] ->
  exists w',
    init_db env w = (Ok tt, w') /\
    pg_server w' = pg_server w /\ sqlite_file w' = sqlite_file w /\
    closed_again w w'.
Proof.
  intros U R E.
  unfold init_db, try_finally, try_except, Runtime.bind, lift.
  rewrite get_db_connection_opens, U, R.
  unfold open_connection, execute, run. cbn.
  destruct (pg_server w) as [us ps nu np] eqn:Epg. cbn in *. subst us. cbn.
  eexists. split; [reflexivity|]. unfold closed_again. cbn.
  rewrite Nat.eqb_refl. cbn. auto.
Qed.

(** C10, as stated, fails on the primary store: with a descriptor the
    server accepts and no user, [init_db] returns normally and the
    store holds no post afterwards. *)
Lemma init_db_primary_inserts_no_seed :
  users (pg_server fresh_world) = [] /\
  (exists conn w',
     get_db_connection env_primary fresh_world = (Ok conn, w') /\
     conn_backend conn = PostgreSQL) /\
  fst (init_db env_primary fresh_world) = Ok tt /\
  posts (pg_server (snd (init_db env_primary fresh_world))) = [] /\
  posts (sqlite_file (snd (init_db env_primary fresh_world))) = [] /\
  since fresh_world (snd (init_db env_primary fresh_world)) =
    [(PostgreSQL, CreateUsers Primary); (PostgreSQL, CreatePosts Primary);
     (PostgreSQL, CountUsers);
     (PostgreSQL, InsertPost Primary false
                    (VStr SEED_TITLE) (VStr SEED_CONTENT) (VInt 1))].
Proof.
  split; [reflexivity|]. split.
  { eexists. eexists. split; reflexivity. }
  repeat split.
Qed.

(** C10, amended: when [DATABASE_URL] is unset or empty, so that the
    embedded store is used with its own dialect, running [init_db]
    while the [users] table is empty appends one seed post with
    [author_id = 1], however many posts there are; running it twice
    appends two. *)
Theorem init_db_seeds_embedded_store (env : Env) (w : world) :
  truthy (environ_DATABASE_URL env) = false ->
  users (sqlite_file w) = [] ->
  let db := sqlite_file w in
  let w1 := snd (init_db env w) in
  let w2 := snd (init_db env w1) in
  let seed1 := seed_post (next_post_id db) SQLite (clock w) in
  let seed2 := seed_post (next_post_id db + 1) SQLite (clock w) in
  fst (init_db env w) = Ok tt /\
  posts (sqlite_file w1) = (posts db ++ [seed1])%list /\
  users (sqlite_file w1) = [] /\
  fst (init_db env w1) = Ok tt /\
  posts (sqlite_file w2) = (posts db ++ [seed1; seed2])%list /\
  post_author_id seed1 = 1 /\ post_author_id seed2 = 1.
Proof.
  intros U E db w1 w2 seed1 seed2. subst db w1 w2 seed1 seed2.
  destruct (init_db_embedded env w U) as (w1 & E1 & S1 & _ & C1 & _).
  rewrite E1. cbn [fst snd]. rewrite E in S1.
  destruct (init_db_embedded env w1 U) as (w2 & E2 & S2 & _).
  rewrite E2. cbn [fst snd]. rewrite S1 in S2. cbn in S2.
  rewrite S2, S1, C1. cbn. rewrite <- app_assoc. repeat split.
Qed.

Lemma init_db_seeds_embedded_store_witness :
  let w1 := snd (init_db env_embedded fresh_world) in
  let w2 := snd (init_db env_embedded w1) in
  let seed1 := seed_post 1 SQLite new_year in
  let seed2 := seed_post 2 SQLite new_year in
  fst (init_db env_embedded fresh_world) = Ok tt /\
  posts (sqlite_file w1) = [seed1] /\
  users (sqlite_file w1) = [] /\
  fst (init_db env_embedded w1) = Ok tt /\
  posts (sqlite_file w2) = [seed1; seed2] /\
  post_author_id seed1 = 1 /\ post_author_id seed2 = 1.
Proof.
  apply (init_db_seeds_embedded_store env_embedded fresh_world); reflexivity.
Defined.

End Initialisation.

(* ================================================================== *)
(** * The handlers as a whole                                           *)
(* ================================================================== *)

Module Handlers.
Import Calendar TimeFormat Py Store Runtime App Notions Scenarios.
Import TextFacts StoreFacts Connector Statements Dialects.
Local Open Scope Z_scope.
Local Open Scope string_scope.

Ltac answered :=
  eexists; eexists; split; [reflexivity|]; cbn [snd In]; auto 10.

(** X1: no exception leaves a handler, whatever the drivers do: each
    returns a body with one of its statuses. *)
Theorem handlers_always_answer {D : Driver} {L : Library}
    (env : Env) (w : world) (body : request) (post_id : Z) :
  (exists r w',
     register env body w = (Ok r, w') /\ In (snd r) [201; 400; 500]) /\
  (exists r w',
     get_users env w = (Ok r, w') /\ In (snd r) [200; 500]) /\
  (exists r w',
     create_post env body w = (Ok r, w') /\ In (snd r) [201; 500]) /\
  (exists r w',
     get_posts env w = (Ok r, w') /\ In (snd r) [200; 500]) /\
  (exists r w',
     get_post env post_id w = (Ok r, w') /\ In (snd r) [200; 404; 500]) /\
  health_check w =
    (Ok (VDict [("status", VStr "ok"); ("message", VStr MSG_HEALTHY)], 200),
     w).
Proof.
  split; [|split; [|split; [|split; [|split; [|reflexivity]]]]].
  - destruct body as [data|]; unfold register; open_handler; explore.
    all: answered.
  - unfold get_users; open_handler; explore. all: answered.
  - destruct body as [data|]; unfold create_post; open_handler; explore.
    all: answered.
  - unfold get_posts; open_handler; explore. all: answered.
  - unfold get_post; open_handler; explore. all: answered.
Qed.

(** X2: [init_db] closes the connection it got, whatever the engine
    answers to its statements: the [finally] clause runs on every
    path.  Without a connection the exception of [get_db_connection]
    leaves [init_db], the call standing before the [try]. *)
Theorem init_db_closes_connection {D : Driver} (env : Env) (w : world) :
  match get_db_connection env w with
  | (Ok conn, _) =>
      exists r w', init_db env w = (r, w') /\ closed_again w w'
  | (Raise e, w0) => init_db env w = (Raise e, w0)
  end.
Proof.
  unfold init_db. open_handler. explore.
  all: first
    [ reflexivity
    | eexists; eexists; (split; [reflexivity|]); unfold closed_again; cbn;
      rewrite Nat.eqb_refl; reflexivity ].
Qed.

(** X3: which store [get_db_connection] connects to: the primary one
    exactly when [DATABASE_URL] is a non-empty text that is no
    placeholder, the driver was imported and the server accepts the
    connection; the connection then sees what is committed there. *)
Theorem connector_chooses_store {D : Driver} (env : Env) (w : world) :
  get_db_connection env w = connection_to (reaches env) w /\
  (reaches env = PostgreSQL <-> primary_available env) /\
  (primary_available env ->
   exists conn w',
     get_db_connection env w = (Ok conn, w') /\
     conn_backend conn = PostgreSQL /\
     conn_view conn = pg_server w /\
     open_connections w' = next_conn_id w :: open_connections w) /\
  (POSTGRES_AVAILABLE env = false -> reaches env = SQLite).
Proof.
  assert (E : reaches env = PostgreSQL <-> primary_available env).
  { unfold reaches, primary_available, is_placeholder.
    destruct (DATABASE_URL env) as [url|].
    - destruct (String.eqb_spec url "") as [Z | Z]; cbn [negb andb].
      + split; [discriminate|]. intros (u & Eu & N & _). congruence.
      + destruct (POSTGRES_AVAILABLE env); cbn [andb].
        * destruct (startswith url "{{") eqn:S;
            destruct (endswith url "}}") eqn:T; cbn [andb negb];
            try (split; [discriminate|];
                 intros (u & Eu & _ & _ & N & _); inversion Eu; subst u;
                 contradiction N; split;
                 [apply startswith_iff, S|apply endswith_iff, T]).
          all: destruct (connect_failure env url) eqn:C;
            (split; [try discriminate|]);
            try (intros (u & Eu & _ & _ & _ & F); inversion Eu; subst u;
                 congruence).
          all: intros _; exists url; repeat split; auto;
            intros [P Q]; apply startswith_iff in P; apply endswith_iff in Q;
            congruence.
        * split; [discriminate|]. intros (u & _ & _ & A & _). discriminate.
    - split; [discriminate|]. intros (u & Eu & _). discriminate. }
  split; [apply get_db_connection_reaches|].
  split; [exact E|].
  split.
  - intros P. apply E in P. rewrite get_db_connection_reaches, P.
    eexists. eexists. split; [reflexivity|]. cbn. auto.
  - intros A. unfold reaches. rewrite A.
    destruct (DATABASE_URL env) as [url|]; [|reflexivity].
    rewrite andb_false_r. reflexivity.
Qed.

Lemma connector_chooses_store_witness :
  (exists conn w',
     get_db_connection env_primary forum_world = (Ok conn, w') /\
     conn_backend conn = PostgreSQL /\
     conn_view conn = pg_server forum_world /\
     open_connections w' = [0%nat]) /\
  reaches (mkEnv (Some "postgresql://forum@db.internal/forum") false
             (fun _ => None)) = SQLite.
Proof.
  split.
  - apply (@connector_chooses_store store env_primary forum_world).
    exists "postgresql://forum@db.internal/forum".
    split; [reflexivity|]. split; [discriminate|]. split; [reflexivity|].
    split; [|reflexivity].
    intros [P _]. apply startswith_iff in P. discriminate.
  - apply (@connector_chooses_store store
             (mkEnv (Some "postgresql://forum@db.internal/forum") false
                    (fun _ => None)) forum_world).
    reflexivity.
Defined.

Lemma users_list_rows l :
  users_list (map user_row l) = Ok (map user_item l).
Proof.
  induction l as [|u l IH]; [reflexivity|].
  cbn [map users_list]. unfold user_row at 1 2 3.
  cbn [getindex nth_error]. rewrite IH. reflexivity.
Qed.

Lemma id_asc_total a b : id_asc a b = true \/ id_asc b a = true.
Proof. unfold id_asc. rewrite !Z.leb_le. lia. Qed.

Lemma id_asc_trans a b c :
  id_asc a b = true -> id_asc b c = true -> id_asc a c = true.
Proof. unfold id_asc. rewrite !Z.leb_le. lia. Qed.

(** X4: [get_users] answers with every user row of the store reached, in
    ascending order of the ids, each with its id, name and password;
    it writes nothing and closes its connection. *)
Theorem get_users_lists_every_user (env : Env) (w : world) :
  exists rows w',
    get_users env w = (Ok (users_response (map user_item rows)), w') /\
    Permutation rows (users (committed (reaches env) w)) /\
    StronglySorted (fun a b => user_id a <= user_id b) rows /\
    sqlite_file w' = sqlite_file w /\ pg_server w' = pg_server w /\
    closed_again w w'.
Proof.
  exists (sort_by id_asc (users (committed (reaches env) w))).
  unfold get_users, try_except, Runtime.bind, lift.
  rewrite get_db_connection_opens.
  unfold open_connection, execute, fetchall.
  cbn [engine store run conn_backend conn_view rows snd fst].
  rewrite users_list_rows.
  eexists. split; [reflexivity|].
  split; [apply sort_by_perm|].
  split.
  - pose proof (sort_by_sorted id_asc id_asc_total id_asc_trans
                  (users (committed (reaches env) w))) as S.
    induction S as [|u l S IH F]; constructor; [exact IH|].
    eapply Forall_impl; [|exact F].
    intros v H. apply Z.leb_le. exact H.
  - unfold closed_again. cbn. rewrite Nat.eqb_refl. cbn. auto.
Qed.







(** X9: the detail of a post on a store that is sent its own
    dialect, for an id the driver can bind: status 404 when no post
    with that id has an author among the users, and otherwise the post
    with its whole content, however long, and its time 8 hours later;
    nothing is written and the connection is closed. *)
Theorem get_post_on_matching_store {L : Library}
    (env : Env) (w : world) (i : Z) :
  matched env ->
  (reaches env = SQLite -> fits_64 i = true) ->
  let db := committed (reaches env) w in
  exists w',
    sqlite_file w' = sqlite_file w /\ pg_server w' = pg_server w /\
    closed_again w w' /\
    ((forall p u, In (p, u) (join db) -> post_id p <> i) ->
     get_post env i w = (Ok not_found, w')) /\
    (forall p u, In (p, u) (join db) -> post_id p = i ->
     exists p' u' data,
       In (p', u') (join db) /\ post_id p' = i /\
       get_post env i w =
         (Ok (VDict [("success", VBool true); ("data", data)], 200), w') /\
       getitem data "content" = Ok (VStr (post_content p')) /\
       getitem data "created_at" =
         Ok (format_created_at (value_of_stamp (post_created_at p')))).
Proof.
  intros M F db. subst db.
  destruct (Detail.get_post_matched env w i M F) as (w' & E & S & P & C).
  exists w'. split; [exact S|]. split; [exact P|]. split; [exact C|].
  unfold matching in E.
  destruct (filter _ _) as [|[p' u'] rest] eqn:Fl.
  - split; [intros _; exact E|].
    intros p u I Q. exfalso.
    assert (I' : In (p, u) (filter (fun pu => post_id (fst pu) =? i)%Z
                              (join (committed (reaches env) w)))).
    { apply filter_In. split; [exact I|]. apply Z.eqb_eq, Q. }
    rewrite Fl in I'. exact I'.
  - assert (I' : In (p', u') (filter (fun pu => post_id (fst pu) =? i)%Z
                                (join (committed (reaches env) w))))
      by (rewrite Fl; left; reflexivity).
    apply filter_In in I'. destruct I' as [I' Q']. apply Z.eqb_eq in Q'.
    split.
    + intros N. exfalso. exact (N p' u' I' Q').
    + intros p u _ _. exists p', u', (detail (p', u')).
      split; [exact I'|]. split; [exact Q'|]. split; [exact E|].
      split; reflexivity.
Qed.

Lemma get_post_on_matching_store_witness :
  (exists w', get_post env_embedded 99 forum_world = (Ok not_found, w')) /\
  (exists p' u' data w',
     In (p', u') (join forum_db) /\ post_id p' = 2 /\
     get_post env_embedded 2 forum_world =
       (Ok (VDict [("success", VBool true); ("data", data)], 200), w') /\
     getitem data "content" = Ok (VStr (post_content p')) /\
     getitem data "created_at" =
       Ok (format_created_at (value_of_stamp (post_created_at p')))).
Proof.
  split.
  - destruct (@get_post_on_matching_store linux env_embedded forum_world 99)
      as (w' & _ & _ & _ & N & _); [reflexivity|intros _; reflexivity|].
    exists w'. apply N. intros p u I Q. cbn in I.
    destruct I as [I | [I | []]]; inversion I; subst p; discriminate.
  - destruct (@get_post_on_matching_store linux env_embedded forum_world 2)
      as (w' & _ & _ & _ & _ & Y); [reflexivity|intros _; reflexivity|].
    destruct (Y second_post alice) as (p' & u' & data & H);
      [cbn; auto|reflexivity|].
    exists p', u', data, w'. exact H.
Defined.

End Handlers.

(* ================================================================== *)
(** * The static routes                                                 *)
(* ================================================================== *)

Module StaticRoutes.
Import Py Static Notions TextFacts.
Local Open Scope Z_scope.
Local Open Scope string_scope.



End StaticRoutes.
